(** * DataConvert: the block-format codec, the tree-mapping codec and the
    conversion facade of [dataconvert.py], embedded in Rocq.

  Python [str] values are Rocq strings whose characters are code points
  0..255 (the Latin-1 block); Python [int] is [Z]; a [dict] is an
  association list in insertion order; an exception is a result of the
  [outcome] type.  [float] is an interface ([PyFloat]): the development is
  generic in how a token is read as a float.

  Two limits of the interpreter are left out: the depth of the call stack
  (recursion follows the nesting of the document) and the optional cap on
  the number of digits in conversions between [int] and [str].

  Of [main] only the choice of the input format is embedded; [read_file],
  [write_file], the argument parser and the console output are not. *)

From Stdlib Require Import String Ascii List ZArith Lia Bool Arith.
From Stdlib Require Import Decimal DecimalString DecimalZ.
Import ListNotations.
Open Scope list_scope.
Open Scope string_scope.

(** ** Python string built-ins *)

Module PyStr.

Definition nl : ascii := "010"%char.
Definition NL : string := String nl "".

(** [c.isspace()] on code points below 256. *)
Definition is_space (c : ascii) : bool :=
  let n := nat_of_ascii c in
  ((9 <=? n)%nat && (n <=? 13)%nat) || ((28 <=? n)%nat && (n <=? 32)%nat)
  || (n =? 133)%nat || (n =? 160)%nat.

(** [c.isdecimal()]: the characters [int()] reads. *)
Definition is_decimal (c : ascii) : bool :=
  let n := nat_of_ascii c in (48 <=? n)%nat && (n <=? 57)%nat.

(** [c.isdigit()]: the decimal characters and the superscripts
    U+00B2, U+00B3, U+00B9. *)
Definition is_digit (c : ascii) : bool :=
  let n := nat_of_ascii c in
  is_decimal c || (n =? 178)%nat || (n =? 179)%nat || (n =? 185)%nat.

Fixpoint forallb_str (p : ascii -> bool) (s : string) : bool :=
  match s with
  | "" => true
  | String c s' => p c && forallb_str p s'
  end.

(** [s.isdigit()]: every character is a digit and there is at least one. *)
Definition isdigit (s : string) : bool :=
  match s with
  | "" => false
  | _ => forallb_str is_digit s
  end.

Fixpoint lstrip (s : string) : string :=
  match s with
  | "" => ""
  | String c s' => if is_space c then lstrip s' else s
  end.

Fixpoint rstrip (s : string) : string :=
  match s with
  | "" => ""
  | String c s' =>
      match rstrip s' with
      | "" => if is_space c then "" else String c ""
      | r => String c r
      end
  end.

Definition strip (s : string) : string := lstrip (rstrip s).

(** [c in s] for a one-character [c]. *)
Fixpoint contains (c : ascii) (s : string) : bool :=
  match s with
  | "" => false
  | String d s' => Ascii.eqb d c || contains c s'
  end.

Definition startswith (p s : string) : bool := prefix p s.

Fixpoint endswith (suf s : string) : bool :=
  String.eqb s suf
  || match s with
     | "" => false
     | String _ s' => endswith suf s'
     end.

(** [s.split(sep)] for a one-character separator. *)
Fixpoint split (sep : ascii) (s : string) : list string :=
  match s with
  | "" => [""]
  | String c s' =>
      if Ascii.eqb c sep then "" :: split sep s'
      else match split sep s' with
           | x :: xs => String c x :: xs
           | [] => [String c ""]
           end
  end.

(** [s.split(sep, 1)]: cut at the first separator only. *)
Fixpoint split1 (sep : ascii) (s : string) : list string :=
  match s with
  | "" => [""]
  | String c s' =>
      if Ascii.eqb c sep then [""; s']
      else match split1 sep s' with
           | x :: xs => String c x :: xs
           | [] => [String c ""]
           end
  end.

(** [sep.join(parts)]. *)
Definition join (sep : string) (parts : list string) : string :=
  String.concat sep parts.

(** [s[n:]]. *)
Fixpoint drop (n : nat) (s : string) : string :=
  match n, s with
  | O, _ => s
  | S n', String _ s' => drop n' s'
  | S _, "" => ""
  end.

Fixpoint drop_last (s : string) : string :=
  match s with
  | "" => ""
  | String c "" => ""
  | String c s' => String c (drop_last s')
  end.

(** [s[1:-1]]. *)
Definition slice_1_m1 (s : string) : string := drop_last (drop 1 s).

(** [s * n]. *)
Fixpoint mul (s : string) (n : nat) : string :=
  match n with
  | O => ""
  | S n' => s ++ mul s n'
  end.

(** [s.replace(old, new, 1)] for a non-empty [old]. *)
Fixpoint replace1 (old new s : string) : string :=
  if prefix old s then new ++ drop (String.length old) s
  else match s with
       | "" => ""
       | String c s' => String c (replace1 old new s')
       end.

(** [str(n)] and [int(s)] on integers. *)
Definition str_of_int (z : Z) : string := NilEmpty.string_of_int (Z.to_int z).

Definition int_of_str (s : string) : option Z :=
  match NilEmpty.uint_of_string s with
  | Some d => Some (Z.of_uint d)
  | None => None
  end.

End PyStr.
Import PyStr.

(** ** Results of a call: a value, or an exception *)

(** [UnsupportedFormat] is the [ValueError] that [convert] itself raises; it is
  kept apart from a [ValueError] raised by a built-in by its raise site.
  [LibraryError] is any exception raised inside a delegated codec. *)
Inductive exn : Type :=
| UnsupportedFormat (msg : string)
| ValueError
| TypeError
| AttributeError
| KeyError
| LibraryError (detail : string).

(** [OutOfFuel] is not a Python result: it marks a run of the fuelled parser
  that was given too little fuel.  [OutOfModel] marks a run that leaves the
  value model (an attribute dictionary built from a list of pairs). *)
Inductive outcome (A : Type) : Type :=
| Ok (a : A)
| Raise (e : exn)
| OutOfFuel
| OutOfModel.
Arguments Ok {A} a.
Arguments Raise {A} e.
Arguments OutOfFuel {A}.
Arguments OutOfModel {A}.

Definition bind {A B : Type} (m : outcome A) (k : A -> outcome B) : outcome B :=
  match m with
  | Ok a => k a
  | Raise e => Raise e
  | OutOfFuel => OutOfFuel
  | OutOfModel => OutOfModel
  end.

Notation "x <- m ;; k" := (bind m (fun x => k))
  (at level 61, m at next level, right associativity).

(** A [for] loop over [l] that threads a state and stops at the first
    exception. *)
Definition foldM {S A : Type} (f : S -> A -> outcome S) : list A -> S -> outcome S :=
  fix loop (l : list A) (s : S) : outcome S :=
    match l with
    | [] => Ok s
    | a :: l' => s' <- f s a ;; loop l' s'
    end.

(** ** The value model *)

(** What the code uses of Python's [float]: reading a token ([float(s)],
  [None] for [ValueError]), printing ([str(x)]) and truth ([x != 0]). *)
Class PyFloat : Type := {
  float : Type;
  float_of_string : string -> option float;
  str_of_float : float -> string;
  float_truth : float -> bool
}.

Section Values.
Context {PF : PyFloat}.

Unset Elimination Schemes.
Inductive Value : Type :=
| VNull
| VBool (b : bool)
| VInt (z : Z)
| VFloat (f : float)
| VText (s : string)
| VList (items : list Value)
| VMap (entries : list (string * Value)).
Set Elimination Schemes.

(** A [dict] with string keys, in insertion order. *)
Definition dict : Type := list (string * Value).

Fixpoint dict_get (d : dict) (k : string) : option Value :=
  match d with
  | [] => None
  | (k', v) :: d' => if String.eqb k' k then Some v else dict_get d' k
  end.

Definition dict_mem (k : string) (d : dict) : bool :=
  match dict_get d k with Some _ => true | None => false end.

(** [d[k] = v]: overwrite in place, or append. *)
Fixpoint dict_set (d : dict) (k : string) (v : Value) : dict :=
  match d with
  | [] => [(k, v)]
  | (k', v') :: d' =>
      if String.eqb k' k then (k, v) :: d' else (k', v') :: dict_set d' k v
  end.

Definition is_container (v : Value) : bool :=
  match v with
  | VList _ | VMap _ => true
  | _ => false
  end.

(** [bool(v)]. *)
Definition truthy (v : Value) : bool :=
  match v with
  | VNull => false
  | VBool b => b
  | VInt z => negb (Z.eqb z 0)
  | VFloat f => float_truth f
  | VText s => negb (String.eqb s "")
  | VList l => match l with [] => false | _ => true end
  | VMap m => match m with [] => false | _ => true end
  end.

(** *** [str(v)] and [repr(v)] *)

Definition dquote : ascii := "034"%char.
Definition squote : ascii := "039"%char.
Definition backslash : ascii := "092"%char.

Definition hex_digit (n : nat) : ascii :=
  nth n (list_ascii_of_string "0123456789abcdef") "0"%char.

Definition printable (c : ascii) : bool :=
  let n := nat_of_ascii c in
  ((32 <=? n)%nat && (n <=? 126)%nat)
  || ((161 <=? n)%nat && negb (n =? 173)%nat).

Definition repr_char (quote c : ascii) : string :=
  if Ascii.eqb c quote || Ascii.eqb c backslash then String backslash (String c "")
  else if Ascii.eqb c "009"%char then "\t"
  else if Ascii.eqb c "010"%char then "\n"
  else if Ascii.eqb c "013"%char then "\r"
  else if printable c then String c ""
  else let n := nat_of_ascii c in
       "\x" ++ String (hex_digit (n / 16)) (String (hex_digit (n mod 16)) "").

Fixpoint repr_chars (quote : ascii) (s : string) : string :=
  match s with
  | "" => ""
  | String c s' => repr_char quote c ++ repr_chars quote s'
  end.

(** [repr(s)] of a string: single quotes, unless the string has a single
    quote and no double quote. *)
Definition repr_str (s : string) : string :=
  let quote := if contains squote s && negb (contains dquote s)
               then dquote else squote in
  String quote (repr_chars quote s ++ String quote "").

Fixpoint py_repr (v : Value) : string :=
  match v with
  | VNull => "None"
  | VBool true => "True"
  | VBool false => "False"
  | VInt z => str_of_int z
  | VFloat f => str_of_float f
  | VText s => repr_str s
  | VList l => "[" ++ join ", " (map py_repr l) ++ "]"
  | VMap m =>
      "{" ++ join ", " (map (fun kv => repr_str (fst kv) ++ ": " ++ py_repr (snd kv)) m)
          ++ "}"
  end.

Definition py_str (v : Value) : string :=
  match v with
  | VText s => s
  | _ => py_repr v
  end.

End Values.

(** ** class SimpleYAML *)

Module SimpleYAML.
Section Codec.
Context {PF : PyFloat}.

(** [_parse_value]: the [try] guards [float(value)] only; [int(value)] is
    outside it. *)
Definition _parse_value (value : string) : outcome Value :=
  if String.eqb value "" || String.eqb value "null" then Ok VNull
  else if String.eqb value "true" then Ok (VBool true)
  else if String.eqb value "false" then Ok (VBool false)
  else if isdigit value then
    match int_of_str value with
    | Some n => Ok (VInt n)
    | None => Raise ValueError
    end
  else
    match float_of_string value with
    | Some f => Ok (VFloat f)
    | None =>
        if (startswith (String dquote "") value && endswith (String dquote "") value)
           || (startswith "'" value && endswith "'" value)
        then Ok (VText (slice_1_m1 value))
        else Ok (VText value)
    end.

(** [len(line) - len(line.lstrip())]. *)
Definition indent_of (line : string) : nat :=
  String.length line - String.length (lstrip line).

(** The inner [while j < len(lines)] loop that gathers [sub_lines]: it
    returns the gathered lines and the lines from index [j] on. *)
Fixpoint collect_sub_lines (lines : list string) (line_indent : nat)
  : list string * list string :=
  match lines with
  | [] => ([], [])
  | sub_line :: rest =>
      if (indent_of sub_line <=? line_indent)%nat
         && negb (String.eqb (strip sub_line) "")
      then ([], lines)
      else let (sub_lines, after) := collect_sub_lines rest line_indent in
           (sub_line :: sub_lines, after)
  end.

(** [list_items if list_items else result]. *)
Definition finish (result : dict) (list_items : list Value) : Value :=
  match list_items with
  | [] => VMap result
  | _ => VList list_items
  end.

(** The [while i < len(lines)] loop of [_parse_lines]; [lines] is
    [lines[i:]].  One unit of fuel is spent per iteration and per nested
    call. *)
Fixpoint parse_loop (fuel : nat) (indent : nat) (lines : list string)
         (result : dict) (list_items : list Value) : outcome Value :=
  match fuel with
  | O => OutOfFuel
  | S fuel' =>
      match lines with
      | [] => Ok (finish result list_items)
      | line :: rest =>
          let stripped := strip line in
          if String.eqb stripped "" || startswith "#" stripped then
            parse_loop fuel' indent rest result list_items
          else
            let line_indent := indent_of line in
            if (line_indent <? indent)%nat then Ok (finish result list_items)
            else if (indent <? line_indent)%nat then
              parse_loop fuel' indent rest result list_items
            else if startswith "- " stripped then
              let value := strip (drop 2 stripped) in
              if contains ":" value then
                match split1 ":" value with
                | [key; val] =>
                    v <- _parse_value (strip val) ;;
                    parse_loop fuel' indent rest result
                      (list_items ++ [VMap [(strip key, v)]])%list
                | _ => Raise ValueError
                end
              else
                v <- _parse_value value ;;
                parse_loop fuel' indent rest result (list_items ++ [v])%list
            else if contains ":" stripped then
              match split1 ":" stripped with
              | [key; value] =>
                  let key := strip key in
                  let value := strip value in
                  if negb (String.eqb value "") then
                    v <- _parse_value value ;;
                    parse_loop fuel' indent rest (dict_set result key v) list_items
                  else
                    match rest with
                    | next_line :: _ =>
                        let next_indent := indent_of next_line in
                        if (line_indent <? next_indent)%nat then
                          let (sub_lines, after) :=
                            collect_sub_lines rest line_indent in
                          sub <- parse_loop fuel' next_indent sub_lines [] [] ;;
                          parse_loop fuel' indent after
                            (dict_set result key sub) list_items
                        else
                          parse_loop fuel' indent rest result list_items
                    | [] =>
                        parse_loop fuel' indent rest
                          (dict_set result key VNull) list_items
                    end
              | _ => Raise ValueError
              end
            else
              parse_loop fuel' indent rest result list_items
      end
  end.

Definition _parse_lines (fuel : nat) (lines : list string) (indent : nat)
  : outcome Value :=
  parse_loop fuel indent lines [] [].

(** [parse]: the fuel is one more than the number of lines, which is
    enough for every text. *)
Definition parse (text : string) : outcome Value :=
  let lines := split nl (strip text) in
  _parse_lines (S (length lines)) lines 0.

Definition _serialize_value (value : Value) : string :=
  match value with
  | VNull => "null"
  | VBool b => if b then "true" else "false"
  | VText s =>
      if contains " " s || contains ":" s
      then String dquote (s ++ String dquote "")
      else py_str value
  | _ => py_str value
  end.

Fixpoint serialize (data : Value) (indent : nat) : string :=
  let ind := mul "  " indent in
  match data with
  | VMap m =>
      join NL
        (flat_map
           (fun kv : string * Value =>
              let (key, value) := kv in
              if is_container value
              then [ind ++ key ++ ":"; serialize value (indent + 1)]
              else [ind ++ key ++ ": " ++ _serialize_value value])
           m)
  | VList l =>
      join NL
        (flat_map
           (fun item =>
              if is_container item
              then [ind ++ "- ";
                    replace1 (ind ++ "  ") (ind ++ "  ")
                      (serialize item (indent + 1))]
              else [ind ++ "- " ++ _serialize_value item])
           l)
  | _ => py_str data
  end.

End Codec.
End SimpleYAML.

(** ** class DataConvert *)

(** An [xml.etree.ElementTree.Element]: tag, attribute dictionary, text
  ([None] or a string) and children. *)
Unset Elimination Schemes.
Inductive Element {PF : PyFloat} : Type :=
| mkElement (tag : string) (attrib : dict) (text : option string)
            (children : list Element).
Set Elimination Schemes.

Definition el_tag {PF : PyFloat} (e : Element) : string :=
  match e with mkElement t _ _ _ => t end.
Definition el_attrib {PF : PyFloat} (e : Element) : dict :=
  match e with mkElement _ a _ _ => a end.
Definition el_text {PF : PyFloat} (e : Element) : option string :=
  match e with mkElement _ _ x _ => x end.
Definition el_children {PF : PyFloat} (e : Element) : list Element :=
  match e with mkElement _ _ _ c => c end.

(** [element.attrib = attrib], [element.text = s] and
    [element.append(child)]. *)
Definition set_attrib {PF : PyFloat} (element : Element) (attrib : dict) : Element :=
  match element with mkElement t _ x c => mkElement t attrib x c end.
Definition set_text {PF : PyFloat} (element : Element) (s : string) : Element :=
  match element with mkElement t a _ c => mkElement t a (Some s) c end.
Definition append {PF : PyFloat} (element child : Element) : Element :=
  match element with mkElement t a x c => mkElement t a x (c ++ [child])%list end.

(** The delegated codecs ([json], [csv], [xml.etree], [xml.dom.minidom]).  A
  failure carries the library's detail. *)
Class Collaborators {PF : PyFloat} : Type := {
  json_loads : string -> Value + string;
  json_dumps : bool -> Value -> string;
  csv_DictReader : list string -> Value + string;
  csv_DictWriter : list string -> list Value -> string + string;
  ET_fromstring : string -> Element + string;
  ET_tostring : Element -> string + string;
  minidom_toprettyxml : string -> string + string
}.

Definition lift {A : Type} (r : A + string) : outcome A :=
  match r with
  | inl a => Ok a
  | inr detail => Raise (LibraryError detail)
  end.

Module DataConvert.
Section Facade.
Context {PF : PyFloat} {Lib : Collaborators}.

Definition json_to_dict (json_str : string) : outcome Value :=
  lift (json_loads json_str).

Definition dict_to_json (data : Value) (pretty : bool) : outcome string :=
  Ok (json_dumps pretty data).

Definition csv_to_dict (csv_str : string) : outcome Value :=
  let lines := split nl (strip csv_str) in
  lift (csv_DictReader lines).

(** [data[0].keys()] needs a list whose first item is a dict. *)
Definition dict_to_csv (data : Value) : outcome string :=
  if negb (truthy data) then Ok ""
  else
    match data with
    | VList ((VMap first :: _) as rows) =>
        lift (csv_DictWriter (map fst first) rows)
    | VList _ => Raise AttributeError
    | VText _ => Raise AttributeError
    | VMap _ => Raise KeyError
    | _ => Raise TypeError
    end.

Fixpoint _element_to_dict (element : Element) : Value :=
  match element with
  | mkElement _ attrib text children =>
      let result : dict := [] in
      let result :=
        match attrib with
        | [] => result
        | _ => dict_set result "@attributes" (VMap attrib)
        end in
      let result :=
        match text with
        | Some t =>
            if negb (String.eqb t "") && negb (String.eqb (strip t) "")
            then dict_set result "#text" (VText (strip t))
            else result
        | None => result
        end in
      let result :=
        fold_left
          (fun result child =>
             let child_data := _element_to_dict child in
             match dict_get result (el_tag child) with
             | Some existing =>
                 let l := match existing with
                          | VList l => l
                          | _ => [existing]
                          end in
                 dict_set result (el_tag child) (VList (l ++ [child_data])%list)
             | None => dict_set result (el_tag child) child_data
             end)
          children result in
      if (length result =? 1)%nat && dict_mem "#text" result then
        match dict_get result "#text" with
        | Some t => t
        | None => VNull
        end
      else
        match result with
        | [] => VNull
        | _ => VMap result
        end
  end.

Definition xml_to_dict (xml_str : string) : outcome Value :=
  root <- lift (ET_fromstring xml_str) ;;
  Ok (_element_to_dict root).

(** One element of a sequence given to [dict.update]: it must unpack into
    a key and a value.  A list of two items gives them; a string of two
    characters gives its characters; a dict is iterated over its keys, so
    it must have two, and the first becomes the key of the second.  An
    element of another length is refused with [ValueError], a scalar with
    [TypeError], and a key that is a list or a dict is unhashable.  A key
    that is a number, a Boolean or [None] is taken by Python; the attribute
    dictionary of the model has string keys only, and this one case is left
    out. *)
Definition update_item (attrib : dict) (item : Value) : outcome dict :=
  match item with
  | VList [key; value] =>
      match key with
      | VText k => Ok (dict_set attrib k value)
      | VList _ | VMap _ => Raise TypeError
      | _ => OutOfModel
      end
  | VText (String a (String b "")) =>
      Ok (dict_set attrib (String a "") (VText (String b "")))
  | VMap [(k1, _); (k2, _)] => Ok (dict_set attrib k1 (VText k2))
  | VList _ | VText _ | VMap _ => Raise ValueError
  | _ => Raise TypeError
  end.

(** [attrib.update(other)]: a dict is copied entry by entry; a list is
    taken element by element, as above; the empty string adds nothing and
    the characters of another string are not pairs; a scalar is not
    iterable. *)
Definition attrib_update (attrib : dict) (other : Value) : outcome dict :=
  match other with
  | VMap m => Ok (fold_left (fun d kv => dict_set d (fst kv) (snd kv)) m attrib)
  | VList l => foldM update_item l attrib
  | VText "" => Ok attrib
  | VText _ => Raise ValueError
  | _ => Raise TypeError
  end.

Fixpoint _dict_to_element (data : Value) (tag : string) : outcome Element :=
  let element := mkElement tag [] None [] in
  match data with
  | VMap m =>
      element <- match dict_get m "@attributes" with
                 | Some other =>
                     attrib <- attrib_update (el_attrib element) other ;;
                     Ok (set_attrib element attrib)
                 | None => Ok element
                 end ;;
      foldM
        (fun (element : Element) (kv : string * Value) =>
           let (key, value) := kv in
           if String.eqb key "@attributes" then Ok element
           else if String.eqb key "#text" then Ok (set_text element (py_str value))
           else
             match value with
             | VList l =>
                 foldM
                   (fun element item =>
                      child <- _dict_to_element item key ;;
                      Ok (append element child))
                   l element
             | _ =>
                 child <- _dict_to_element value key ;;
                 Ok (append element child)
             end)
        m element
  | VList l =>
      foldM
        (fun element item =>
           child <- _dict_to_element item "item" ;;
           Ok (append element child))
        l element
  | VNull => Ok (set_text element "")
  | _ => Ok (set_text element (py_str data))
  end.

Definition dict_to_xml (data : Value) (root_name : string) (pretty : bool)
  : outcome string :=
  root <- _dict_to_element data root_name ;;
  xml_str <- lift (ET_tostring root) ;;
  if pretty then lift (minidom_toprettyxml xml_str) else Ok xml_str.

Definition yaml_to_dict (yaml_str : string) : outcome Value :=
  SimpleYAML.parse yaml_str.

Definition dict_to_yaml (data : Value) : string :=
  SimpleYAML.serialize data 0.

(** The first half of [convert] (under its comment [# Parse input]). *)
Definition parse_input (input_format data_str root_name : string)
  : outcome Value :=
  if String.eqb input_format "json" then json_to_dict data_str
  else if String.eqb input_format "csv" then csv_to_dict data_str
  else if String.eqb input_format "xml" then
    data <- xml_to_dict data_str ;;
    Ok (VMap [(root_name, data)])
  else if String.eqb input_format "yaml" then yaml_to_dict data_str
  else Raise (UnsupportedFormat ("Unsupported input format: " ++ input_format)).

(** The second half of [convert] (under [# Convert to output]). *)
Definition render_output (output_format root_name : string) (data : Value)
  : outcome string :=
  if String.eqb output_format "json" then dict_to_json data true
  else if String.eqb output_format "csv" then
    let data := match data with
                | VMap _ => VList [data]
                | _ => data
                end in
    dict_to_csv data
  else if String.eqb output_format "xml" then
    match data with
    | VMap [(root_key, inner)] => dict_to_xml inner root_key true
    | _ => dict_to_xml data root_name true
    end
  else if String.eqb output_format "yaml" then Ok (dict_to_yaml data)
  else Raise (UnsupportedFormat ("Unsupported output format: " ++ output_format)).

Definition convert (input_format output_format data_str root_name : string)
  : outcome string :=
  data <- parse_input input_format data_str root_name ;;
  render_output output_format root_name data.

End Facade.
End DataConvert.

(** ** main(): the input format

    Of [main] the part that chooses the input format is embedded: the
    suffix of the input path, as [Path.suffix] gives it, is put in lower
    case and loses its leading dots; the result must be one of five names,
    and [yml] stands for [yaml].  [None] is the branch that reports the
    format as unsupported and returns 1.  [--to] is restricted by argparse
    to [choices]. *)

Module CLI.

(** [c.lower()] on code points below 256. *)
Definition lower_char (c : ascii) : ascii :=
  let n := nat_of_ascii c in
  if ((65 <=? n)%nat && (n <=? 90)%nat)
     || ((192 <=? n)%nat && (n <=? 222)%nat && negb (n =? 215)%nat)
  then ascii_of_nat (n + 32) else c.

Fixpoint lower (s : string) : string :=
  match s with
  | "" => ""
  | String c s' => String (lower_char c) (lower s')
  end.

(** [s.lstrip(c)] for a one-character [c]. *)
Fixpoint lstrip_char (c : ascii) (s : string) : string :=
  match s with
  | "" => ""
  | String d s' => if Ascii.eqb d c then lstrip_char c s' else s
  end.

Definition choices : list string := ["json"; "csv"; "xml"; "yaml"].

Definition input_ext (suffix : string) : option string :=
  let input_ext := lstrip_char "." (lower suffix) in
  if negb (existsb (String.eqb input_ext) ["json"; "csv"; "xml"; "yaml"; "yml"])
  then None
  else Some (if String.eqb input_ext "yml" then "yaml" else input_ext).

End CLI.

(** ** A runtime for the examples

    The theorems below hold for every [PyFloat] and every [Collaborators].
    Closed examples need one of each.  The float reader here accepts no
    token, which is what [float()] answers on every token the examples pass
    to it; the delegated parsers are tables of the answers the libraries give
    on the documents of the repository's own tests. *)

Module Examples.

Definition no_float_tokens : PyFloat :=
  {| float := Empty_set;
     float_of_string := fun _ => None;
     str_of_float := fun f => match f with end;
     float_truth := fun _ => true |}.
#[local] Existing Instance no_float_tokens.

Definition hex4 (n : nat) : string :=
  "00" ++ String (hex_digit (n / 16)) (String (hex_digit (n mod 16)) "").

(** [json.dumps] with [ensure_ascii=False]: string escapes. *)
Definition json_char (c : ascii) : string :=
  if Ascii.eqb c dquote then String backslash (String dquote "")
  else if Ascii.eqb c backslash then "\\"
  else if Ascii.eqb c "010"%char then "\n"
  else if Ascii.eqb c "013"%char then "\r"
  else if Ascii.eqb c "009"%char then "\t"
  else if Ascii.eqb c "008"%char then "\b"
  else if Ascii.eqb c "012"%char then "\f"
  else if (nat_of_ascii c <? 32)%nat then "\u" ++ hex4 (nat_of_ascii c)
  else String c "".

Fixpoint json_chars (s : string) : string :=
  match s with
  | "" => ""
  | String c s' => json_char c ++ json_chars s'
  end.

Definition json_str (s : string) : string :=
  String dquote (json_chars s ++ String dquote "").

(** [json.dumps(data, indent=2)] at nesting [level], and the compact form. *)
Fixpoint json_render (pretty : bool) (level : nat) (v : Value) : string :=
  let pad := if pretty then NL ++ mul "  " (S level) else "" in
  let close := if pretty then NL ++ mul "  " level else "" in
  let comma := if pretty then "," ++ pad else ", " in
  match v with
  | VNull => "null"
  | VBool b => if b then "true" else "false"
  | VInt z => str_of_int z
  | VFloat f => str_of_float f
  | VText s => json_str s
  | VList [] => "[]"
  | VList l =>
      "[" ++ pad ++ join comma (map (json_render pretty (S level)) l) ++ close ++ "]"
  | VMap [] => "{}"
  | VMap m =>
      "{" ++ pad
      ++ join comma
           (map (fun kv => json_str (fst kv) ++ ": "
                           ++ json_render pretty (S level) (snd kv)) m)
      ++ close ++ "}"
  end.

Definition doc_data : string := "<data><name>Test</name></data>".

Definition tree_data : Element :=
  mkElement "data" [] None [mkElement "name" [] (Some "Test") []].

Definition table_lib : Collaborators :=
  {| json_loads := fun s =>
       if String.eqb s "{}" then inl (VMap [])
       else if String.eqb s "[]" then inl (VList [])
       else if String.eqb s "{invalid}" then inr "JSONDecodeError"
       else inr "document outside the table";
     json_dumps := fun pretty v => json_render pretty 0 v;
     csv_DictReader := fun _ => inr "document outside the table";
     csv_DictWriter := fun _ _ => inr "document outside the table";
     ET_fromstring := fun s =>
       if String.eqb s doc_data then inl tree_data
       else inr "document outside the table";
     ET_tostring := fun _ => inr "document outside the table";
     minidom_toprettyxml := fun _ => inr "document outside the table" |}.

End Examples.

(** A float reader on a table of tokens, for the examples that hold a
    Float: two floats, the tokens that Python reads as them, and [str] of
    each. *)
Module FloatExamples.

Inductive sample : Type := pi_314 | minus_5.

Definition two_floats : PyFloat :=
  {| float := sample;
     float_of_string := fun s =>
       if String.eqb s "3.14" then Some pi_314
       else if String.eqb s "-5" || String.eqb s "-5.0" then Some minus_5
       else None;
     str_of_float := fun f =>
       match f with
       | pi_314 => "3.14"
       | minus_5 => "-5.0"
       end;
     float_truth := fun _ => true |}.

Definition pi : @float two_floats := pi_314.
Definition minus_five : @float two_floats := minus_5.

End FloatExamples.

(** A second table of library answers, on a JSON object with one key. *)
Module RecordExamples.
Import Examples.
#[local] Existing Instance no_float_tokens.

Definition doc_user : string :=
  "{" ++ json_str "user" ++ ": {" ++ json_str "name" ++ ": " ++ json_str "Ann"
  ++ ", " ++ json_str "age" ++ ": 30}}".

Definition data_user : Value :=
  VMap [("user", VMap [("name", VText "Ann"); ("age", VInt 30)])].

Definition record_lib : Collaborators :=
  {| json_loads := fun s =>
       if String.eqb s doc_user then inl data_user
       else inr "document outside the table";
     json_dumps := fun pretty v => json_render pretty 0 v;
     csv_DictReader := fun _ => inr "document outside the table";
     csv_DictWriter := fun _ _ => inr "document outside the table";
     ET_fromstring := fun _ => inr "document outside the table";
     ET_tostring := fun _ => inr "document outside the table";
     minidom_toprettyxml := fun _ => inr "document outside the table" |}.

End RecordExamples.

Import SimpleYAML DataConvert.

(** ** Induction on values and on elements *)

Section Induction.
Context {PF : PyFloat}.

Fixpoint Value_ind (P : Value -> Prop)
  (HNull : P VNull) (HBool : forall b, P (VBool b)) (HInt : forall z, P (VInt z))
  (HFloat : forall f, P (VFloat f)) (HText : forall s, P (VText s))
  (HList : forall l, Forall P l -> P (VList l))
  (HMap : forall m, Forall (fun kv => P (snd kv)) m -> P (VMap m))
  (v : Value) {struct v} : P v :=
  let rec := Value_ind P HNull HBool HInt HFloat HText HList HMap in
  match v with
  | VNull => HNull
  | VBool b => HBool b
  | VInt z => HInt z
  | VFloat f => HFloat f
  | VText s => HText s
  | VList l =>
      HList l ((fix all (l : list Value) : Forall P l :=
                  match l with
                  | [] => Forall_nil _
                  | x :: l' => Forall_cons x (rec x) (all l')
                  end) l)
  | VMap m =>
      HMap m ((fix all (m : list (string * Value))
                 : Forall (fun kv => P (snd kv)) m :=
                 match m with
                 | [] => Forall_nil _
                 | kv :: m' => Forall_cons kv (rec (snd kv)) (all m')
                 end) m)
  end.

Fixpoint Element_ind (P : Element -> Prop)
  (H : forall tag attrib text children,
      Forall P children -> P (mkElement tag attrib text children))
  (e : Element) {struct e} : P e :=
  match e with
  | mkElement tag attrib text children =>
      H tag attrib text children
        ((fix all (l : list Element) : Forall P l :=
            match l with
            | [] => Forall_nil _
            | x :: l' => Forall_cons x (Element_ind P H x) (all l')
            end) children)
  end.

End Induction.

(** ** Conditions used by the statements *)

Section Conditions.
Context {PF : PyFloat}.

(** A character that is a digit only if [int()] reads it. *)
Definition plain_digit (c : ascii) : bool := implb (is_digit c) (is_decimal c).

(** Every digit character of [s] is one of [0]..[9]. *)
Definition decimal_digits (s : string) : bool := forallb_str plain_digit s.




(** The two reserved keys of the mapping. *)
Definition reserved (tag : string) : bool :=
  String.eqb tag "@attributes" || String.eqb tag "#text".





End Conditions.

(** ** Trees that the mapping folds and unfolds without loss of shape *)

Section Trees.
Context {PF : PyFloat}.

(** Same-tag siblings are adjacent: each tag is the tag of the previous
    sibling, or has not occurred among the earlier siblings.  [seen] holds
    the earlier tags and [prev] the previous one. *)
Fixpoint adjacent_from (seen : list string) (prev : option string)
         (tags : list string) : bool :=
  match tags with
  | [] => true
  | t :: tags' =>
      (match prev with
       | Some p => String.eqb p t || negb (existsb (String.eqb t) seen)
       | None => negb (existsb (String.eqb t) seen)
       end)
      && adjacent_from (t :: seen) (Some t) tags'
  end.

Definition same_tags_adjacent (tags : list string) : bool :=
  adjacent_from [] None tags.

(** The keys of a dict are pairwise different (true of every Python dict). *)
Fixpoint keys_distinct (d : dict) : bool :=
  match d with
  | [] => true
  | (k, _) :: d' => negb (dict_mem k d') && keys_distinct d'
  end.

(** At every node: the attribute dict has distinct keys, same-tag children
    are adjacent, and no child is tagged with a reserved key. *)
Fixpoint foldable (e : Element) : bool :=
  match e with
  | mkElement _ attrib _ children =>
      keys_distinct attrib
      && same_tags_adjacent (map el_tag children)
      && forallb (fun c => negb (reserved (el_tag c)) && foldable c) children
  end.

(** The text [_element_to_dict] keeps: stripped, when something is left. *)
Definition kept_text (text : option string) : option string :=
  match text with
  | Some t =>
      if negb (String.eqb t "") && negb (String.eqb (strip t) "")
      then Some (strip t) else None
  | None => None
  end.

(** What comes back from the round trip, with root tag [tag]: the same
    attributes and children; the text stripped; an empty text in a node
    that had no attributes, no text and no children. *)
Fixpoint restored_as (tag : string) (e : Element) : Element :=
  match e with
  | mkElement _ attrib text children =>
      mkElement tag attrib
        (match kept_text text with
         | Some s => Some s
         | None =>
             match attrib, children with
             | [], [] => Some ""
             | _, _ => None
             end
         end)
        (map (fun c => restored_as (el_tag c) c) children)
  end.

(** The tag structure and attribute maps of a tree. *)
Unset Elimination Schemes.
Inductive skeleton : Type :=
| Sk (tag : string) (attrib : dict) (children : list skeleton).
Set Elimination Schemes.

Fixpoint skeleton_of (e : Element) : skeleton :=
  match e with
  | mkElement tag attrib _ children => Sk tag attrib (map skeleton_of children)
  end.

End Trees.

(** ** Values that the block format gives back *)

Section BlockConditions.
Context {PF : PyFloat}.

(** First and last characters that [strip] keeps. *)
Definition head_ok (s : string) : bool :=
  match s with
  | "" => false
  | String c _ => negb (is_space c)
  end.

(** The last character is not white space. *)
Fixpoint last_ok (s : string) : bool :=
  match s with
  | "" => false
  | String c "" => negb (is_space c)
  | String _ s' => last_ok s'
  end.

Definition wrapped_in_quotes (s : string) : bool :=
  (startswith (String dquote "") s && endswith (String dquote "") s)
  || (startswith "'" s && endswith "'" s).

(** [float(s)] raises [ValueError]. *)
Definition not_float (s : string) : bool :=
  match float_of_string s with
  | None => true
  | Some _ => false
  end.

(** A Map key that a key line gives back: no colon, no leading [-] or [#],
    no newline, no white space at either end. *)
Definition key_ok (k : string) : bool :=
  negb (contains ":" k) && negb (startswith "-" k) && negb (startswith "#" k)
  && negb (contains nl k) && String.eqb (strip k) k.

(** A Text that a scalar position gives back ([in_list]: as a list item).
    With a space or a colon it is written in double quotes; a list item must
    then have no colon.  Without, it must not be empty, [null], [true],
    [false], wrapped in quotes, or have white space at either end, and if it
    passes [isdigit()] its characters must be decimal (it is then read as an
    Integer).  In both cases it has no newline and its rendering is not a
    float literal. *)
Definition text_ok (in_list : bool) (s : string) : bool :=
  negb (contains nl s)
  && not_float (_serialize_value (VText s))
  && if contains " " s || contains ":" s
     then negb (in_list && contains ":" s)
     else negb (String.eqb s "") && String.eqb (strip s) s
          && negb (String.eqb s "null") && negb (String.eqb s "true")
          && negb (String.eqb s "false")
          && negb (wrapped_in_quotes s)
          && implb (isdigit s) (forallb_str is_decimal s).

Definition scalar_ok (in_list : bool) (v : Value) : bool :=
  match v with
  | VNull => true
  | VBool _ => true
  | VInt z => (0 <=? z)%Z
  | VText s => text_ok in_list s
  | _ => false
  end.

Definition nonempty {A : Type} (l : list A) : bool :=
  match l with
  | [] => false
  | _ => true
  end.

(** A non-empty Map with distinct, readable keys whose values are readable
    scalars or nested values of this kind, or a non-empty List of readable
    scalars. *)
Fixpoint nested_ok (v : Value) : bool :=
  match v with
  | VMap m =>
      nonempty m && keys_distinct m
      && forallb
           (fun kv => key_ok (fst kv)
                      && (if is_container (snd kv) then nested_ok (snd kv)
                          else scalar_ok false (snd kv)))
           m
  | VList l => nonempty l && forallb (scalar_ok true) l
  | _ => false
  end.


(** *** The class of the round trip

    The conditions above, with the two kinds of scalar that need the float
    reader. *)

(** A Float that is written as a token the parser reads as a Float: [str]
    of it has no white space at either end (so it is not empty), no
    newline, as a list item no colon, is not [null], [true] or [false],
    does not pass [isdigit()], and [float()] accepts it.  Every [str] of a
    Python float is such a token. *)
Definition float_ok (in_list : bool) (f : float) : bool :=
  let tok := str_of_float f in
  head_ok tok && last_ok tok && negb (contains nl tok)
  && negb (in_list && contains ":" tok)
  && negb (String.eqb tok "null") && negb (String.eqb tok "true")
  && negb (String.eqb tok "false")
  && negb (isdigit tok) && negb (not_float tok).

(** A scalar of the round trip: as [scalar_ok], and also a Float as above
    and a negative Integer whose digits [float()] accepts. *)
Definition scalar_reads (in_list : bool) (v : Value) : bool :=
  match v with
  | VInt z => (0 <=? z)%Z || negb (not_float (str_of_int z))
  | VFloat f => float_ok in_list f
  | _ => scalar_ok in_list v
  end.

Fixpoint nested_reads (v : Value) : bool :=
  match v with
  | VMap m =>
      nonempty m && keys_distinct m
      && forallb
           (fun kv => key_ok (fst kv)
                      && (if is_container (snd kv) then nested_reads (snd kv)
                          else scalar_reads false (snd kv)))
           m
  | VList l => nonempty l && forallb (scalar_reads true) l
  | _ => false
  end.

Definition block_reads (v : Value) : bool :=
  match v with
  | VMap [] => true
  | _ => nested_reads v
  end.

(** Scalar parsing as the specification words it: empty or [null], then
    [true]/[false], then an all-digit token as the Integer it spells, then a
    float, then a token in matching quotes without them, then the token. *)
Definition scalar_precedence (token : string) : Value :=
  if String.eqb token "" || String.eqb token "null" then VNull
  else if String.eqb token "true" then VBool true
  else if String.eqb token "false" then VBool false
  else if isdigit token then
    VInt (match int_of_str token with Some n => n | None => 0%Z end)
  else
    match float_of_string token with
    | Some f => VFloat f
    | None =>
        if wrapped_in_quotes token then VText (slice_1_m1 token)
        else VText token
    end.

(** The scalar coercion of the parser: a Text that passes [isdigit()] comes
    back as the Integer it spells. *)
Definition coerce_text (s : string) : Value :=
  if isdigit s then
    match int_of_str s with
    | Some n => VInt n
    | None => VText s
    end
  else VText s.

Fixpoint coerce (v : Value) : Value :=
  match v with
  | VText s => coerce_text s
  | VList l => VList (map coerce l)
  | VMap m => VMap (map (fun kv => (fst kv, coerce (snd kv))) m)
  | _ => v
  end.

(** What the parser reads a value of the round trip as: a Text that passes
    [isdigit()] as the Integer it spells; a negative Integer as the Float
    that [float()] reads from its digits; a Float as the Float that
    [float()] reads from [str] of it, which is the Float itself when the
    reader reads what it writes. *)
Fixpoint read_as (v : Value) : Value :=
  match v with
  | VInt z =>
      if (0 <=? z)%Z then v
      else match float_of_string (str_of_int z) with
           | Some f => VFloat f
           | None => VText (str_of_int z)
           end
  | VFloat f =>
      match float_of_string (str_of_float f) with
      | Some f' => VFloat f'
      | None => v
      end
  | VText s => coerce_text s
  | VList l => VList (map read_as l)
  | VMap m => VMap (map (fun kv => (fst kv, read_as (snd kv))) m)
  | _ => v
  end.

(** The round-trip property as the specification words it.  Keys: no Map
    key contains [:] or starts with [-]. *)
Fixpoint spec_keys_ok (v : Value) : bool :=
  match v with
  | VMap m =>
      forallb
        (fun kv => negb (contains ":" (fst kv)) && negb (startswith "-" (fst kv))
                   && spec_keys_ok (snd kv))
        m
  | VList l => forallb spec_keys_ok l
  | _ => true
  end.

(** Structural equality, except that an all-digit Text may come back as an
    Integer, and an Integer as a Float or a Float as an Integer. *)
Unset Elimination Schemes.
Inductive same_modulo_coercion : Value -> Value -> Prop :=
| smc_null : same_modulo_coercion VNull VNull
| smc_bool : forall b, same_modulo_coercion (VBool b) (VBool b)
| smc_int : forall z, same_modulo_coercion (VInt z) (VInt z)
| smc_float : forall f, same_modulo_coercion (VFloat f) (VFloat f)
| smc_text : forall s, same_modulo_coercion (VText s) (VText s)
| smc_digits : forall s z, isdigit s = true -> same_modulo_coercion (VText s) (VInt z)
| smc_int_float : forall z f, same_modulo_coercion (VInt z) (VFloat f)
| smc_float_int : forall z f, same_modulo_coercion (VFloat f) (VInt z)
| smc_list : forall l l',
    Forall2 same_modulo_coercion l l' ->
    same_modulo_coercion (VList l) (VList l')
| smc_map : forall m m',
    Forall2 (fun kv kv' => fst kv = fst kv'
                           /\ same_modulo_coercion (snd kv) (snd kv')) m m' ->
    same_modulo_coercion (VMap m) (VMap m').
Set Elimination Schemes.

End BlockConditions.

(** ** Notions used in the proofs *)

Section ProofNotions.
Context {PF : PyFloat}.

(** The items of a List, and nothing for another value. *)
Definition items_of (v : Value) : list Value :=
  match v with
  | VList l => l
  | _ => []
  end.

(** A call that returns, or raises the [ValueError] of a built-in. *)
Definition returns_or_value_error {A : Type} (o : outcome A) : Prop :=
  match o with
  | Ok _ => True
  | Raise ValueError => True
  | _ => False
  end.


(** The four format tags [convert] dispatches on. *)
Definition supported (format : string) : bool :=
  String.eqb format "json" || String.eqb format "csv"
  || String.eqb format "xml" || String.eqb format "yaml".

(** The default of [root_name] in [convert] and [dict_to_xml]. *)
Definition default_root_name : string := "root".

(** A call that does not raise the unsupported-format error. *)
Definition not_unsupported {A : Type} (o : outcome A) : Prop :=
  forall msg, o <> Raise (UnsupportedFormat msg).

(** The pieces of [_element_to_dict]: [result] before the children, the
    loop body, and the final simplification. *)
Definition base_result (attrib : dict) (text : option string) : dict :=
  ((match attrib with
    | [] => []
    | _ => [("@attributes", VMap attrib)]
    end)
   ++ (match kept_text text with
       | Some s => [("#text", VText s)]
       | None => []
       end))%list.

Definition as_list (v : Value) : list Value :=
  match v with
  | VList l => l
  | _ => [v]
  end.

Definition is_list (v : Value) : bool :=
  match v with
  | VList _ => true
  | _ => false
  end.

Definition add_child (result : dict) (child : Element) : dict :=
  match dict_get result (el_tag child) with
  | Some existing =>
      dict_set result (el_tag child)
        (VList (as_list existing ++ [_element_to_dict child])%list)
  | None => dict_set result (el_tag child) (_element_to_dict child)
  end.

Definition collapse (result : dict) : Value :=
  if (length result =? 1)%nat && dict_mem "#text" result then
    match dict_get result "#text" with
    | Some t => t
    | None => VNull
    end
  else
    match result with
    | [] => VNull
    | _ => VMap result
    end.

(** A run of same-tag children and the entry it is folded into. *)
Definition pack (ds : list Value) : Value :=
  match ds with
  | [d] => d
  | _ => VList ds
  end.

Definition group_entry (tg : string * list Element) : string * Value :=
  (fst tg, pack (map _element_to_dict (snd tg))).

Definition members (G : list (string * list Element)) : list Element :=
  concat (map snd G).

Definition child_ok (c : Element) : Prop :=
  reserved (el_tag c) = false /\ is_list (_element_to_dict c) = false.

Definition group_ok (tg : string * list Element) : Prop :=
  snd tg <> [] /\ Forall (fun c => el_tag c = fst tg /\ child_ok c) (snd tg).

(** The pieces of [_dict_to_element]: one appended child, and the body of
    the loop over the entries. *)
Definition put_child (key : string) (element : Element) (item : Value)
  : outcome Element :=
  child <- _dict_to_element item key ;;
  Ok (append element child).

Definition put_entry (element : Element) (kv : string * Value)
  : outcome Element :=
  let (key, value) := kv in
  if String.eqb key "@attributes" then Ok element
  else if String.eqb key "#text" then Ok (set_text element (py_str value))
  else
    match value with
    | VList l => foldM (put_child key) l element
    | _ => put_child key element value
    end.

(** What the induction gives for a child: the round trip, with any tag. *)
Definition comes_back (c : Element) : Prop :=
  forall tag, _dict_to_element (_element_to_dict c) tag = Ok (restored_as tag c).

Definition restored (c : Element) : Element := restored_as (el_tag c) c.

(** An element with nothing in it. *)
Definition leaf (tag : string) : Element := mkElement tag [] None [].

(** What the parser needs of a scalar rendering. *)
Definition token_ok (in_list : bool) (tok : string) (v : Value) : Prop :=
  head_ok tok = true
  /\ last_ok tok = true
  /\ contains nl tok = false
  /\ (in_list = true -> contains ":" tok = false)
  /\ _parse_value tok = Ok v.

(** The lines [serialize] writes: a scalar entry, the head of a nested
    entry, a list item, and all the lines of a value at depth [d]. *)
Definition entry_line (d : nat) (key tok : string) : string :=
  mul "  " d ++ key ++ ": " ++ tok.

Definition head_line (d : nat) (key : string) : string :=
  mul "  " d ++ key ++ ":".

Definition item_line (d : nat) (tok : string) : string :=
  mul "  " d ++ "- " ++ tok.

Fixpoint ser_lines (v : Value) (d : nat) : list string :=
  match v with
  | VMap m =>
      flat_map
        (fun kv : string * Value =>
           if is_container (snd kv)
           then head_line d (fst kv) :: ser_lines (snd kv) (d + 1)
           else [entry_line d (fst kv) (_serialize_value (snd kv))])
        m
  | VList l => map (fun item => item_line d (_serialize_value item)) l
  | _ => []
  end.

Definition entry_ok (kv : string * Value) : bool :=
  key_ok (fst kv)
  && (if is_container (snd kv) then nested_ok (snd kv) else scalar_ok false (snd kv)).

Definition written_as_lines (v : Value) : Prop :=
  forall d, serialize v d = join NL (ser_lines v d) /\ ser_lines v d <> [].

(** What one Map entry appends to [lines] in [serialize], and its lines. *)
Definition entry_strings (d : nat) (kv : string * Value) : list string :=
  let (key, value) := kv in
  if is_container value
  then [mul "  " d ++ key ++ ":"; serialize value (d + 1)]
  else [mul "  " d ++ key ++ ": " ++ _serialize_value value].

Definition entry_lines (d : nat) (kv : string * Value) : list string :=
  if is_container (snd kv)
  then head_line d (fst kv) :: ser_lines (snd kv) (d + 1)
  else [entry_line d (fst kv) (_serialize_value (snd kv))].

(** A line indented by [k] levels, with something to read on it. *)
Definition at_depth (k : nat) (l : string) : Prop :=
  exists body, l = mul "  " k ++ body /\ head_ok body = true /\ last_ok body = true.

(** A line of a value written at depth [d]: at depth [d] or deeper, and
    without a newline. *)
Definition line_ok (d : nat) (l : string) : Prop :=
  contains nl l = false /\ exists k, (d <= k)%nat /\ at_depth k l.

(** The lines of a value: the first is at depth [d], all are at depth [d]
    or deeper. *)
Definition lines_shaped (v : Value) : Prop :=
  forall d,
    Forall (line_ok d) (ser_lines v d)
    /\ exists first rest, ser_lines v d = first :: rest /\ at_depth d first.



(** The same notions for the class of the round trip. *)
Definition entry_reads (kv : string * Value) : bool :=
  key_ok (fst kv)
  && (if is_container (snd kv) then nested_reads (snd kv)
      else scalar_reads false (snd kv)).

Definition reads_as (v : Value) : Prop :=
  forall d fuel,
    (length (ser_lines v d) < fuel)%nat ->
    parse_loop fuel (2 * d) (ser_lines v d) [] [] = Ok (read_as v).

Definition read_entry (kv : string * Value) : string * Value :=
  (fst kv, read_as (snd kv)).

End ProofNotions.

(** ** Notions used by the further properties *)

Section FurtherNotions.
Context {PF : PyFloat}.

(** Every Map of the value, at any depth, has distinct keys. *)
Fixpoint wf_value (v : Value) : bool :=
  match v with
  | VMap m => keys_distinct m && forallb (fun kv => wf_value (snd kv)) m
  | VList l => forallb wf_value l
  | _ => true
  end.

(** A line the loop of [_parse_lines] passes over at scope [indent]: blank,
    a comment, indented deeper than the scope, or at the indent of the scope
    with neither a leading [- ] nor a colon. *)
Definition passed_over (indent : nat) (line : string) : Prop :=
  strip line = "" \/ startswith "#" (strip line) = true
  \/ (indent < indent_of line)%nat
  \/ (indent_of line = indent /\ startswith "- " (strip line) = false
      /\ contains ":" (strip line) = false).

(** The text [_dict_to_element] gives a scalar. *)
Definition scalar_text (v : Value) : string :=
  match v with
  | VNull => ""
  | _ => py_str v
  end.

(** The entry [_element_to_dict] makes for a child that is alone with its
    tag, and the child [_dict_to_element] makes for a scalar entry. *)
Definition child_entry (c : Element) : string * Value :=
  (el_tag c, _element_to_dict c).

Definition scalar_child (kv : string * Value) : Element :=
  mkElement (fst kv) [] (Some (scalar_text (snd kv))) [].

(** A record written the way block YAML writes a list of records: the
    first field on the marker line, the other fields one level deeper. *)
Definition record_lines (r : list (string * Value)) : list string :=
  match r with
  | [] => []
  | (k, v) :: fields =>
      item_line 0 (k ++ ": " ++ _serialize_value v)
      :: map (fun kv => entry_line 1 (fst kv) (_serialize_value (snd kv))) fields
  end.

(** What [parse] keeps of such a record. *)
Definition first_field (r : list (string * Value)) : Value :=
  match r with
  | [] => VNull
  | (k, v) :: _ => VMap [(k, coerce v)]
  end.

Definition record_ok (r : list (string * Value)) : Prop :=
  r <> []
  /\ Forall (fun kv => key_ok (fst kv) = true
                       /\ scalar_ok false (snd kv) = true) r.

(** What a scalar is after [_dict_to_element] and [_element_to_dict]: the
    stripped text of [str] of it, or Null when nothing is left. *)
Definition text_back (v : Value) : Value :=
  match kept_text (Some (scalar_text v)) with
  | Some s => VText s
  | None => VNull
  end.

End FurtherNotions.

(** ** A stronger induction on values: under a key, the items of a list are
    covered too *)

Section DeepInduction.
Context {PF : PyFloat}.

Lemma Value_ind_deep (P : Value -> Prop) :
  P VNull -> (forall b, P (VBool b)) -> (forall z, P (VInt z)) ->
  (forall f, P (VFloat f)) -> (forall s, P (VText s)) ->
  (forall l, Forall P l -> P (VList l)) ->
  (forall m, Forall (fun kv => P (snd kv) /\ Forall P (items_of (snd kv))) m ->
             P (VMap m)) ->
  forall v, P v.
Proof.
  intros HNull HBool HInt HFloat HText HList HMap v.
  enough (H : P v /\ Forall P (items_of v)) by apply H.
  induction v as [|b|z|f|s|l IH|m IH] using Value_ind; simpl; auto.
  split; [apply HList|]; eapply Forall_impl; try exact IH;
    intros a Ha; apply Ha.
Qed.

End DeepInduction.

(** ** Lemmas on the string built-ins *)

Section StringLemmas.

Lemma forallb_str_lstrip :
  forall p s, forallb_str p s = true -> forallb_str p (lstrip s) = true.
Proof.
  induction s as [|c s IH]; simpl; intros H; [reflexivity|].
  apply andb_true_iff in H. destruct H as [Hc Hs].
  destruct (is_space c); [apply IH; exact Hs|].
  simpl. rewrite Hc, Hs. reflexivity.
Qed.

Lemma forallb_str_rstrip :
  forall p s, forallb_str p s = true -> forallb_str p (rstrip s) = true.
Proof.
  induction s as [|c s IH]; simpl; intros H; [reflexivity|].
  apply andb_true_iff in H. destruct H as [Hc Hs].
  specialize (IH Hs).
  destruct (rstrip s) as [|d r].
  - destruct (is_space c); simpl; [reflexivity|]. rewrite Hc. reflexivity.
  - cbn [forallb_str]. rewrite Hc. exact IH.
Qed.

Lemma forallb_str_strip :
  forall p s, forallb_str p s = true -> forallb_str p (strip s) = true.
Proof.
  intros p s H. unfold strip. apply forallb_str_lstrip, forallb_str_rstrip, H.
Qed.

Lemma forallb_str_drop :
  forall p n s, forallb_str p s = true -> forallb_str p (drop n s) = true.
Proof.
  induction n as [|n IH]; intros s H; [exact H|].
  destruct s as [|c s]; [reflexivity|].
  simpl in *. apply andb_true_iff in H. apply IH, H.
Qed.

Lemma forallb_str_split :
  forall p sep s,
    forallb_str p s = true -> Forall (fun x => forallb_str p x = true) (split sep s).
Proof.
  induction s as [|c s IH]; simpl; intros H.
  - constructor; [reflexivity|constructor].
  - apply andb_true_iff in H. destruct H as [Hc Hs]. specialize (IH Hs).
    destruct (Ascii.eqb c sep).
    + constructor; [reflexivity|exact IH].
    + destruct (split sep s) as [|x xs].
      * constructor; [simpl; rewrite Hc; reflexivity|constructor].
      * inversion IH; subst. constructor; [|assumption].
        simpl. rewrite Hc. assumption.
Qed.

Lemma forallb_str_split1 :
  forall p sep s,
    forallb_str p s = true -> Forall (fun x => forallb_str p x = true) (split1 sep s).
Proof.
  induction s as [|c s IH]; simpl; intros H.
  - constructor; [reflexivity|constructor].
  - apply andb_true_iff in H. destruct H as [Hc Hs]. specialize (IH Hs).
    destruct (Ascii.eqb c sep).
    + constructor; [reflexivity|]. constructor; [exact Hs|constructor].
    + destruct (split1 sep s) as [|x xs].
      * constructor; [simpl; rewrite Hc; reflexivity|constructor].
      * inversion IH; subst. constructor; [|assumption].
        simpl. rewrite Hc. assumption.
Qed.

Lemma is_decimal_uint_of_char :
  forall c d, is_decimal c = true -> uint_of_char c (Some d) <> None.
Proof.
  intros c d H.
  destruct c as [[] [] [] [] [] [] [] []]; try discriminate H; simpl; discriminate.
Qed.

Lemma decimal_uint_of_string :
  forall s, forallb_str is_decimal s = true ->
            exists d, NilEmpty.uint_of_string s = Some d.
Proof.
  induction s as [|c s IH]; simpl; intros H.
  - eexists. reflexivity.
  - apply andb_true_iff in H. destruct H as [Hc Hs].
    destruct (IH Hs) as [d Hd]. rewrite Hd.
    pose proof (is_decimal_uint_of_char c d Hc) as Hn.
    destruct (uint_of_char c (Some d)) as [d'|]; [|contradiction].
    exists d'. reflexivity.
Qed.


Lemma append_nil_r : forall s : string, s ++ "" = s.
Proof. induction s as [|c s IH]; simpl; [|rewrite IH]; reflexivity. Qed.

Lemma append_assoc : forall a b c : string, (a ++ b) ++ c = a ++ (b ++ c).
Proof. induction a as [|x a IH]; intros b c; simpl; [|rewrite IH]; reflexivity. Qed.

Lemma length_append :
  forall a b : string, String.length (a ++ b) = (String.length a + String.length b)%nat.
Proof. induction a as [|x a IH]; intros b; simpl; [|rewrite IH]; reflexivity. Qed.

Lemma length_mul_spaces : forall d, String.length (mul "  " d) = (2 * d)%nat.
Proof. induction d as [|d IH]; simpl; [reflexivity|]. rewrite IH. lia. Qed.

Lemma lstrip_mul_spaces : forall d s, lstrip (mul "  " d ++ s) = lstrip s.
Proof. induction d as [|d IH]; intros s; simpl; [reflexivity|]. apply IH. Qed.

Lemma lstrip_head_ok : forall s, head_ok s = true -> lstrip s = s.
Proof.
  intros [|c s] H; simpl in *; [discriminate|].
  apply negb_true_iff in H. rewrite H. reflexivity.
Qed.

Lemma last_ok_nonempty : forall s, last_ok s = true -> s <> "".
Proof. intros [|c s] H; [discriminate H|discriminate]. Qed.

Lemma last_ok_append : forall a b, last_ok b = true -> last_ok (a ++ b) = true.
Proof.
  induction a as [|c a IH]; intros b H; simpl; [exact H|].
  specialize (IH b H).
  destruct (a ++ b) eqn:E; [discriminate IH|exact IH].
Qed.

Lemma rstrip_last_ok : forall s, last_ok s = true -> rstrip s = s.
Proof.
  induction s as [|c s IH]; intros H; [discriminate|].
  destruct s as [|d s].
  - simpl in *. apply negb_true_iff in H. rewrite H. reflexivity.
  - change (last_ok (String c (String d s))) with (last_ok (String d s)) in H.
    specialize (IH H). change (rstrip (String c (String d s)))
      with (match rstrip (String d s) with
            | "" => if is_space c then "" else String c ""
            | r => String c r
            end).
    rewrite IH. reflexivity.
Qed.

Lemma strip_ends_ok :
  forall s, head_ok s = true -> last_ok s = true -> strip s = s.
Proof.
  intros s Hh Hl. unfold strip. rewrite rstrip_last_ok by exact Hl.
  apply lstrip_head_ok, Hh.
Qed.

Lemma strip_indented :
  forall d s, head_ok s = true -> last_ok s = true -> strip (mul "  " d ++ s) = s.
Proof.
  intros d s Hh Hl. unfold strip.
  rewrite rstrip_last_ok by (apply last_ok_append; exact Hl).
  rewrite lstrip_mul_spaces. apply lstrip_head_ok, Hh.
Qed.

Lemma length_lstrip : forall s, (String.length (lstrip s) <= String.length s)%nat.
Proof.
  induction s as [|c s IH]; simpl; [lia|].
  destruct (is_space c); simpl; lia.
Qed.

Lemma length_rstrip : forall s, (String.length (rstrip s) <= String.length s)%nat.
Proof.
  induction s as [|c s IH]; simpl; [lia|].
  destruct (rstrip s); [destruct (is_space c)|]; simpl in *; lia.
Qed.

Lemma lstrip_fixed : forall s, lstrip s = s -> s <> "" -> head_ok s = true.
Proof.
  intros [|c s] H Hne; [contradiction|]. simpl in *.
  destruct (is_space c); [|reflexivity].
  pose proof (length_lstrip s) as Hl. rewrite H in Hl. simpl in Hl. lia.
Qed.

Lemma rstrip_fixed : forall s, rstrip s = s -> s <> "" -> last_ok s = true.
Proof.
  induction s as [|c s IH]; intros H Hne; [contradiction|].
  destruct s as [|d s].
  - simpl in *. destruct (is_space c); [discriminate|reflexivity].
  - change (last_ok (String c (String d s))) with (last_ok (String d s)).
    apply IH; [|discriminate].
    change (rstrip (String c (String d s)))
      with (match rstrip (String d s) with
            | "" => if is_space c then "" else String c ""
            | r => String c r
            end) in H.
    destruct (rstrip (String d s)) as [|x r].
    + destruct (is_space c); discriminate.
    + inversion H. reflexivity.
Qed.

Lemma rstrip_decomp : forall s, exists t, s = rstrip s ++ t.
Proof.
  induction s as [|c s [t IH]]; [exists ""; reflexivity|].
  simpl. destruct (rstrip s) as [|d r].
  - destruct (is_space c).
    + exists (String c s). reflexivity.
    + exists s. reflexivity.
  - exists t. rewrite IH at 1. reflexivity.
Qed.

Lemma strip_fixed :
  forall s, strip s = s -> s <> "" -> head_ok s = true /\ last_ok s = true.
Proof.
  intros s H Hne. unfold strip in H.
  assert (Hr : rstrip s = s).
  { pose proof (length_lstrip (rstrip s)) as H1.
    pose proof (length_rstrip s) as H2. rewrite H in H1.
    destruct (rstrip_decomp s) as [t Ht].
    assert (Hlen : String.length s
                   = (String.length (rstrip s) + String.length t)%nat).
    { rewrite Ht at 1. apply length_append. }
    destruct t as [|x t]; [|simpl in Hlen; lia].
    rewrite append_nil_r in Ht. symmetry. exact Ht. }
  rewrite Hr in H. split.
  - apply lstrip_fixed; assumption.
  - apply rstrip_fixed; assumption.
Qed.

Lemma contains_append :
  forall c a b, contains c (a ++ b) = contains c a || contains c b.
Proof.
  induction a as [|x a IH]; intros b; simpl; [reflexivity|].
  rewrite IH, orb_assoc. reflexivity.
Qed.

Lemma indent_of_indented :
  forall d s, head_ok s = true -> SimpleYAML.indent_of (mul "  " d ++ s) = (2 * d)%nat.
Proof.
  intros d s H. unfold SimpleYAML.indent_of.
  rewrite lstrip_mul_spaces, (lstrip_head_ok s H), length_append, length_mul_spaces.
  lia.
Qed.

Lemma split1_append :
  forall c a b, contains c a = false -> split1 c (a ++ String c b) = [a; b].
Proof.
  induction a as [|x a IH]; intros b H; simpl.
  - rewrite Ascii.eqb_refl. reflexivity.
  - simpl in H. apply orb_false_elim in H. destruct H as [Hx Ha].
    rewrite Hx, (IH b Ha). reflexivity.
Qed.

Lemma split_no_sep : forall c a, contains c a = false -> split c a = [a].
Proof.
  induction a as [|x a IH]; intros H; simpl; [reflexivity|].
  simpl in H. apply orb_false_elim in H. destruct H as [Hx Ha].
  rewrite Hx, (IH Ha). reflexivity.
Qed.

Lemma split_append :
  forall c a b, contains c a = false -> split c (a ++ String c b) = a :: split c b.
Proof.
  induction a as [|x a IH]; intros b H; simpl.
  - rewrite Ascii.eqb_refl. reflexivity.
  - simpl in H. apply orb_false_elim in H. destruct H as [Hx Ha].
    rewrite Hx, (IH b Ha). reflexivity.
Qed.

Lemma join_cons :
  forall sep x y l, join sep (x :: y :: l) = x ++ sep ++ join sep (y :: l).
Proof. reflexivity. Qed.

Lemma split_join :
  forall l,
    l <> [] -> Forall (fun x => contains nl x = false) l ->
    split nl (join NL l) = l.
Proof.
  induction l as [|x l IH]; intros Hne H; [contradiction|].
  inversion H as [|? ? Hx Hl]; subst.
  destruct l as [|y l].
  - simpl. apply split_no_sep, Hx.
  - rewrite join_cons.
    change (x ++ NL ++ join NL (y :: l)) with (x ++ String nl (join NL (y :: l))).
    rewrite split_append by exact Hx. f_equal.
    apply IH; [discriminate|exact Hl].
Qed.

Lemma head_ok_append : forall a b, head_ok a = true -> head_ok (a ++ b) = true.
Proof. intros [|c a] b H; [discriminate|exact H]. Qed.

Lemma head_ok_join :
  forall x l, head_ok x = true -> head_ok (join NL (x :: l)) = true.
Proof.
  intros x [|y l] H; [exact H|].
  rewrite join_cons. apply head_ok_append, H.
Qed.

Lemma last_ok_join :
  forall l, l <> [] -> last_ok (last l "") = true -> last_ok (join NL l) = true.
Proof.
  induction l as [|x l IH]; intros Hne H; [contradiction|].
  destruct l as [|y l]; [exact H|].
  rewrite join_cons, <- append_assoc. apply last_ok_append.
  apply IH; [discriminate|exact H].
Qed.

Lemma prefix_cons :
  forall a p c s, prefix (String a p) (String c s) = Ascii.eqb a c && prefix p s.
Proof.
  intros a p c s. cbn [prefix]. destruct (ascii_dec a c) as [E|E].
  - subst. rewrite Ascii.eqb_refl. reflexivity.
  - apply Ascii.eqb_neq in E. rewrite E. reflexivity.
Qed.

Lemma prefix_nil : forall s, prefix "" s = true.
Proof. intros s. destruct s; reflexivity. Qed.

Lemma prefix_dash_space :
  forall k r, prefix "-" k = false -> prefix "- " (k ++ String ":" r) = false.
Proof.
  intros [|c k] r H; [reflexivity|].
  cbn [String.append]. rewrite prefix_cons in H. rewrite prefix_nil, andb_true_r in H.
  rewrite prefix_cons, H. reflexivity.
Qed.

Lemma prefix_hash :
  forall k r, prefix "#" k = false -> prefix "#" (k ++ String ":" r) = false.
Proof.
  intros [|c k] r H; [reflexivity|].
  cbn [String.append]. rewrite prefix_cons in H. rewrite prefix_nil, andb_true_r in H.
  rewrite prefix_cons, H. reflexivity.
Qed.

Lemma forallb_str_impl :
  forall (p q : ascii -> bool) s,
    (forall c, p c = true -> q c = true) ->
    forallb_str p s = true -> forallb_str q s = true.
Proof.
  intros p q s Hpq. induction s as [|c s IH]; simpl; intros H; [reflexivity|].
  apply andb_true_iff in H. destruct H as [Hc Hs].
  rewrite (Hpq c Hc), (IH Hs). reflexivity.
Qed.

Lemma forallb_str_contains :
  forall p s c, forallb_str p s = true -> p c = false -> contains c s = false.
Proof.
  induction s as [|x s IH]; intros c H Hc; simpl; [reflexivity|].
  simpl in H. apply andb_true_iff in H. destruct H as [Hx Hs].
  rewrite (IH c Hs Hc), orb_false_r.
  destruct (Ascii.eqb x c) eqn:E; [|reflexivity].
  apply Ascii.eqb_eq in E. congruence.
Qed.

Lemma forallb_str_ends :
  forall s, s <> "" -> forallb_str (fun c => negb (is_space c)) s = true ->
            head_ok s = true /\ last_ok s = true.
Proof.
  induction s as [|c s IH]; intros Hne H; [contradiction|].
  simpl in H. apply andb_true_iff in H. destruct H as [Hc Hs].
  split; [exact Hc|].
  destruct s as [|d s]; [exact Hc|].
  apply (IH ltac:(discriminate) Hs).
Qed.

Lemma is_decimal_not_space : forall c, is_decimal c = true -> negb (is_space c) = true.
Proof.
  intros c H. destruct c as [[] [] [] [] [] [] [] []]; try discriminate H; reflexivity.
Qed.

Lemma is_decimal_is_digit : forall c, is_decimal c = true -> is_digit c = true.
Proof. intros c H. unfold is_digit. rewrite H. reflexivity. Qed.

Lemma string_of_uint_decimal :
  forall d, forallb_str is_decimal (NilEmpty.string_of_uint d) = true.
Proof. induction d; simpl; try rewrite IHd; reflexivity. Qed.

Lemma prefix_drop :
  forall p s, prefix p s = true -> p ++ drop (String.length p) s = s.
Proof.
  induction p as [|a p IH]; intros s H; [reflexivity|].
  destruct s as [|c s]; [discriminate|].
  rewrite prefix_cons in H. apply andb_true_iff in H. destruct H as [Hc Hp].
  apply Ascii.eqb_eq in Hc. subst c.
  cbn [String.length drop String.append]. rewrite (IH s Hp). reflexivity.
Qed.

(** [sub.replace(x, x, 1)], as in the list branch of [serialize], changes
    nothing. *)
Lemma replace1_same : forall old s, replace1 old old s = s.
Proof.
  intros old. induction s as [|c s IH].
  - cbn [replace1]. destruct (prefix old "") eqn:E; [|reflexivity].
    apply (prefix_drop old "" E).
  - cbn [replace1]. destruct (prefix old (String c s)) eqn:E.
    + apply (prefix_drop old _ E).
    + rewrite IH. reflexivity.
Qed.

End StringLemmas.

(** * Properties *)

(** ** Bare scalars, the empty record list, and two defects of the parser *)

Section Evaluations.
Context {PF : PyFloat} {Lib : Collaborators}.

(** C9.  Applied to a value that is neither a Map nor a List, [serialize]
    returns [str(data)]: [True]/[False] for a Boolean, [None] for Null, and a
    Text as it is, unquoted even when it has a space or a colon; the block
    scalar rendering [_serialize_value] would be [true]/[false], [null], and
    the Text in double quotes. *)
Theorem serialize_bare_scalar :
  forall (indent : nat) (b : bool) (z : Z) (f : float) (s : string),
    serialize VNull indent = "None"
    /\ serialize (VBool b) indent = (if b then "True" else "False")
    /\ serialize (VInt z) indent = str_of_int z
    /\ serialize (VFloat f) indent = str_of_float f
    /\ serialize (VText s) indent = s
    /\ _serialize_value VNull = "null"
    /\ _serialize_value (VBool b) = (if b then "true" else "false")
    /\ _serialize_value (VText s)
       = (if contains " " s || contains ":" s
          then String dquote (s ++ String dquote "") else s).
Proof.
  intros indent b z f s.
  repeat split; destruct b; reflexivity.
Qed.

(** C10.  [dict_to_csv([])] is the empty string: the writer is never
    created, so no header line is emitted. *)
Theorem dict_to_csv_empty : dict_to_csv (VList []) = Ok "".
Proof. reflexivity. Qed.

(** C2, at the failing input.  The key [a] has nothing after its colon and
    the next line is not deeper: the [else] that stores [None] belongs to
    [if i + 1 < len(lines)], so nothing is stored and [a] is absent from the
    result. *)
Theorem parse_drops_empty_key :
  parse ("a:" ++ NL ++ "b: 1") = Ok (VMap [("b", VInt 1)]).
Proof. vm_compute. reflexivity. Qed.

(** C8, at the failing input.  The token U+00B2 passes [isdigit()] and
    [int()] rejects it, outside the [try]. *)
Theorem _parse_value_superscript :
  _parse_value (String "178"%char "") = Raise ValueError.
Proof. vm_compute. reflexivity. Qed.

End Evaluations.

(** ** The parser always returns, or raises the [ValueError] of [int()] *)

Section ParserTotal.
Context {PF : PyFloat}.

Lemma _parse_value_outcome :
  forall s, returns_or_value_error (_parse_value s).
Proof.
  intros s. unfold _parse_value.
  repeat match goal with
         | |- context [if ?c then _ else _] => destruct c
         | |- context [match ?c with Some _ => _ | None => _ end] => destruct c
         end; exact I.
Qed.

Lemma collect_sub_lines_length :
  forall lines n sub after,
    collect_sub_lines lines n = (sub, after) ->
    (length sub + length after = length lines)%nat.
Proof.
  induction lines as [|l lines IH]; intros n sub after H; simpl in H.
  - inversion H. reflexivity.
  - destruct ((indent_of l <=? n)%nat && negb (String.eqb (strip l) "")).
    + inversion H. reflexivity.
    + destruct (collect_sub_lines lines n) as [s a] eqn:E.
      inversion H; subst. simpl. rewrite <- (IH n s after E). lia.
Qed.

Lemma bind_outcome :
  forall (A B : Type) (m : outcome A) (k : A -> outcome B),
    returns_or_value_error m ->
    (forall a, m = Ok a -> returns_or_value_error (k a)) ->
    returns_or_value_error (bind m k).
Proof.
  intros A B m k Hm Hk. destruct m as [a|e| |]; simpl in *; auto.
Qed.

Lemma parse_loop_outcome :
  forall fuel indent lines result list_items,
    (length lines < fuel)%nat ->
    returns_or_value_error (parse_loop fuel indent lines result list_items).
Proof.
  induction fuel as [|fuel IH]; intros indent lines result list_items Hlen.
  - lia.
  - destruct lines as [|line rest]; [exact I|].
    simpl in Hlen. cbn [parse_loop].
    assert (Hrest : (length rest < fuel)%nat) by lia.
    repeat match goal with
           | |- returns_or_value_error (parse_loop fuel _ rest _ _) =>
               apply IH; exact Hrest
           | |- returns_or_value_error (Ok _) => exact I
           | |- returns_or_value_error (Raise ValueError) => exact I
           | |- returns_or_value_error (bind (_parse_value _) _) =>
               apply bind_outcome; [apply _parse_value_outcome | intros ? _]
           | |- returns_or_value_error (if ?c then _ else _) => destruct c
           | |- returns_or_value_error (match split1 ?c ?s with _ => _ end) =>
               destruct (split1 c s) as [|? [|? [|? ?]]]
           end.
    destruct rest as [|next_line rest'].
    + apply IH. exact Hrest.
    + destruct (indent_of line <? indent_of next_line)%nat.
      * destruct (collect_sub_lines (next_line :: rest') (indent_of line))
          as [sub_lines after] eqn:E.
        apply collect_sub_lines_length in E.
        apply bind_outcome.
        -- apply IH. lia.
        -- intros sub _. apply IH. lia.
      * apply IH. exact Hrest.
Qed.

Lemma parse_outcome : forall text, returns_or_value_error (parse text).
Proof.
  intros text. unfold parse, _parse_lines. apply parse_loop_outcome. lia.
Qed.

End ParserTotal.

(** ** The parser returns a value when no token is refused by [int()] *)

Section ParserReturns.
Context {PF : PyFloat}.

Lemma isdigit_decimal :
  forall s, isdigit s = true -> decimal_digits s = true ->
            forallb_str is_decimal s = true.
Proof.
  intros s Hd Hp.
  assert (H : forallb_str is_digit s = true) by (destruct s; [discriminate|exact Hd]).
  clear Hd. induction s as [|c s IH]; [reflexivity|].
  simpl in *. apply andb_true_iff in H. destruct H as [Hc Hs].
  apply andb_true_iff in Hp. destruct Hp as [Hpc Hps].
  rewrite (IH Hps Hs). unfold plain_digit in Hpc. rewrite Hc in Hpc.
  simpl in Hpc. rewrite Hpc. reflexivity.
Qed.

Lemma _parse_value_returns :
  forall s, decimal_digits s = true -> exists v, _parse_value s = Ok v.
Proof.
  intros s Hs. unfold _parse_value.
  destruct (String.eqb s "" || String.eqb s "null"); [eexists; reflexivity|].
  destruct (String.eqb s "true"); [eexists; reflexivity|].
  destruct (String.eqb s "false"); [eexists; reflexivity|].
  destruct (isdigit s) eqn:Hd.
  - unfold int_of_str.
    destruct (decimal_uint_of_string s (isdigit_decimal s Hd Hs)) as [d E].
    rewrite E. eexists. reflexivity.
  - destruct (float_of_string s); [eexists; reflexivity|].
    match goal with |- context [if ?c then _ else _] => destruct c end;
      eexists; reflexivity.
Qed.

(** On a token whose digit characters are all decimal, [_parse_value]
    follows the precedence of the specification. *)
Lemma _parse_value_precedence :
  forall token,
    decimal_digits token = true ->
    _parse_value token = Ok (scalar_precedence token).
Proof.
  intros token Hd. unfold _parse_value, scalar_precedence, wrapped_in_quotes.
  destruct (String.eqb token "" || String.eqb token "null"); [reflexivity|].
  destruct (String.eqb token "true"); [reflexivity|].
  destruct (String.eqb token "false"); [reflexivity|].
  destruct (isdigit token) eqn:Hdig.
  - unfold int_of_str.
    destruct (decimal_uint_of_string token (isdigit_decimal token Hdig Hd)) as [d E].
    rewrite E. reflexivity.
  - destruct (float_of_string token); [reflexivity|].
    match goal with |- context [if ?c then _ else _] => destruct c end;
      reflexivity.
Qed.






End ParserReturns.

(** ** When [_dict_to_element] returns *)

Section ElementReturns.
Context {PF : PyFloat}.

Lemma dict_get_In :
  forall (d : dict) k v, dict_get d k = Some v -> In (k, v) d.
Proof.
  induction d as [|[k' v'] d IH]; simpl; intros k v H; [discriminate|].
  destruct (String.eqb k' k) eqn:E.
  - apply String.eqb_eq in E. inversion H; subst. left. reflexivity.
  - right. apply IH, H.
Qed.



(** *** What [attrib.update] takes *)










(** *** The element builder *)







End ElementReturns.

Section TotalExamples.
Import Examples.
#[local] Existing Instance no_float_tokens.



End TotalExamples.

(** ** The conversion facade *)

Section FacadeProperties.
Context {PF : PyFloat} {Lib : Collaborators}.

Lemma not_unsupported_lift :
  forall (A : Type) (r : A + string), not_unsupported (lift r).
Proof. intros A [a|d] msg; simpl; discriminate. Qed.

Lemma not_unsupported_bind :
  forall (A B : Type) (m : outcome A) (k : A -> outcome B),
    not_unsupported m -> (forall a, not_unsupported (k a)) ->
    not_unsupported (bind m k).
Proof.
  intros A B m k Hm Hk msg. destruct m as [a|e| |]; simpl.
  - apply Hk.
  - intros H. apply (Hm msg). inversion H. reflexivity.
  - discriminate.
  - discriminate.
Qed.

Lemma not_unsupported_foldM :
  forall (S A : Type) (f : S -> A -> outcome S) (l : list A),
    Forall (fun a => forall s, not_unsupported (f s a)) l ->
    forall s, not_unsupported (foldM f l s).
Proof.
  intros S A f l H. induction H as [|a l Ha _ IH]; intros s; simpl.
  - intros msg. discriminate.
  - apply not_unsupported_bind; [apply Ha | exact IH].
Qed.

Lemma not_unsupported_weaken :
  forall (A : Type) (o : outcome A),
    returns_or_value_error o -> not_unsupported o.
Proof.
  intros A o H msg E. rewrite E in H. exact H.
Qed.

Lemma update_item_not_unsupported :
  forall attrib item, not_unsupported (update_item attrib item).
Proof.
  intros attrib item msg. unfold update_item.
  repeat match goal with
         | |- context [match ?x with _ => _ end] => destruct x
         end; discriminate.
Qed.

Lemma attrib_update_not_unsupported :
  forall attrib other, not_unsupported (attrib_update attrib other).
Proof.
  intros attrib other.
  destruct other as [| | | |s|l|m]; simpl; try (intros msg; discriminate).
  - intros msg. destruct s; discriminate.
  - apply not_unsupported_foldM. apply Forall_forall.
    intros item _ d. apply update_item_not_unsupported.
Qed.

Lemma _dict_to_element_not_unsupported :
  forall data tag, not_unsupported (_dict_to_element data tag).
Proof.
  induction data as [|b|z|f|s|l IH|m IH] using Value_ind_deep; intros tag;
    try (intros msg; simpl; discriminate).
  - simpl. apply not_unsupported_foldM.
    eapply Forall_impl; [|exact IH]. intros item Hitem element. simpl in Hitem.
    apply not_unsupported_bind; [apply Hitem | intros a msg; discriminate].
  - simpl. apply not_unsupported_bind.
    + destruct (dict_get m "@attributes") as [other|].
      * apply not_unsupported_bind; [apply attrib_update_not_unsupported|].
        intros a msg. discriminate.
      * intros msg. discriminate.
    + intros element. apply not_unsupported_foldM.
      eapply Forall_impl; [|exact IH]. intros [key value] [Hv Hitems] el.
      simpl in Hv, Hitems.
      destruct (String.eqb key "@attributes"); [intros msg; discriminate|].
      destruct (String.eqb key "#text"); [intros msg; discriminate|].
      assert (Hone : not_unsupported
                       (child <- _dict_to_element value key ;; Ok (append el child))).
      { apply not_unsupported_bind; [apply Hv | intros a msg; discriminate]. }
      destruct value as [| | | | |l'|]; try exact Hone.
      apply not_unsupported_foldM.
      eapply Forall_impl; [|exact Hitems]. intros item Hitem el'.
      apply not_unsupported_bind; [apply Hitem | intros a msg; discriminate].
Qed.

Lemma parse_input_not_unsupported :
  forall input_format data_str root_name,
    supported input_format = true ->
    not_unsupported (parse_input input_format data_str root_name).
Proof.
  intros i s r Hi. unfold parse_input, supported in *.
  destruct (String.eqb i "json"); [apply not_unsupported_lift|].
  destruct (String.eqb i "csv"); [apply not_unsupported_lift|].
  destruct (String.eqb i "xml").
  - apply not_unsupported_bind.
    + unfold xml_to_dict. apply not_unsupported_bind.
      * apply not_unsupported_lift.
      * intros a msg. discriminate.
    + intros a msg. discriminate.
  - destruct (String.eqb i "yaml"); [|discriminate].
    apply not_unsupported_weaken. apply parse_outcome.
Qed.

Lemma dict_to_csv_not_unsupported :
  forall data, not_unsupported (dict_to_csv data).
Proof.
  intros data msg. unfold dict_to_csv.
  destruct (negb (truthy data)); [discriminate|].
  destruct data as [| | | | |[|[] rows]|]; try discriminate.
  apply not_unsupported_lift.
Qed.

Lemma dict_to_xml_not_unsupported :
  forall data root_name pretty,
    not_unsupported (dict_to_xml data root_name pretty).
Proof.
  intros data root_name pretty. unfold dict_to_xml.
  apply not_unsupported_bind; [apply _dict_to_element_not_unsupported|].
  intros root. apply not_unsupported_bind; [apply not_unsupported_lift|].
  intros xml_str. destruct pretty; [apply not_unsupported_lift|].
  intros msg. discriminate.
Qed.

Lemma render_output_not_unsupported :
  forall output_format root_name data,
    supported output_format = true ->
    not_unsupported (render_output output_format root_name data).
Proof.
  intros o r data Ho. unfold render_output, supported in *.
  destruct (String.eqb o "json"); [intros msg; discriminate|].
  destruct (String.eqb o "csv"); [apply dict_to_csv_not_unsupported|].
  destruct (String.eqb o "xml").
  - destruct data as [| | | | | |[|[k v] [|]]]; apply dict_to_xml_not_unsupported.
  - destruct (String.eqb o "yaml"); [|discriminate].
    intros msg. discriminate.
Qed.

Lemma parse_input_unsupported :
  forall input_format data_str root_name,
    supported input_format = false ->
    parse_input input_format data_str root_name
    = Raise (UnsupportedFormat ("Unsupported input format: " ++ input_format)).
Proof.
  intros i s r Hi. unfold parse_input, supported in *.
  destruct (String.eqb i "json"); [discriminate|].
  destruct (String.eqb i "csv"); [discriminate|].
  destruct (String.eqb i "xml"); [discriminate|].
  destruct (String.eqb i "yaml"); [discriminate|].
  reflexivity.
Qed.

Lemma render_output_unsupported :
  forall output_format root_name data,
    supported output_format = false ->
    render_output output_format root_name data
    = Raise (UnsupportedFormat ("Unsupported output format: " ++ output_format)).
Proof.
  intros o r data Ho. unfold render_output, supported in *.
  destruct (String.eqb o "json"); [discriminate|].
  destruct (String.eqb o "csv"); [discriminate|].
  destruct (String.eqb o "xml"); [discriminate|].
  destruct (String.eqb o "yaml"); [discriminate|].
  reflexivity.
Qed.

(** C7, amended.  [convert] raises the unsupported-format error exactly when
    the source tag is not one of the four, or the source tag is one of the
    four, the source parser returns a value, and the destination tag is not
    one of the four.  When the source text does not parse, the parser's own
    failure is what [convert] raises, whatever the destination tag. *)
Theorem convert_unsupported_iff :
  forall input_format output_format data_str root_name,
    (exists msg,
        convert input_format output_format data_str root_name
        = Raise (UnsupportedFormat msg))
    <->
    (supported input_format = false
     \/ (supported input_format = true
         /\ supported output_format = false
         /\ exists data, parse_input input_format data_str root_name = Ok data)).
Proof.
  intros i o s r. unfold convert. split.
  - intros [msg H].
    destruct (supported i) eqn:Hi; [right|left; reflexivity].
    split; [reflexivity|].
    pose proof (parse_input_not_unsupported i s r Hi) as Hp.
    destruct (parse_input i s r) as [data|e| |] eqn:E; simpl in H;
      try discriminate.
    + destruct (supported o) eqn:Ho.
      * exfalso. exact (render_output_not_unsupported o r data Ho msg H).
      * split; [reflexivity|]. exists data. reflexivity.
    + exfalso. apply (Hp msg). inversion H. reflexivity.
  - intros [Hi|[Hi [Ho [data Hd]]]].
    + rewrite (parse_input_unsupported i s r Hi). simpl. eexists. reflexivity.
    + rewrite Hd. simpl. rewrite (render_output_unsupported o r data Ho).
      eexists. reflexivity.
Qed.

(** C3, amended.  When the source format is [xml], the value handed to the
    destination codec is the tree-mapping codec's output wrapped in a
    single-entry map whose key is the caller's [root_name] (by default
    [root]), whatever the root tag of the parsed document is. *)
Theorem xml_source_wrapped_in_root_name :
  forall data_str root_name root output_format,
    ET_fromstring data_str = inl root ->
    parse_input "xml" data_str root_name
    = Ok (VMap [(root_name, _element_to_dict root)])
    /\ convert "xml" output_format data_str root_name
       = render_output output_format root_name
           (VMap [(root_name, _element_to_dict root)]).
Proof.
  intros s r root o H.
  assert (E : parse_input "xml" s r = Ok (VMap [(r, _element_to_dict root)])).
  { unfold parse_input, xml_to_dict. simpl. rewrite H. reflexivity. }
  split; [exact E|]. unfold convert. rewrite E. reflexivity.
Qed.

(** C4.  With the default root name, converting the document
    [<data><name>Test</name></data>] (read by the element-tree parser as the
    element [data] with one child [name] holding the text [Test]) from xml to
    json returns the JSON rendering of the object with the single top-level
    key [root], whose value is the object mapping [name] to the text [Test]. *)
Theorem convert_xml_json_example :
  ET_fromstring "<data><name>Test</name></data>"
  = inl (mkElement "data" [] None [mkElement "name" [] (Some "Test") []]) ->
  convert "xml" "json" "<data><name>Test</name></data>" default_root_name
  = Ok (json_dumps true (VMap [("root", VMap [("name", VText "Test")])])).
Proof.
  intros H. unfold convert, parse_input, xml_to_dict. simpl. rewrite H.
  reflexivity.
Qed.

End FacadeProperties.

(** *** The facade on the documents of the repository's tests *)

Section FacadeExamples.
Import Examples.
#[local] Existing Instance no_float_tokens.
#[local] Existing Instance table_lib.

(** C7, counterexample.  Source tag [json] (one of the four), destination tag
    [bogus] (not one of the four), malformed source text: [convert] raises
    the JSON decoder's error, not the unsupported-format error. *)
Lemma convert_malformed_source_bad_destination :
  supported "json" = true
  /\ supported "bogus" = false
  /\ convert "json" "bogus" "{invalid}" default_root_name
     = Raise (LibraryError "JSONDecodeError")
  /\ ~ (exists msg,
           convert "json" "bogus" "{invalid}" default_root_name
           = Raise (UnsupportedFormat msg)).
Proof.
  repeat split; try reflexivity.
  intros [msg H]. vm_compute in H. discriminate.
Qed.

(** C3, counterexample.  The document's root tag is [data]; the wrapping key
    is [root]. *)
Lemma xml_wrap_key_is_not_document_tag :
  ET_fromstring doc_data = inl tree_data
  /\ el_tag tree_data = "data"
  /\ parse_input "xml" doc_data default_root_name
     = Ok (VMap [("root", VMap [("name", VText "Test")])])
  /\ parse_input "xml" doc_data default_root_name
     <> Ok (VMap [(el_tag tree_data, _element_to_dict tree_data)]).
Proof.
  repeat split; try reflexivity.
  vm_compute. discriminate.
Qed.

Lemma xml_source_wrapped_in_root_name_witness :
  ET_fromstring doc_data = inl tree_data
  /\ parse_input "xml" doc_data "config"
     = Ok (VMap [("config", VMap [("name", VText "Test")])]).
Proof.
  split; [reflexivity|].
  exact (proj1 (xml_source_wrapped_in_root_name doc_data "config" tree_data
                  "json" eq_refl)).
Defined.

Lemma convert_xml_json_example_witness :
  convert "xml" "json" doc_data default_root_name
  = Ok ("{" ++ NL ++ "  " ++ json_str "root" ++ ": {" ++ NL
        ++ "    " ++ json_str "name" ++ ": " ++ json_str "Test" ++ NL
        ++ "  }" ++ NL ++ "}").
Proof.
  exact (convert_xml_json_example eq_refl).
Defined.

Lemma convert_unsupported_iff_witness :
  exists msg, convert "yml" "json" "a: 1" default_root_name
              = Raise (UnsupportedFormat msg).
Proof.
  apply (proj2 (convert_unsupported_iff "yml" "json" "a: 1" default_root_name)).
  left. reflexivity.
Defined.

End FacadeExamples.

(** ** The tree mapping: folding children into a dict and back *)

Section DictLemmas.
Context {PF : PyFloat}.

Lemma dict_get_notin :
  forall (d : dict) k, ~ In k (map fst d) -> dict_get d k = None.
Proof.
  induction d as [|[k' v'] d IH]; simpl; intros k H; [reflexivity|].
  destruct (String.eqb k' k) eqn:E.
  - apply String.eqb_eq in E. exfalso. apply H. left. exact E.
  - apply IH. intros Hin. apply H. right. exact Hin.
Qed.

Lemma dict_set_notin :
  forall (d : dict) k v, ~ In k (map fst d) -> dict_set d k v = (d ++ [(k, v)])%list.
Proof.
  induction d as [|[k' v'] d IH]; simpl; intros k v H; [reflexivity|].
  destruct (String.eqb k' k) eqn:E.
  - apply String.eqb_eq in E. exfalso. apply H. left. exact E.
  - rewrite IH; [reflexivity|]. intros Hin. apply H. right. exact Hin.
Qed.

Lemma dict_get_last :
  forall (d : dict) k v,
    ~ In k (map fst d) -> dict_get (d ++ [(k, v)])%list k = Some v.
Proof.
  induction d as [|[k' v'] d IH]; simpl; intros k v H.
  - rewrite String.eqb_refl. reflexivity.
  - destruct (String.eqb k' k) eqn:E.
    + apply String.eqb_eq in E. exfalso. apply H. left. exact E.
    + apply IH. intros Hin. apply H. right. exact Hin.
Qed.

Lemma dict_set_last :
  forall (d : dict) k v v',
    ~ In k (map fst d) ->
    dict_set (d ++ [(k, v)])%list k v' = (d ++ [(k, v')])%list.
Proof.
  induction d as [|[k' w] d IH]; simpl; intros k v v' H.
  - rewrite String.eqb_refl. reflexivity.
  - destruct (String.eqb k' k) eqn:E.
    + apply String.eqb_eq in E. exfalso. apply H. left. exact E.
    + rewrite IH; [reflexivity|]. intros Hin. apply H. right. exact Hin.
Qed.

Lemma dict_get_set_other :
  forall (d : dict) k k' v,
    k <> k' -> dict_get (dict_set d k v) k' = dict_get d k'.
Proof.
  induction d as [|[k0 v0] d IH]; simpl; intros k k' v H.
  - destruct (String.eqb k k') eqn:E; [|reflexivity].
    apply String.eqb_eq in E. contradiction.
  - destruct (String.eqb k0 k) eqn:E; simpl.
    + apply String.eqb_eq in E. subst k0.
      destruct (String.eqb k k') eqn:E'; [|reflexivity].
      apply String.eqb_eq in E'. contradiction.
    + destruct (String.eqb k0 k'); [reflexivity|]. apply IH, H.
Qed.

Lemma dict_mem_false_notin :
  forall (d : dict) k, dict_mem k d = false -> ~ In k (map fst d).
Proof.
  unfold dict_mem.
  induction d as [|[k' v'] d IH]; simpl; intros k H; [tauto|].
  destruct (String.eqb k' k) eqn:E; [discriminate|].
  apply String.eqb_neq in E. intros [Hk|Hin]; [contradiction|].
  exact (IH k H Hin).
Qed.

(** Copying a dict with distinct keys into a dict with none of them. *)
Lemma update_distinct :
  forall (m acc : dict),
    keys_distinct m = true ->
    (forall k, In k (map fst m) -> ~ In k (map fst acc)) ->
    fold_left (fun d kv => dict_set d (fst kv) (snd kv)) m acc = (acc ++ m)%list.
Proof.
  induction m as [|[k v] m IH]; simpl; intros acc Hd Hfresh.
  - rewrite app_nil_r. reflexivity.
  - apply andb_true_iff in Hd. destruct Hd as [Hk Hm].
    apply negb_true_iff in Hk. apply dict_mem_false_notin in Hk.
    rewrite dict_set_notin by (apply Hfresh; left; reflexivity).
    rewrite IH; [rewrite <- app_assoc; reflexivity | exact Hm |].
    intros k' Hin. rewrite map_app. simpl. intros Hacc.
    apply in_app_or in Hacc. destruct Hacc as [Hacc|[Hacc|[]]].
    + apply (Hfresh k'); [right; exact Hin | exact Hacc].
    + subst k'. contradiction.
Qed.

Lemma attrib_update_distinct :
  forall attrib : dict,
    keys_distinct attrib = true ->
    attrib_update [] (VMap attrib) = Ok attrib.
Proof.
  intros attrib H. simpl. rewrite update_distinct; [reflexivity | exact H |].
  intros k _ [].
Qed.

End DictLemmas.

Section TreeRoundTrip.
Context {PF : PyFloat}.

(** *** [_element_to_dict], piece by piece *)

Lemma _element_to_dict_unfold :
  forall tag attrib text children,
    _element_to_dict (mkElement tag attrib text children)
    = collapse (fold_left add_child children (base_result attrib text)).
Proof.
  intros tag attrib text children.
  unfold base_result, kept_text. cbn [_element_to_dict].
  destruct attrib as [|kv attrib]; destruct text as [t|];
    try destruct (negb (String.eqb t "") && negb (String.eqb (strip t) ""));
    reflexivity.
Qed.

Lemma base_result_reserved :
  forall attrib text,
    Forall (fun kv => reserved (fst kv) = true) (base_result attrib text).
Proof.
  intros attrib text. unfold base_result.
  apply Forall_app. split.
  - destruct attrib; repeat constructor.
  - destruct (kept_text text); repeat constructor.
Qed.

Lemma reserved_not_in :
  forall (base : dict) t,
    Forall (fun kv => reserved (fst kv) = true) base ->
    reserved t = false -> ~ In t (map fst base).
Proof.
  intros base t Hb Ht Hin. apply in_map_iff in Hin.
  destruct Hin as [kv [E Hin]]. rewrite Forall_forall in Hb.
  specialize (Hb kv Hin). rewrite E in Hb. congruence.
Qed.

(** The value under [#text] is untouched by children with other tags. *)
Lemma fold_children_text :
  forall children result,
    Forall (fun c => reserved (el_tag c) = false) children ->
    dict_get (fold_left add_child children result) "#text"
    = dict_get result "#text".
Proof.
  induction children as [|c children IH]; simpl; intros result H;
    [reflexivity|].
  inversion H as [|? ? Hc Hrest]; subst.
  rewrite IH by exact Hrest.
  assert (Hne : el_tag c <> "#text").
  { intros E. rewrite E in Hc. discriminate. }
  unfold add_child. destruct (dict_get result (el_tag c));
    apply dict_get_set_other; exact Hne.
Qed.

Lemma collapse_not_list :
  forall result,
    (forall v, dict_get result "#text" = Some v -> is_list v = false) ->
    is_list (collapse result) = false.
Proof.
  intros result H. unfold collapse.
  destruct ((length result =? 1)%nat && dict_mem "#text" result).
  - destruct (dict_get result "#text") as [v|]; [apply H|]; reflexivity.
  - destruct result; reflexivity.
Qed.

Lemma _element_to_dict_not_list :
  forall e,
    Forall (fun c => reserved (el_tag c) = false) (el_children e) ->
    is_list (_element_to_dict e) = false.
Proof.
  intros [tag attrib text children] H. simpl in H.
  rewrite _element_to_dict_unfold. apply collapse_not_list.
  intros v. rewrite fold_children_text by exact H.
  unfold base_result.
  destruct attrib; destruct (kept_text text); simpl; intros E;
    inversion E; reflexivity.
Qed.

(** *** Runs of same-tag children *)

Lemma pack_snoc :
  forall ds d,
    ds <> [] -> Forall (fun x => is_list x = false) ds ->
    VList (as_list (pack ds) ++ [d])%list = pack (ds ++ [d])%list.
Proof.
  intros [|x [|y r]] d Hne Hall; [contradiction| |reflexivity].
  inversion Hall; subst. simpl. destruct x; try discriminate; reflexivity.
Qed.

Lemma members_snoc :
  forall G tg, members (G ++ [tg])%list = (members G ++ snd tg)%list.
Proof.
  intros G tg. unfold members. rewrite map_app, concat_app. simpl.
  rewrite app_nil_r. reflexivity.
Qed.

Lemma existsb_eqb_false :
  forall t (seen : list string),
    existsb (String.eqb t) seen = false -> ~ In t seen.
Proof.
  intros t seen H Hin.
  assert (E : existsb (String.eqb t) seen = true).
  { apply existsb_exists. exists t. split; [exact Hin|apply String.eqb_refl]. }
  congruence.
Qed.

Lemma NoDup_snoc :
  forall (A : Type) (l : list A) (x : A),
    NoDup l -> ~ In x l -> NoDup (l ++ [x])%list.
Proof.
  intros A l x Hl Hx. induction Hl as [|y l Hy Hl IH]; simpl.
  - constructor; [tauto|constructor].
  - constructor.
    + intros Hin. apply in_app_or in Hin. destruct Hin as [Hin|[E|[]]].
      * contradiction.
      * subst y. apply Hx. left. reflexivity.
    + apply IH. intros Hin. apply Hx. right. exact Hin.
Qed.

Lemma add_child_extend :
  forall (base : dict) G0 g c,
    ~ In (el_tag c) (map fst (base ++ map group_entry G0)%list) ->
    g <> [] ->
    Forall (fun x => is_list (_element_to_dict x) = false) g ->
    add_child (base ++ map group_entry (G0 ++ [(el_tag c, g)]))%list c
    = (base ++ map group_entry (G0 ++ [(el_tag c, g ++ [c])]))%list.
Proof.
  intros base G0 g c Hnot Hne Hall.
  rewrite !map_app. cbn [map]. unfold group_entry at 2 4. cbn [fst snd].
  rewrite !app_assoc. unfold add_child.
  rewrite dict_get_last by exact Hnot.
  rewrite dict_set_last by exact Hnot.
  rewrite map_app. cbn [map].
  rewrite pack_snoc; [reflexivity| |].
  - intros Habs. apply map_eq_nil in Habs. contradiction.
  - apply Forall_map. exact Hall.
Qed.

Lemma add_child_new :
  forall (base : dict) G c,
    ~ In (el_tag c) (map fst (base ++ map group_entry G)%list) ->
    add_child (base ++ map group_entry G)%list c
    = (base ++ map group_entry (G ++ [(el_tag c, [c])]))%list.
Proof.
  intros base G c Hnot. unfold add_child.
  rewrite dict_get_notin by exact Hnot.
  rewrite dict_set_notin by exact Hnot.
  rewrite map_app, app_assoc. reflexivity.
Qed.

Lemma fold_children_groups :
  forall S base G seen prev,
    Forall (fun kv => reserved (fst kv) = true) base ->
    Forall child_ok S ->
    adjacent_from seen prev (map el_tag S) = true ->
    (forall k, In k (map fst G) <-> In k seen) ->
    match prev with
    | None => G = []
    | Some t => exists G0 g, G = (G0 ++ [(t, g)])%list
    end ->
    NoDup (map fst G) ->
    Forall group_ok G ->
    exists G',
      fold_left add_child S (base ++ map group_entry G)%list
      = (base ++ map group_entry G')%list
      /\ members G' = (members G ++ S)%list
      /\ NoDup (map fst G')
      /\ Forall group_ok G'.
Proof.
  induction S as [|c S IH]; intros base G seen prev Hbase HS Hadj Hseen Hprev Hnd HG.
  - exists G. rewrite app_nil_r. auto.
  - inversion HS as [|? ? Hc HS']; subst. simpl in Hadj.
    apply andb_true_iff in Hadj. destruct Hadj as [Hhead Hadj].
    destruct Hc as [Hres Hnl].
    pose proof (reserved_not_in base (el_tag c) Hbase Hres) as Hnb.
    assert (Hcase :
              (exists G0 g, G = (G0 ++ [(el_tag c, g)])%list)
              \/ ~ In (el_tag c) (map fst G)).
    { destruct prev as [p|].
      - apply orb_true_iff in Hhead. destruct Hhead as [E|E].
        + apply String.eqb_eq in E. subst p. left. exact Hprev.
        + right. apply negb_true_iff in E. apply existsb_eqb_false in E.
          intros Hin. apply E, Hseen, Hin.
      - right. subst G. simpl. tauto. }
    destruct Hcase as [[G0 [g EG]]|Hfresh].
    + (* the child extends the last run *)
      subst G. rewrite map_app in Hnd. simpl in Hnd.
      pose proof (NoDup_remove_2 _ _ _ Hnd) as Hnin. rewrite app_nil_r in Hnin.
      apply Forall_app in HG. destruct HG as [HG0 Hg].
      inversion Hg as [|? ? [Hgne Hgall] _]; subst. simpl in Hgne, Hgall.
      assert (Hnot : ~ In (el_tag c) (map fst (base ++ map group_entry G0)%list)).
      { rewrite map_app, map_map. simpl. intros Hin.
        apply in_app_or in Hin. destruct Hin; contradiction. }
      destruct (IH base (G0 ++ [(el_tag c, g ++ [c])])%list
                  (el_tag c :: seen) (Some (el_tag c))) as [G' [E [Hm [Hnd' HG']]]];
        try assumption.
      * intros k. rewrite map_app. simpl. rewrite <- Hseen, map_app. simpl.
        rewrite !in_app_iff. simpl. tauto.
      * exists G0, (g ++ [c])%list. reflexivity.
      * rewrite map_app. simpl. exact Hnd.
      * apply Forall_app. split; [exact HG0|]. constructor; [|constructor].
        split; simpl.
        -- intros Habs. destruct g; discriminate.
        -- apply Forall_app. split; [exact Hgall|].
           constructor; [|constructor]. split; [reflexivity|]. split; assumption.
      * exists G'. split; [|split; [|split]]; try assumption.
        -- rewrite <- E. simpl. f_equal.
           apply add_child_extend; [exact Hnot | exact Hgne |].
           eapply Forall_impl; [|exact Hgall].
           intros a [_ [_ Ha]]. exact Ha.
        -- rewrite Hm, !members_snoc. simpl. rewrite <- !app_assoc. reflexivity.
    + (* the child opens a new run *)
      assert (Hnot : ~ In (el_tag c) (map fst (base ++ map group_entry G)%list)).
      { rewrite map_app, map_map. simpl. intros Hin.
        apply in_app_or in Hin. destruct Hin; contradiction. }
      destruct (IH base (G ++ [(el_tag c, [c])])%list
                  (el_tag c :: seen) (Some (el_tag c))) as [G' [E [Hm [Hnd' HG']]]];
        try assumption.
      * intros k. rewrite map_app. simpl. rewrite in_app_iff. simpl.
        rewrite Hseen. tauto.
      * exists G, [c]. reflexivity.
      * rewrite map_app. simpl. apply NoDup_snoc; assumption.
      * apply Forall_app. split; [exact HG|]. constructor; [|constructor].
        split; simpl; [discriminate|].
        constructor; [|constructor]. split; [reflexivity|]. split; assumption.
      * exists G'. split; [|split; [|split]]; try assumption.
        -- rewrite <- E. simpl. f_equal. apply add_child_new. exact Hnot.
        -- rewrite Hm, members_snoc. simpl. rewrite <- app_assoc. reflexivity.
Qed.

(** *** [_dict_to_element], piece by piece *)

Lemma _dict_to_element_map :
  forall m tag,
    _dict_to_element (VMap m) tag
    = (element <- match dict_get m "@attributes" with
                  | Some other =>
                      attrib <- attrib_update [] other ;;
                      Ok (set_attrib (mkElement tag [] None []) attrib)
                  | None => Ok (mkElement tag [] None [])
                  end ;;
       foldM put_entry m element).
Proof. reflexivity. Qed.

Lemma bind_ret : forall (A : Type) (m : outcome A), bind m (fun a => Ok a) = m.
Proof. intros A [a|e| |]; reflexivity. Qed.

Lemma foldM_app :
  forall (S A : Type) (f : S -> A -> outcome S) (l1 l2 : list A) (s : S),
    foldM f (l1 ++ l2)%list s = (s' <- foldM f l1 s ;; foldM f l2 s').
Proof.
  intros S A f l1 l2. induction l1 as [|a l1 IH]; intros s; simpl;
    [reflexivity|].
  destruct (f s a) as [s'|e| |]; simpl; [apply IH|reflexivity..].
Qed.

Lemma reserved_false :
  forall key, reserved key = false ->
              String.eqb key "@attributes" = false /\ String.eqb key "#text" = false.
Proof. intros key H. apply orb_false_elim in H. exact H. Qed.

Lemma put_entry_pack :
  forall key ds element,
    reserved key = false -> ds <> [] ->
    Forall (fun d => is_list d = false) ds ->
    put_entry element (key, pack ds) = foldM (put_child key) ds element.
Proof.
  intros key ds element Hres Hne Hall.
  destruct (reserved_false key Hres) as [Ha Ht].
  unfold put_entry. rewrite Ha, Ht.
  destruct ds as [|d [|d' ds]]; [contradiction| |reflexivity].
  inversion Hall; subst. cbn [pack foldM]. rewrite bind_ret.
  destruct d; try discriminate; reflexivity.
Qed.

Lemma fold_left_append :
  forall l tag attrib text children,
    fold_left append l (mkElement tag attrib text children)
    = mkElement tag attrib text (children ++ l)%list.
Proof.
  induction l as [|c l IH]; intros tag attrib text children; simpl.
  - rewrite app_nil_r. reflexivity.
  - rewrite IH, <- app_assoc. reflexivity.
Qed.

Lemma foldM_put_children :
  forall g key element,
    Forall comes_back g ->
    Forall (fun c => el_tag c = key) g ->
    foldM (put_child key) (map _element_to_dict g) element
    = Ok (fold_left append (map restored g) element).
Proof.
  induction g as [|c g IH]; intros key element Hcb Htag; [reflexivity|].
  inversion Hcb; subst. inversion Htag; subst.
  cbn [map foldM fold_left]. unfold put_child at 1.
  rewrite (H1 (el_tag c)). cbn [bind]. apply IH; assumption.
Qed.

Lemma foldM_groups :
  forall G element,
    Forall group_ok G ->
    Forall comes_back (members G) ->
    foldM put_entry (map group_entry G) element
    = Ok (fold_left append (map restored (members G)) element).
Proof.
  induction G as [|[t g] G IH]; intros element HG Hcb; [reflexivity|].
  inversion HG as [|? ? [Hne Hall] HG']; subst. simpl in Hne, Hall.
  unfold members in Hcb. simpl in Hcb. apply Forall_app in Hcb.
  destruct Hcb as [Hg Hrest].
  cbn [map foldM]. unfold group_entry at 1. cbn [fst snd].
  assert (Hres : reserved t = false).
  { destruct g as [|c g]; [contradiction|].
    inversion Hall as [|? ? [Et [Hr _]] _]; subst. exact Hr. }
  rewrite put_entry_pack.
  - rewrite (foldM_put_children g t element Hg).
    + cbn [bind]. rewrite (IH _ HG' Hrest).
      unfold members. simpl. rewrite map_app, fold_left_app. reflexivity.
    + eapply Forall_impl; [|exact Hall]. intros a [Ha _]. exact Ha.
  - exact Hres.
  - intros Habs. apply map_eq_nil in Habs. contradiction.
  - apply Forall_map. eapply Forall_impl; [|exact Hall].
    intros a [_ [_ Ha]]. exact Ha.
Qed.

Lemma group_keys_not_reserved :
  forall G k, Forall group_ok G -> In k (map fst G) -> reserved k = false.
Proof.
  intros G k HG Hin. apply in_map_iff in Hin. destruct Hin as [[t g] [E Hin]].
  simpl in E. subst t. rewrite Forall_forall in HG.
  destruct (HG _ Hin) as [Hne Hall]. simpl in *.
  destruct g as [|c g]; [contradiction|].
  inversion Hall as [|? ? [Et [Hr _]] _]; subst. exact Hr.
Qed.

Lemma dict_get_entries_reserved :
  forall G k,
    Forall group_ok G -> reserved k = true ->
    dict_get (map group_entry G) k = None.
Proof.
  intros G k HG Hk. apply dict_get_notin. rewrite map_map. simpl.
  intros Hin. rewrite (group_keys_not_reserved G k HG Hin) in Hk. discriminate.
Qed.

(** The Map case of the round trip, for the dict that
    [_element_to_dict] builds. *)
Lemma _dict_to_element_result :
  forall attrib text G tag,
    keys_distinct attrib = true ->
    Forall group_ok G ->
    Forall comes_back (members G) ->
    _dict_to_element (VMap (base_result attrib text ++ map group_entry G)%list) tag
    = Ok (mkElement tag attrib (kept_text text) (map restored (members G))).
Proof.
  intros attrib text G tag Hd HG Hcb.
  rewrite _dict_to_element_map.
  pose proof (dict_get_entries_reserved G "@attributes" HG eq_refl) as Hnone.
  pose proof (attrib_update_distinct attrib Hd) as Hupd.
  unfold base_result.
  destruct attrib as [|kv attrib]; destruct (kept_text text) as [s|];
    cbn [List.app dict_get String.eqb Ascii.eqb Bool.eqb];
    try rewrite Hnone; try rewrite Hupd;
    cbn [bind set_attrib foldM put_entry String.eqb Ascii.eqb Bool.eqb
           set_text py_str];
    rewrite (foldM_groups G _ HG Hcb), fold_left_append; reflexivity.
Qed.

Lemma collapse_result :
  forall attrib text G,
    Forall group_ok G ->
    collapse (base_result attrib text ++ map group_entry G)%list
    = match attrib, kept_text text, G with
      | [], None, [] => VNull
      | [], Some s, [] => VText s
      | _, _, _ => VMap (base_result attrib text ++ map group_entry G)%list
      end.
Proof.
  intros attrib text G HG. unfold collapse, base_result.
  destruct attrib as [|kv attrib]; destruct (kept_text text) as [s|];
    destruct G as [|[t g] G]; try reflexivity;
    destruct G as [|tg G]; try reflexivity.
  (* a single child run and nothing else: its key is not [#text] *)
  cbn [List.app map length Nat.eqb andb]. unfold dict_mem, group_entry. cbn [fst snd dict_get].
  assert (Hres : reserved t = false).
  { apply (group_keys_not_reserved [(t, g)] t HG). left. reflexivity. }
  destruct (reserved_false t Hres) as [_ Ht]. rewrite Ht. reflexivity.
Qed.

Lemma foldable_child_ok :
  forall c, reserved (el_tag c) = false -> foldable c = true -> child_ok c.
Proof.
  intros c Hres Hf. split; [exact Hres|].
  apply _element_to_dict_not_list.
  destruct c as [tag attrib text children]. simpl in *.
  apply andb_true_iff in Hf. destruct Hf as [_ Hf].
  rewrite forallb_forall in Hf. apply Forall_forall. intros x Hx.
  specialize (Hf x Hx). apply andb_true_iff in Hf. destruct Hf as [Hf _].
  apply negb_true_iff in Hf. exact Hf.
Qed.

Lemma tree_comes_back :
  forall t, foldable t = true -> comes_back t.
Proof.
  induction t as [tag attrib text children IH] using Element_ind.
  intros Hf g. cbn [foldable] in Hf.
  apply andb_true_iff in Hf. destruct Hf as [Hf Hchildren].
  apply andb_true_iff in Hf. destruct Hf as [Hattrib Hadj].
  assert (Hall : Forall (fun c => child_ok c /\ comes_back c) children).
  { apply Forall_forall. intros c Hc.
    rewrite forallb_forall in Hchildren. specialize (Hchildren c Hc).
    apply andb_true_iff in Hchildren. destruct Hchildren as [Hres Hfc].
    apply negb_true_iff in Hres. rewrite Forall_forall in IH.
    split; [apply foldable_child_ok; assumption | apply IH; assumption]. }
  destruct (fold_children_groups children (base_result attrib text) [] [] None)
    as [G [E [Hm [_ HG]]]].
  - apply base_result_reserved.
  - eapply Forall_impl; [|exact Hall]. intros c [Hc _]. exact Hc.
  - exact Hadj.
  - intros k. simpl. tauto.
  - reflexivity.
  - constructor.
  - constructor.
  - simpl in E, Hm. rewrite app_nil_r in E.
    rewrite _element_to_dict_unfold, E, collapse_result by exact HG.
    assert (Hcb : Forall comes_back (members G)).
    { rewrite Hm. eapply Forall_impl; [|exact Hall]. intros c [_ Hc]. exact Hc. }
    pose proof (_dict_to_element_result attrib text G g Hattrib HG Hcb) as Hmap.
    rewrite Hm in Hmap. cbn [restored_as]. fold restored.
    revert Hmap.
    destruct attrib as [|kv attrib]; destruct (kept_text text) as [s|];
      destruct G as [|tg G]; intros Hmap; try exact Hmap.
    + simpl in Hm. subst children. reflexivity.
    + simpl in Hm. subst children. reflexivity.
    + rewrite Hmap. destruct children as [|c children]; [|reflexivity].
      exfalso. inversion HG as [|? ? [Hne _] _]; subst.
      unfold members in Hm. simpl in Hm.
      destruct (snd tg); [contradiction|discriminate].
Qed.

Lemma skeleton_restored :
  forall t tag, skeleton_of (restored_as tag t) = Sk tag (el_attrib t) (map skeleton_of (el_children t)).
Proof.
  induction t as [tag0 attrib text children IH] using Element_ind.
  intros tag. cbn [restored_as skeleton_of el_attrib el_children].
  f_equal. rewrite map_map. apply map_ext_in. intros c Hc.
  rewrite Forall_forall in IH. rewrite (IH c Hc).
  destruct c; reflexivity.
Qed.

(** C6, amended.  For every tree in which, at every node, same-tag children
    are adjacent, no child is tagged [@attributes] or [#text], and the
    attribute keys are distinct: [_dict_to_element] applied to
    [_element_to_dict t] and a tag returns a tree with that tag at the
    root and, below it, the tags, the attribute maps and the children order
    of [t]; with the root tag of [t] it has the tag structure and the
    attribute maps of [t].  A node without attributes, text or children
    comes back with an empty text, and a text-only node with its stripped
    text. *)
Theorem element_round_trip :
  forall t tag,
    foldable t = true ->
    _dict_to_element (_element_to_dict t) tag = Ok (restored_as tag t)
    /\ skeleton_of (restored_as tag t)
       = Sk tag (el_attrib t) (map skeleton_of (el_children t))
    /\ skeleton_of (restored_as (el_tag t) t) = skeleton_of t.
Proof.
  intros t tag Hf. split; [apply tree_comes_back; exact Hf|].
  split; [apply skeleton_restored|].
  rewrite skeleton_restored. destruct t; reflexivity.
Qed.

End TreeRoundTrip.

Section TreeExamples.
Import Examples.
#[local] Existing Instance no_float_tokens.

(** C6, counterexample.  Children tagged [a], [b], [a]: the two [a] are
    folded into one list under the key [a], and come back before [b]. *)
Lemma element_round_trip_reorders :
  _element_to_dict (mkElement "r" [] None [leaf "a"; leaf "b"; leaf "a"])
  = VMap [("a", VList [VNull; VNull]); ("b", VNull)]
  /\ exists e,
      _dict_to_element
        (_element_to_dict (mkElement "r" [] None [leaf "a"; leaf "b"; leaf "a"]))
        "r" = Ok e
      /\ map el_tag (el_children e) = ["a"; "a"; "b"]
      /\ skeleton_of e
         <> skeleton_of (mkElement "r" [] None [leaf "a"; leaf "b"; leaf "a"]).
Proof.
  split; [reflexivity|].
  eexists. split; [vm_compute; reflexivity|].
  split; [reflexivity|]. simpl. discriminate.
Qed.

Lemma element_round_trip_witness :
  _dict_to_element
    (_element_to_dict
       (mkElement "item" [("id", VText "123")] None
          [mkElement "name" [] (Some "Widget") []; leaf "tag"; leaf "tag"]))
    "item"
  = Ok (mkElement "item" [("id", VText "123")] None
          [mkElement "name" [] (Some "Widget") [];
           mkElement "tag" [] (Some "") []; mkElement "tag" [] (Some "") []]).
Proof.
  exact (proj1 (element_round_trip
                  (mkElement "item" [("id", VText "123")] None
                     [mkElement "name" [] (Some "Widget") []; leaf "tag"; leaf "tag"])
                  "item" eq_refl)).
Defined.

End TreeExamples.

(** ** The block format: what [parse] reads back from [serialize] *)

Section ScalarRoundTrip.
Context {PF : PyFloat}.

Lemma nonneg_to_int :
  forall z, (0 <= z)%Z -> exists d, Z.to_int z = Pos d /\ d <> Nil /\ Z.of_uint d = z.
Proof.
  intros z Hz. pose proof (DecimalZ.of_to z) as Hof.
  destruct z as [|p|p]; [| |lia].
  - exists (D0 Nil). repeat split. discriminate.
  - exists (Pos.to_uint p). simpl in *. repeat split; [|exact Hof].
    apply DecimalPos.Unsigned.to_uint_nonnil.
Qed.

Lemma decimal_token :
  forall tok,
    tok <> "" -> forallb_str is_decimal tok = true ->
    head_ok tok = true /\ last_ok tok = true
    /\ contains nl tok = false /\ contains ":" tok = false
    /\ String.eqb tok "" = false /\ String.eqb tok "null" = false
    /\ String.eqb tok "true" = false /\ String.eqb tok "false" = false
    /\ isdigit tok = true.
Proof.
  intros tok Hne Hd.
  destruct (forallb_str_ends tok Hne
              (forallb_str_impl _ _ tok is_decimal_not_space Hd)) as [Hh Hl].
  assert (Hneq : forall x, forallb_str is_decimal x = false -> String.eqb tok x = false).
  { intros x Hx. apply String.eqb_neq. intros E. subst x. congruence. }
  repeat split; try assumption.
  - apply (forallb_str_contains _ _ _ Hd). reflexivity.
  - apply (forallb_str_contains _ _ _ Hd). reflexivity.
  - apply String.eqb_neq. exact Hne.
  - apply Hneq. reflexivity.
  - apply Hneq. reflexivity.
  - apply Hneq. reflexivity.
  - unfold isdigit. destruct tok; [contradiction|].
    apply (forallb_str_impl _ _ _ is_decimal_is_digit Hd).
Qed.

Lemma int_token :
  forall in_list z, (0 <= z)%Z -> token_ok in_list (str_of_int z) (VInt z).
Proof.
  intros in_list z Hz. destruct (nonneg_to_int z Hz) as [d [Hd [Hnil Hof]]].
  unfold str_of_int. rewrite Hd. cbn [NilEmpty.string_of_int].
  assert (Hne : NilEmpty.string_of_uint d <> "") by (destruct d; [contradiction|discriminate..]).
  destruct (decimal_token _ Hne (string_of_uint_decimal d))
    as [Hh [Hl [Hnl [Hc [E0 [E1 [E2 [E3 Hdig]]]]]]]].
  repeat split; try assumption; [intros _; exact Hc|].
  unfold _parse_value. rewrite E0, E1, E2, E3, Hdig. cbn [orb].
  unfold int_of_str. rewrite NilEmpty.usu, Hof. reflexivity.
Qed.

Lemma drop_last_snoc : forall s c, drop_last (s ++ String c "") = s.
Proof.
  induction s as [|x s IH]; intros c; [reflexivity|].
  cbn [String.append drop_last]. rewrite IH.
  destruct (s ++ String c "") eqn:E; [|reflexivity].
  destruct s; discriminate.
Qed.

Lemma endswith_snoc : forall s c, endswith (String c "") (s ++ String c "") = true.
Proof.
  induction s as [|x s IH]; intros c.
  - cbn. rewrite Ascii.eqb_refl. reflexivity.
  - cbn [String.append endswith]. rewrite IH. apply orb_true_r.
Qed.

Lemma isdigit_contains :
  forall s c, isdigit s = true -> is_digit c = false -> contains c s = false.
Proof.
  intros s c Hs Hc. apply (forallb_str_contains is_digit); [|exact Hc].
  destruct s; [discriminate|exact Hs].
Qed.

Lemma quoted_not_digit :
  forall s, contains " " s || contains ":" s = true -> isdigit s = false.
Proof.
  intros s H. destruct (isdigit s) eqn:E; [|reflexivity].
  rewrite (isdigit_contains s " " E), (isdigit_contains s ":" E) in H
    by reflexivity.
  discriminate.
Qed.

Lemma text_token :
  forall in_list s,
    text_ok in_list s = true ->
    token_ok in_list (_serialize_value (VText s)) (coerce_text s).
Proof.
  intros in_list s H. unfold text_ok in H.
  apply andb_true_iff in H. destruct H as [H Hcase].
  apply andb_true_iff in H. destruct H as [Hnl Hfloat].
  apply negb_true_iff in Hnl. unfold not_float in Hfloat.
  cbn [_serialize_value py_str] in *.
  destruct (contains " " s || contains ":" s) eqn:Hq.
  - (* written in double quotes *)
    assert (Hdig : isdigit s = false) by (apply quoted_not_digit; exact Hq).
    unfold coerce_text. rewrite Hdig.
    change (String dquote (s ++ String dquote ""))
      with (String dquote s ++ String dquote "") in *.
    repeat split.
    + apply last_ok_append. reflexivity.
    + rewrite contains_append. cbn [contains String.append]. rewrite Hnl. reflexivity.
    + intros Hin. subst in_list. cbn [andb] in Hcase.
      apply negb_true_iff in Hcase.
      rewrite contains_append. cbn [contains String.append]. rewrite Hcase. reflexivity.
    + unfold _parse_value.
      destruct (float_of_string (String dquote s ++ String dquote ""));
        [discriminate|].
      unfold startswith. cbn [String.append]. rewrite prefix_cons, prefix_nil.
      change (String dquote (s ++ String dquote ""))
        with (String dquote s ++ String dquote "").
      rewrite endswith_snoc.
      cbn. rewrite drop_last_snoc. reflexivity.
  - (* written as it is *)
    repeat (apply andb_true_iff in Hcase; destruct Hcase as [Hcase ?]).
    repeat match goal with
           | H : negb _ = true |- _ => apply negb_true_iff in H
           end.
    apply orb_false_elim in Hq. destruct Hq as [_ Hcolon].
    assert (Hne : s <> "") by (apply String.eqb_neq; assumption).
    assert (Hstrip : strip s = s) by (apply String.eqb_eq; assumption).
    destruct (strip_fixed s Hstrip Hne) as [Hh Hl].
    repeat split; try assumption; [intros _; exact Hcolon|].
    unfold _parse_value, coerce_text.
    repeat match goal with
           | H : String.eqb s _ = false |- _ => rewrite H
           end.
    cbn [orb].
    destruct (isdigit s) eqn:Hdig.
    + match goal with H : implb _ _ = true |- _ => simpl in H end.
      destruct (decimal_uint_of_string s) as [d Hd]; [assumption|].
      unfold int_of_str. rewrite Hd. reflexivity.
    + destruct (float_of_string s); [discriminate|].
      match goal with H : wrapped_in_quotes s = false |- _ =>
                        unfold wrapped_in_quotes in H; rewrite H end.
      reflexivity.
Qed.

Lemma head_ok_nonempty : forall s, head_ok s = true -> String.eqb s "" = false.
Proof. intros [|c s] H; [discriminate|reflexivity]. Qed.

Lemma negative_int_token :
  forall in_list p f,
    float_of_string (str_of_int (Zneg p)) = Some f ->
    token_ok in_list (str_of_int (Zneg p)) (VFloat f).
Proof.
  intros in_list p f Hf.
  set (t := NilEmpty.string_of_uint (Pos.to_uint p)).
  assert (E : str_of_int (Zneg p) = String "-" t) by reflexivity.
  assert (Hne : t <> "").
  { pose proof (DecimalPos.Unsigned.to_uint_nonnil p) as Hnil. unfold t.
    destruct (Pos.to_uint p); [contradiction|discriminate..]. }
  destruct (decimal_token _ Hne (string_of_uint_decimal (Pos.to_uint p)))
    as [_ [Hl [Hnl [Hc _]]]].
  fold t in Hl, Hnl, Hc. rewrite E in *.
  repeat split.
  - apply (last_ok_append "-" t Hl).
  - cbn [contains]. rewrite Hnl. reflexivity.
  - intros _. cbn [contains]. rewrite Hc. reflexivity.
  - unfold _parse_value.
    cbn [String.eqb Ascii.eqb Bool.eqb orb isdigit forallb_str].
    change (is_digit "-") with false. cbn [andb]. rewrite Hf. reflexivity.
Qed.

Lemma float_token :
  forall in_list f,
    float_ok in_list f = true ->
    token_ok in_list (str_of_float f) (read_as (VFloat f)).
Proof.
  intros in_list f H. unfold float_ok in H. cbv zeta in H.
  repeat (apply andb_true_iff in H; destruct H as [H ?]).
  repeat match goal with
         | H : negb _ = true |- _ => apply negb_true_iff in H
         end.
  unfold not_float in *. cbn [read_as].
  destruct (float_of_string (str_of_float f)) as [f'|] eqn:Ef;
    [|discriminate].
  repeat split; try assumption.
  - intros Hin. subst in_list.
    match goal with
    | H : true && contains ":" _ = false |- _ => exact H
    end.
  - unfold _parse_value.
    rewrite (head_ok_nonempty _ H).
    repeat match goal with
           | H : String.eqb (str_of_float f) _ = false |- _ => rewrite H
           | H : isdigit (str_of_float f) = false |- _ => rewrite H
           end.
    cbn [orb]. rewrite Ef. reflexivity.
Qed.

Lemma scalar_reads_token :
  forall in_list v,
    scalar_reads in_list v = true ->
    token_ok in_list (_serialize_value v) (read_as v).
Proof.
  intros in_list v H. destruct v as [|b|z|f|s|l|m]; try discriminate H.
  - repeat split; try reflexivity.
  - destruct b; repeat split; reflexivity.
  - cbn [scalar_reads] in H. cbn [read_as].
    change (_serialize_value (VInt z)) with (str_of_int z).
    destruct (0 <=? z)%Z eqn:E.
    + apply int_token. apply Z.leb_le, E.
    + cbn [orb] in H. apply negb_true_iff in H. unfold not_float in H.
      destruct z as [|p|p]; try discriminate E.
      destruct (float_of_string (str_of_int (Zneg p))) as [f|] eqn:Ef;
        [|discriminate H].
      apply negative_int_token, Ef.
  - apply float_token, H.
  - apply text_token, H.
Qed.

Lemma scalar_ok_reads :
  forall in_list v,
    scalar_ok in_list v = true ->
    scalar_reads in_list v = true /\ read_as v = coerce v.
Proof.
  intros in_list v H. destruct v as [|b|z|f|s|l|m]; try discriminate H;
    try (split; [exact H|reflexivity]).
  cbn [scalar_ok] in H. cbn [scalar_reads read_as coerce]. rewrite H.
  split; reflexivity.
Qed.

Lemma scalar_token :
  forall in_list v,
    scalar_ok in_list v = true ->
    token_ok in_list (_serialize_value v) (coerce v).
Proof.
  intros in_list v H. destruct (scalar_ok_reads in_list v H) as [Hr E].
  rewrite <- E. apply scalar_reads_token, Hr.
Qed.

End ScalarRoundTrip.

Section BlockLines.
Context {PF : PyFloat}.

(** *** The lines [serialize] writes *)

Lemma join_app :
  forall a b, a <> [] -> b <> [] -> join NL (a ++ b) = join NL a ++ NL ++ join NL b.
Proof.
  induction a as [|x a IH]; intros b Ha Hb; [contradiction|].
  destruct a as [|y a].
  - destruct b as [|z b]; [contradiction|]. reflexivity.
  - change ((x :: y :: a) ++ b)%list with (x :: y :: (a ++ b))%list.
    rewrite !join_cons.
    change (y :: (a ++ b))%list with ((y :: a) ++ b)%list.
    rewrite IH by (assumption || discriminate).
    rewrite !append_assoc. reflexivity.
Qed.

Lemma reads_not_container :
  forall in_list v, scalar_reads in_list v = true -> is_container v = false.
Proof. intros in_list [] H; try reflexivity; discriminate. Qed.

Lemma serialize_list_lines :
  forall l d,
    forallb (scalar_reads true) l = true ->
    serialize (VList l) d = join NL (ser_lines (VList l) d).
Proof.
  intros l d H. cbn [serialize ser_lines]. f_equal.
  induction l as [|x l IH]; [reflexivity|].
  simpl in H. apply andb_true_iff in H. destruct H as [Hx Hl].
  cbn [flat_map map]. rewrite (reads_not_container true x Hx), (IH Hl).
  reflexivity.
Qed.

Lemma entry_strings_nonempty :
  forall d m, m <> [] -> flat_map (entry_strings d) m <> [].
Proof.
  intros d [|[k v] m] H; [contradiction|].
  cbn [flat_map entry_strings]. destruct (is_container v); discriminate.
Qed.

Lemma entry_lines_nonempty :
  forall d m, m <> [] -> flat_map (entry_lines d) m <> [].
Proof.
  intros d [|[k v] m] H; [contradiction|].
  cbn [flat_map]. unfold entry_lines at 1. cbn [fst snd].
  destruct (is_container v); discriminate.
Qed.

Lemma join_app_or_nil :
  forall a b b',
    a <> [] -> (b = [] <-> b' = []) -> join NL b = join NL b' ->
    join NL (a ++ b) = join NL (a ++ b').
Proof.
  intros a b b' Ha Hiff E.
  destruct b as [|x b].
  - rewrite (proj1 Hiff eq_refl). reflexivity.
  - assert (Hb' : b' <> []).
    { intros Hb'. apply Hiff in Hb'. discriminate. }
    rewrite !join_app by (assumption || discriminate). rewrite E. reflexivity.
Qed.

Lemma serialize_entries_lines :
  forall m d,
    Forall (fun kv => nested_reads (snd kv) = true -> written_as_lines (snd kv)) m ->
    forallb entry_reads m = true ->
    join NL (flat_map (entry_strings d) m) = join NL (flat_map (entry_lines d) m).
Proof.
  induction m as [|[key value] m IH]; intros d HIH Hok; [reflexivity|].
  inversion HIH as [|? ? Hv HIH']; subst. simpl in Hv.
  simpl in Hok. apply andb_true_iff in Hok. destruct Hok as [Hkv Hm].
  unfold entry_reads in Hkv. simpl in Hkv.
  apply andb_true_iff in Hkv. destruct Hkv as [_ Hvalue].
  specialize (IH d HIH' Hm).
  assert (Hiff : flat_map (entry_strings d) m = [] <-> flat_map (entry_lines d) m = []).
  { destruct m as [|kv m]; [tauto|]. split; intros E; exfalso.
    - exact (entry_strings_nonempty d (kv :: m) ltac:(discriminate) E).
    - exact (entry_lines_nonempty d (kv :: m) ltac:(discriminate) E). }
  cbn [flat_map]. unfold entry_strings at 1, entry_lines at 1. cbn [fst snd].
  destruct (is_container value) eqn:Hc.
  - destruct (Hv Hvalue (d + 1)) as [Es Hsub]. rewrite Es. unfold head_line.
    set (h := mul "  " d ++ key ++ ":").
    set (sub := ser_lines value (d + 1)) in *.
    set (X := flat_map (entry_strings d) m) in *.
    transitivity (join NL ((h :: sub) ++ X)%list).
    + change ([h; join NL sub] ++ X)%list with ([h] ++ ([join NL sub] ++ X))%list.
      change ((h :: sub) ++ X)%list with ([h] ++ (sub ++ X))%list.
      apply join_app_or_nil; [discriminate| |].
      * split; intros E; [discriminate|].
        apply app_eq_nil in E. destruct E. contradiction.
      * destruct X as [|x xs].
        -- rewrite !app_nil_r. reflexivity.
        -- rewrite (join_app [_] (x :: xs)) by discriminate.
           rewrite (join_app sub (x :: xs)) by (assumption || discriminate).
           reflexivity.
    + apply join_app_or_nil; [discriminate|exact Hiff|exact IH].
  - unfold entry_line.
    apply join_app_or_nil; [discriminate|exact Hiff|exact IH].
Qed.

Lemma nested_reads_map :
  forall m, nested_reads (VMap m) = true ->
            m <> [] /\ keys_distinct m = true /\ forallb entry_reads m = true.
Proof.
  intros m H. cbn [nested_reads] in H.
  apply andb_true_iff in H. destruct H as [H Hall].
  apply andb_true_iff in H. destruct H as [Hne Hd].
  split; [destruct m; [discriminate|discriminate]|]. split; assumption.
Qed.

Lemma nested_reads_list :
  forall l, nested_reads (VList l) = true ->
            l <> [] /\ forallb (scalar_reads true) l = true.
Proof.
  intros l H. cbn [nested_reads] in H.
  apply andb_true_iff in H. destruct H as [Hne Hall].
  split; [destruct l; [discriminate|discriminate]|assumption].
Qed.

Lemma reads_written_as_lines :
  forall v, nested_reads v = true -> written_as_lines v.
Proof.
  induction v as [|b|z|f|s|l IH|m IH] using Value_ind; intros H;
    try discriminate H.
  - destruct (nested_reads_list l H) as [Hne Hall]. intros d.
    split; [apply serialize_list_lines, Hall|].
    cbn [ser_lines]. destruct l; [contradiction|discriminate].
  - destruct (nested_reads_map m H) as [Hne [_ Hall]]. intros d.
    split; [|apply (entry_lines_nonempty d m Hne)].
    exact (serialize_entries_lines m d IH Hall).
Qed.

End BlockLines.

Section BlockParse.
Context {PF : PyFloat}.

(** *** One line at a time *)

Lemma key_ok_facts :
  forall k, key_ok k = true ->
            contains ":" k = false /\ prefix "-" k = false /\ prefix "#" k = false
            /\ contains nl k = false /\ strip k = k.
Proof.
  intros k H. unfold key_ok, startswith in H.
  repeat (apply andb_true_iff in H; destruct H as [H ?]).
  repeat match goal with
         | H : negb _ = true |- _ => apply negb_true_iff in H
         end.
  repeat split; try assumption. apply String.eqb_eq. assumption.
Qed.

Lemma key_body_head :
  forall k r, strip k = k -> head_ok (k ++ String ":" r) = true.
Proof.
  intros k r H. destruct k as [|c k]; [reflexivity|].
  apply head_ok_append. apply (strip_fixed _ H). discriminate.
Qed.

Lemma strip_space_token :
  forall tok, head_ok tok = true -> last_ok tok = true -> strip (String " " tok) = tok.
Proof.
  intros tok Hh Hl. unfold strip.
  rewrite rstrip_last_ok by (apply (last_ok_append " " tok Hl)).
  cbn. apply lstrip_head_ok, Hh.
Qed.

Lemma parse_item_line :
  forall fuel d tok v rest result items,
    token_ok true tok v ->
    parse_loop (S fuel) (2 * d) (item_line d tok :: rest) result items
    = parse_loop fuel (2 * d) rest result (items ++ [v])%list.
Proof.
  intros fuel d tok v rest result items [Hh [Hl [Hnl [Hc Hp]]]].
  assert (Hbh : head_ok ("- " ++ tok) = true) by reflexivity.
  assert (Hbl : last_ok ("- " ++ tok) = true) by (apply last_ok_append, Hl).
  cbn [parse_loop]. unfold item_line.
  rewrite (strip_indented d _ Hbh Hbl), (indent_of_indented d _ Hbh).
  rewrite Nat.ltb_irrefl.
  cbn [String.append String.eqb orb]. unfold startswith.
  repeat (rewrite prefix_cons; cbn [Ascii.eqb Bool.eqb andb]).
  rewrite prefix_nil. cbn [drop].
  rewrite (strip_ends_ok tok Hh Hl), (Hc eq_refl), Hp.
  reflexivity.
Qed.

Lemma parse_entry_line :
  forall fuel d key tok v rest result items,
    key_ok key = true ->
    token_ok false tok v ->
    parse_loop (S fuel) (2 * d) (entry_line d key tok :: rest) result items
    = parse_loop fuel (2 * d) rest (dict_set result key v) items.
Proof.
  intros fuel d key tok v rest result items Hk [Hh [Hl [Hnl [_ Hp]]]].
  destruct (key_ok_facts key Hk) as [Hcolon [Hdash [Hhash [_ Hstrip]]]].
  assert (Hbh : head_ok (key ++ ": " ++ tok) = true) by (apply key_body_head, Hstrip).
  assert (Hbl : last_ok (key ++ ": " ++ tok) = true).
  { apply last_ok_append. apply (last_ok_append ": " tok Hl). }
  cbn [parse_loop]. unfold entry_line.
  rewrite (strip_indented d _ Hbh Hbl), (indent_of_indented d _ Hbh).
  rewrite Nat.ltb_irrefl, (head_ok_nonempty _ Hbh).
  unfold startswith. cbn [String.append].
  rewrite (prefix_hash key _ Hhash), (prefix_dash_space key _ Hdash).
  rewrite contains_append, Hcolon. cbn [contains Ascii.eqb Bool.eqb orb].
  rewrite (split1_append ":" key _ Hcolon), Hstrip.
  rewrite (strip_space_token tok Hh Hl), (head_ok_nonempty tok Hh), Hp.
  reflexivity.
Qed.

Lemma collect_sub_lines_split :
  forall sub others n,
    Forall (fun l => (n < indent_of l)%nat) sub ->
    match others with
    | [] => True
    | o :: _ => (indent_of o <= n)%nat /\ strip o <> ""
    end ->
    collect_sub_lines (sub ++ others) n = (sub, others).
Proof.
  induction sub as [|l sub IH]; intros others n Hsub Hothers.
  - destruct others as [|o others]; [reflexivity|].
    destruct Hothers as [Hi Hs]. cbn [List.app collect_sub_lines].
    apply Nat.leb_le in Hi. apply String.eqb_neq in Hs.
    rewrite Hi, Hs. reflexivity.
  - inversion Hsub as [|? ? Hl Hsub']; subst.
    cbn [List.app collect_sub_lines].
    apply Nat.leb_gt in Hl. rewrite Hl. cbn [andb].
    rewrite (IH others n Hsub' Hothers). reflexivity.
Qed.

Lemma parse_head_line :
  forall fuel d key next sub others result items,
    key_ok key = true ->
    indent_of next = (2 * (d + 1))%nat ->
    Forall (fun l => (2 * d < indent_of l)%nat) (next :: sub) ->
    match others with
    | [] => True
    | o :: _ => (indent_of o <= 2 * d)%nat /\ strip o <> ""
    end ->
    parse_loop (S fuel) (2 * d) (head_line d key :: (next :: sub) ++ others)
      result items
    = (v <- parse_loop fuel (2 * (d + 1)) (next :: sub) [] [] ;;
       parse_loop fuel (2 * d) others (dict_set result key v) items).
Proof.
  intros fuel d key next sub others result items Hk Hnext Hsub Hothers.
  destruct (key_ok_facts key Hk) as [Hcolon [Hdash [Hhash [_ Hstrip]]]].
  assert (Hbh : head_ok (key ++ ":") = true) by (apply key_body_head, Hstrip).
  assert (Hbl : last_ok (key ++ ":") = true) by (apply last_ok_append; reflexivity).
  cbn [parse_loop]. unfold head_line.
  rewrite (strip_indented d _ Hbh Hbl), (indent_of_indented d _ Hbh).
  rewrite Nat.ltb_irrefl, (head_ok_nonempty _ Hbh).
  unfold startswith.
  rewrite (prefix_hash key _ Hhash), (prefix_dash_space key _ Hdash).
  rewrite contains_append, Hcolon. cbn [contains Ascii.eqb Bool.eqb orb].
  rewrite (split1_append ":" key _ Hcolon), Hstrip.
  change (strip "") with "". cbn [String.eqb negb].
  change ((next :: sub) ++ others)%list with (next :: (sub ++ others))%list.
  cbv iota. rewrite Hnext.
  assert (Hlt : (2 * d <? 2 * (d + 1))%nat = true) by (apply Nat.ltb_lt; lia).
  rewrite Hlt.
  change (next :: (sub ++ others))%list with ((next :: sub) ++ others)%list.
  rewrite (collect_sub_lines_split (next :: sub) others (2 * d) Hsub Hothers).
  reflexivity.
Qed.

(** A key line with nothing after the colon, in general: with no next line
    the key is bound to Null; with a deeper next line, to the parse of the
    deeper lines; with a next line that is not deeper, the loop goes on with
    [result] unchanged, and the key is not bound. *)
Lemma parse_bare_key_line :
  forall fuel d key rest result items,
    key_ok key = true ->
    parse_loop (S fuel) (2 * d) (head_line d key :: rest) result items
    = match rest with
      | [] => parse_loop fuel (2 * d) rest (dict_set result key VNull) items
      | next_line :: _ =>
          if (2 * d <? indent_of next_line)%nat then
            let (sub_lines, after) := collect_sub_lines rest (2 * d) in
            sub <- parse_loop fuel (indent_of next_line) sub_lines [] [] ;;
            parse_loop fuel (2 * d) after (dict_set result key sub) items
          else parse_loop fuel (2 * d) rest result items
      end.
Proof.
  intros fuel d key rest result items Hk.
  destruct (key_ok_facts key Hk) as [Hcolon [Hdash [Hhash [_ Hstrip]]]].
  assert (Hbh : head_ok (key ++ ":") = true) by (apply key_body_head, Hstrip).
  assert (Hbl : last_ok (key ++ ":") = true) by (apply last_ok_append; reflexivity).
  cbn [parse_loop]. unfold head_line.
  rewrite (strip_indented d _ Hbh Hbl), (indent_of_indented d _ Hbh).
  rewrite Nat.ltb_irrefl, (head_ok_nonempty _ Hbh).
  unfold startswith.
  rewrite (prefix_hash key _ Hhash), (prefix_dash_space key _ Hdash).
  rewrite contains_append, Hcolon. cbn [contains Ascii.eqb Bool.eqb orb].
  rewrite (split1_append ":" key _ Hcolon), Hstrip.
  reflexivity.
Qed.

(** *** The shape of the lines *)

Lemma at_depth_indent : forall k l, at_depth k l -> indent_of l = (2 * k)%nat.
Proof. intros k l [body [E [Hh _]]]. subst l. apply indent_of_indented, Hh. Qed.

Lemma at_depth_strip : forall k l, at_depth k l -> strip l <> "".
Proof.
  intros k l [body [E [Hh Hl]]]. subst l. rewrite (strip_indented k body Hh Hl).
  destruct body; discriminate.
Qed.

Lemma at_depth_last : forall k l, at_depth k l -> last_ok l = true.
Proof. intros k l [body [E [_ Hl]]]. subst l. apply last_ok_append, Hl. Qed.

Lemma at_depth_first_char :
  forall l, at_depth 0 l -> head_ok l = true.
Proof. intros l [body [E [Hh _]]]. subst l. exact Hh. Qed.

Lemma contains_mul_spaces :
  forall c d, c <> " "%char -> contains c (mul "  " d) = false.
Proof.
  intros c d Hc. induction d as [|d IH]; [reflexivity|].
  cbn [mul String.append contains]. rewrite IH.
  assert (E : Ascii.eqb " " c = false).
  { apply Ascii.eqb_neq. intros E. apply Hc. symmetry. exact E. }
  rewrite E. reflexivity.
Qed.

Lemma nl_mul_spaces : forall d, contains nl (mul "  " d) = false.
Proof. intros d. apply contains_mul_spaces. discriminate. Qed.

Lemma entry_line_ok :
  forall d key tok v,
    key_ok key = true -> token_ok false tok v ->
    at_depth d (entry_line d key tok) /\ contains nl (entry_line d key tok) = false.
Proof.
  intros d key tok v Hk [Hh [Hl [Hnl _]]].
  destruct (key_ok_facts key Hk) as [_ [_ [_ [Hknl Hstrip]]]].
  split.
  - exists (key ++ ": " ++ tok). split; [reflexivity|]. split.
    + apply key_body_head, Hstrip.
    + apply last_ok_append. apply (last_ok_append ": " tok Hl).
  - unfold entry_line. rewrite !contains_append, nl_mul_spaces, Hknl, Hnl.
    reflexivity.
Qed.

Lemma head_line_ok :
  forall d key,
    key_ok key = true ->
    at_depth d (head_line d key) /\ contains nl (head_line d key) = false.
Proof.
  intros d key Hk.
  destruct (key_ok_facts key Hk) as [_ [_ [_ [Hknl Hstrip]]]].
  split.
  - exists (key ++ ":"). split; [reflexivity|]. split.
    + apply key_body_head, Hstrip.
    + apply last_ok_append. reflexivity.
  - unfold head_line. rewrite !contains_append, nl_mul_spaces, Hknl.
    reflexivity.
Qed.

Lemma item_line_ok :
  forall d tok v,
    token_ok true tok v ->
    at_depth d (item_line d tok) /\ contains nl (item_line d tok) = false.
Proof.
  intros d tok v [Hh [Hl [Hnl _]]]. split.
  - exists ("- " ++ tok). split; [reflexivity|]. split; [reflexivity|].
    apply last_ok_append, Hl.
  - unfold item_line. rewrite !contains_append, nl_mul_spaces, Hnl.
    reflexivity.
Qed.

Lemma line_ok_deeper :
  forall d l, line_ok (d + 1) l -> line_ok d l.
Proof.
  intros d l [Hnl [k [Hk Hat]]]. split; [exact Hnl|].
  exists k. split; [lia|exact Hat].
Qed.

Lemma reads_lines_shaped :
  forall v, nested_reads v = true -> lines_shaped v.
Proof.
  induction v as [|b|z|f|s|l IH|m IH] using Value_ind; intros H;
    try discriminate H.
  - destruct (nested_reads_list l H) as [Hne Hall]. intros d. cbn [ser_lines].
    assert (Hlines : Forall (fun item =>
                               at_depth d (item_line d (_serialize_value item))
                               /\ contains nl (item_line d (_serialize_value item)) = false) l).
    { apply Forall_forall. intros item Hin. rewrite forallb_forall in Hall.
      apply (item_line_ok d _ (read_as item)), scalar_reads_token, Hall, Hin. }
    split.
    + apply Forall_map. eapply Forall_impl; [|exact Hlines].
      intros item [Hat Hnl]. split; [exact Hnl|]. exists d. split; [lia|exact Hat].
    + destruct l as [|x l]; [contradiction|].
      inversion Hlines as [|? ? [Hat _] _]; subst.
      eexists. eexists. split; [reflexivity|exact Hat].
  - destruct (nested_reads_map m H) as [Hne [_ Hall]]. intros d.
    change (ser_lines (VMap m) d) with (flat_map (entry_lines d) m).
    assert (Hentries :
              Forall (fun kv =>
                        Forall (line_ok d) (entry_lines d kv)
                        /\ exists first rest,
                            entry_lines d kv = first :: rest /\ at_depth d first) m).
    { apply Forall_forall. intros [key value] Hin.
      rewrite forallb_forall in Hall. specialize (Hall _ Hin).
      unfold entry_reads in Hall. cbn [fst snd] in Hall.
      apply andb_true_iff in Hall. destruct Hall as [Hk Hv].
      rewrite Forall_forall in IH. specialize (IH _ Hin). cbn [snd] in IH.
      unfold entry_lines. cbn [fst snd].
      destruct (is_container value).
      - destruct (head_line_ok d key Hk) as [Hat Hnl].
        destruct (IH Hv (d + 1)) as [Hsub _]. split.
        + constructor.
          * split; [exact Hnl|]. exists d. split; [lia|exact Hat].
          * eapply Forall_impl; [|exact Hsub]. intros l. apply line_ok_deeper.
        + eexists. eexists. split; [reflexivity|exact Hat].
      - destruct (entry_line_ok d key _ _ Hk (scalar_reads_token false value Hv))
          as [Hat Hnl]. split.
        + constructor; [|constructor].
          split; [exact Hnl|]. exists d. split; [lia|exact Hat].
        + eexists. eexists. split; [reflexivity|exact Hat]. }
    split.
    + apply Forall_flat_map. eapply Forall_impl; [|exact Hentries].
      intros kv [Hl _]. exact Hl.
    + destruct m as [|kv m]; [contradiction|].
      inversion Hentries as [|? ? [_ [first [rest [E Hat]]]] _]; subst.
      cbn [flat_map]. rewrite E. eexists. eexists.
      split; [reflexivity|exact Hat].
Qed.

(** *** The parser on the lines of a value *)

Lemma parse_items :
  forall l d fuel acc,
    forallb (scalar_reads true) l = true ->
    (length l < fuel)%nat ->
    parse_loop fuel (2 * d)
      (map (fun item => item_line d (_serialize_value item)) l) [] acc
    = Ok (finish [] (acc ++ map read_as l)%list).
Proof.
  induction l as [|x l IH]; intros d fuel acc Hall Hfuel;
    (destruct fuel as [|fuel]; [simpl in Hfuel; lia|]).
  - cbn. rewrite app_nil_r. reflexivity.
  - simpl in Hall. apply andb_true_iff in Hall. destruct Hall as [Hx Hl].
    cbn [map]. rewrite (parse_item_line fuel d _ (read_as x));
      [|apply scalar_reads_token, Hx].
    rewrite IH; [|exact Hl|simpl in Hfuel; lia].
    rewrite <- app_assoc. reflexivity.
Qed.

Lemma entries_first_line :
  forall m d,
    forallb entry_reads m = true ->
    match flat_map (entry_lines d) m with
    | [] => True
    | o :: _ => (indent_of o <= 2 * d)%nat /\ strip o <> ""
    end.
Proof.
  intros [|[key value] m] d Hall; [exact I|].
  simpl in Hall. apply andb_true_iff in Hall. destruct Hall as [Hkv _].
  unfold entry_reads in Hkv. cbn [fst snd] in Hkv.
  apply andb_true_iff in Hkv. destruct Hkv as [Hk Hv].
  cbn [flat_map]. unfold entry_lines at 1. cbn [fst snd].
  destruct (is_container value); cbn [List.app].
  - destruct (head_line_ok d key Hk) as [Hat _].
    rewrite (at_depth_indent _ _ Hat). split; [lia|].
    apply (at_depth_strip _ _ Hat).
  - destruct (entry_line_ok d key _ _ Hk (scalar_reads_token false value Hv)) as [Hat _].
    rewrite (at_depth_indent _ _ Hat). split; [lia|].
    apply (at_depth_strip _ _ Hat).
Qed.

Lemma parse_entries :
  forall m d,
    Forall (fun kv => nested_reads (snd kv) = true ->
                      lines_shaped (snd kv) /\ reads_as (snd kv)) m ->
    forallb entry_reads m = true ->
    forall fuel result,
      (length (flat_map (entry_lines d) m) < fuel)%nat ->
      parse_loop fuel (2 * d) (flat_map (entry_lines d) m) result []
      = Ok (VMap (fold_left (fun r kv => dict_set r (fst kv) (snd kv))
                    (map read_entry m) result)).
Proof.
  induction m as [|[key value] m IH]; intros d HIH Hall fuel result Hfuel;
    (destruct fuel as [|fuel]; [simpl in Hfuel; lia|]); [reflexivity|].
  inversion HIH as [|? ? Hv HIH']; subst. cbn [snd] in Hv.
  pose proof (entries_first_line m d) as Hothers.
  simpl in Hall. apply andb_true_iff in Hall. destruct Hall as [Hkv Hm].
  specialize (Hothers Hm).
  unfold entry_reads in Hkv. cbn [fst snd] in Hkv.
  apply andb_true_iff in Hkv. destruct Hkv as [Hk Hvalue].
  revert Hfuel. cbn [flat_map map fold_left]. unfold entry_lines at 1 3.
  unfold read_entry at 1. cbn [fst snd].
  destruct (is_container value).
  - destruct (Hv Hvalue) as [Hshape Hread].
    destruct (Hshape (d + 1)) as [Hlines [first [rest [E Hat]]]].
    specialize (Hread (d + 1)). rewrite E in *.
    intros Hfuel. cbn [List.app length] in Hfuel. rewrite length_app in Hfuel.
    cbn [length] in Hfuel.
    change ((head_line d key :: first :: rest) ++ flat_map (entry_lines d) m)%list
      with (head_line d key :: (first :: rest) ++ flat_map (entry_lines d) m)%list.
    rewrite parse_head_line; try assumption.
    + rewrite Hread by (cbn [length]; lia). cbn [bind].
      apply IH; [assumption..|lia].
    + apply (at_depth_indent _ _ Hat).
    + eapply Forall_impl; [|exact Hlines].
      intros l [_ [k [Hk' Hatk]]]. rewrite (at_depth_indent _ _ Hatk). lia.
  - intros Hfuel. cbn [List.app length] in Hfuel.
    cbn [List.app].
    rewrite (parse_entry_line fuel d key _ (read_as value));
      [|exact Hk|apply scalar_reads_token, Hvalue].
    apply IH; [assumption..|lia].
Qed.

Lemma dict_mem_read :
  forall m k, dict_mem k (map read_entry m) = dict_mem k m.
Proof.
  unfold dict_mem. induction m as [|[k' v'] m IH]; intros k; [reflexivity|].
  cbn [map read_entry dict_get fst snd].
  destruct (String.eqb k' k); [reflexivity|apply IH].
Qed.

Lemma keys_distinct_read :
  forall m, keys_distinct (map read_entry m) = keys_distinct m.
Proof.
  induction m as [|[k v] m IH]; [reflexivity|].
  cbn [map read_entry keys_distinct fst snd]. rewrite dict_mem_read, IH.
  reflexivity.
Qed.

Lemma nested_reads_as :
  forall v, nested_reads v = true -> lines_shaped v /\ reads_as v.
Proof.
  induction v as [|b|z|f|s|l IH|m IH] using Value_ind; intros H;
    try discriminate H;
    (split; [apply reads_lines_shaped, H|]).
  - destruct (nested_reads_list l H) as [Hne Hall]. intros d fuel Hfuel.
    cbn [ser_lines] in *. rewrite length_map in Hfuel.
    rewrite (parse_items l d fuel [] Hall Hfuel). cbn [List.app read_as].
    destruct l; [contradiction|reflexivity].
  - destruct (nested_reads_map m H) as [Hne [Hd Hall]]. intros d fuel Hfuel.
    change (ser_lines (VMap m) d) with (flat_map (entry_lines d) m) in *.
    rewrite (parse_entries m d IH Hall fuel [] Hfuel).
    rewrite update_distinct.
    + reflexivity.
    + rewrite keys_distinct_read. exact Hd.
    + intros k _ [].
Qed.

Lemma Forall_last :
  forall (A : Type) (P : A -> Prop) (l : list A) (d : A),
    Forall P l -> l <> [] -> P (last l d).
Proof.
  intros A P l d H Hne. induction H as [|x l Hx Hl IH]; [contradiction|].
  destruct l as [|y l]; [exact Hx|]. apply IH. discriminate.
Qed.

(** *** The result in the terms of the claim *)

Lemma Forall2_map_right :
  forall (A B : Type) (R : A -> B -> Prop) (f : A -> B) (l : list A),
    Forall (fun x => R x (f x)) l -> Forall2 R l (map f l).
Proof.
  intros A B R f l H. induction H as [|x l Hx _ IH]; constructor; assumption.
Qed.

Lemma scalar_read_same :
  (forall f, float_of_string (str_of_float f) = Some f) ->
  forall in_list v,
    scalar_reads in_list v = true -> same_modulo_coercion v (read_as v).
Proof.
  intros Hexact in_list v H. destruct v as [|b|z|f|s|l|m]; try discriminate H.
  - constructor.
  - constructor.
  - cbn [scalar_reads] in H. cbn [read_as].
    destruct (0 <=? z)%Z; [constructor|].
    cbn [orb] in H. apply negb_true_iff in H. unfold not_float in H.
    destruct (float_of_string (str_of_int z)); [constructor|discriminate H].
  - cbn [read_as]. rewrite Hexact. constructor.
  - cbn [read_as]. unfold coerce_text.
    destruct (isdigit s) eqn:E; [|constructor].
    destruct (int_of_str s); [apply smc_digits, E|constructor].
Qed.

Lemma read_as_same_modulo :
  (forall f, float_of_string (str_of_float f) = Some f) ->
  forall v, nested_reads v = true -> same_modulo_coercion v (read_as v).
Proof.
  intros Hexact.
  induction v as [|b|z|f|s|l IH|m IH] using Value_ind; intros H;
    try discriminate H.
  - destruct (nested_reads_list l H) as [_ Hall].
    cbn [read_as]. constructor. apply Forall2_map_right.
    apply Forall_forall. intros x Hx. rewrite forallb_forall in Hall.
    apply (scalar_read_same Hexact true), Hall, Hx.
  - destruct (nested_reads_map m H) as [_ [_ Hall]].
    cbn [read_as]. constructor. apply Forall2_map_right.
    apply Forall_forall. intros [k x] Hx. cbn [fst snd].
    split; [reflexivity|].
    rewrite forallb_forall in Hall. specialize (Hall _ Hx).
    unfold entry_reads in Hall. cbn [fst snd] in Hall.
    apply andb_true_iff in Hall. destruct Hall as [_ Hv].
    rewrite Forall_forall in IH. specialize (IH _ Hx). cbn [snd] in IH.
    destruct (is_container x); [apply IH, Hv|].
    apply (scalar_read_same Hexact false), Hv.
Qed.

(** C1, amended.  The class: the empty Map, a non-empty Map with distinct
    keys, or a non-empty List, in which
    - every Map key has no colon, no newline, no leading [-] or [#] and no
      white space at either end;
    - every Map value is a scalar or a non-empty Map or List of this kind,
      and every List item is a scalar;
    - a scalar is Null, a Boolean, an Integer, a Float or a Text: a negative
      Integer must have digits that [float()] accepts; [str] of a Float
      must have no white space at either end, no newline, as a List item no
      colon, must not be [null], [true] or [false], must not pass
      [isdigit()], and [float()] must accept it;
    - a Text has no newline and, as it is written (in double quotes when it
      has a space or a colon), is not accepted by [float()]; with a space or
      a colon, it has no colon as a List item; without, it is not empty,
      has no white space at either end, is not [null], [true] or [false],
      is not wrapped in matching quotes, and, if it passes [isdigit()], all
      its characters are among [0]..[9].
    For every such Value, parsing the serialization gives the Value with
    each Text that passes [isdigit()] replaced by the Integer it spells,
    each negative Integer by the Float that [float()] reads from its
    digits, and each Float by the Float that [float()] reads from [str] of
    it.  When the float reader reads what it writes, each Float comes back
    as itself, and the result is the Value up to the coercion of the
    claim. *)
Theorem block_round_trip :
  forall v,
    block_reads v = true ->
    parse (serialize v 0) = Ok (read_as v)
    /\ ((forall f, float_of_string (str_of_float f) = Some f) ->
        same_modulo_coercion v (read_as v)).
Proof.
  intros v H.
  assert (Hcase : v = VMap [] \/ nested_reads v = true).
  { destruct v as [| | | | | |[|kv m]]; try (right; exact H). left. reflexivity. }
  destruct Hcase as [E|Hn].
  { subst v. split; [reflexivity|]. intros _. constructor. constructor. }
  split; [|intros Hexact; apply (read_as_same_modulo Hexact), Hn].
  destruct (nested_reads_as v Hn) as [Hshape Hread].
  destruct (reads_written_as_lines v Hn 0) as [Es Hne].
  destruct (Hshape 0) as [Hlines [first [rest [El Hat]]]].
  unfold parse, _parse_lines. rewrite Es.
  assert (Hstrip : strip (join NL (ser_lines v 0)) = join NL (ser_lines v 0)).
  { apply strip_ends_ok.
    - rewrite El. apply head_ok_join, at_depth_first_char, Hat.
    - apply last_ok_join; [exact Hne|].
      apply (Forall_last _ (fun l => last_ok l = true)); [|exact Hne].
      eapply Forall_impl; [|exact Hlines].
      intros l [_ [k [_ Hk]]]. apply (at_depth_last _ _ Hk). }
  rewrite Hstrip, split_join.
  - apply (Hread 0). lia.
  - exact Hne.
  - eapply Forall_impl; [|exact Hlines]. intros l [Hnl _]. exact Hnl.
Qed.

End BlockParse.

(** *** The part of the class that needs no float reader

    [nested_ok] is [nested_reads] without Floats and negative Integers; on
    it [read_as] is [coerce]. *)

Section BlockWithoutFloats.
Context {PF : PyFloat}.


Lemma nested_ok_map :
  forall m, nested_ok (VMap m) = true ->
            m <> [] /\ keys_distinct m = true /\ forallb entry_ok m = true.
Proof.
  intros m H. cbn [nested_ok] in H.
  apply andb_true_iff in H. destruct H as [H Hall].
  apply andb_true_iff in H. destruct H as [Hne Hd].
  split; [destruct m; [discriminate|discriminate]|]. split; assumption.
Qed.

Lemma nested_ok_list :
  forall l, nested_ok (VList l) = true ->
            l <> [] /\ forallb (scalar_ok true) l = true.
Proof.
  intros l H. cbn [nested_ok] in H.
  apply andb_true_iff in H. destruct H as [Hne Hall].
  split; [destruct l; [discriminate|discriminate]|assumption].
Qed.



Lemma nested_ok_reads :
  forall v, nested_ok v = true -> nested_reads v = true /\ read_as v = coerce v.
Proof.
  induction v as [|b|z|f|s|l IH|m IH] using Value_ind; intros H;
    try discriminate H.
  - destruct (nested_ok_list l H) as [Hne Hall]. rewrite forallb_forall in Hall.
    split.
    + cbn [nested_reads]. apply andb_true_iff. split.
      * destruct l; [contradiction|reflexivity].
      * apply forallb_forall. intros x Hx.
        apply (scalar_ok_reads true x (Hall x Hx)).
    + cbn [read_as coerce]. f_equal. apply map_ext_in. intros x Hx.
      apply (scalar_ok_reads true x (Hall x Hx)).
  - destruct (nested_ok_map m H) as [Hne [Hd Hall]].
    rewrite forallb_forall in Hall. rewrite Forall_forall in IH.
    assert (Hentry : forall kv, In kv m ->
                       entry_reads kv = true /\ read_as (snd kv) = coerce (snd kv)).
    { intros [k x] Hx. specialize (Hall _ Hx). specialize (IH _ Hx).
      unfold entry_ok in Hall. unfold entry_reads. cbn [fst snd] in *.
      apply andb_true_iff in Hall. destruct Hall as [Hk Hv]. rewrite Hk.
      cbn [andb]. destruct (is_container x).
      - apply IH, Hv.
      - apply (scalar_ok_reads false x Hv). }
    split.
    + cbn [nested_reads]. rewrite Hd.
      assert (E : nonempty m = true) by (destruct m; [contradiction|reflexivity]).
      rewrite E. cbn [andb]. apply forallb_forall. intros kv Hkv.
      apply (Hentry kv Hkv).
    + cbn [read_as coerce]. f_equal. apply map_ext_in. intros kv Hkv.
      f_equal. apply (Hentry kv Hkv).
Qed.

Lemma serialize_lines :
  forall v, nested_ok v = true -> written_as_lines v.
Proof. intros v H. apply reads_written_as_lines, nested_ok_reads, H. Qed.

Lemma ser_lines_shaped :
  forall v, nested_ok v = true -> lines_shaped v.
Proof. intros v H. apply reads_lines_shaped, nested_ok_reads, H. Qed.


End BlockWithoutFloats.

Section BlockExamples.
Import Examples.
#[local] Existing Instance no_float_tokens.

(** C1, counterexample.  Three values whose keys are as the claim asks and
    that do not come back.  The Text [null] under a key is written unquoted
    and read as Null.  The empty List is written as the empty text and read
    as the empty Map.  For a list of one record the serializer writes the
    marker line [- ] and the record one level deeper; the parser reads the
    marker line as neither a list item nor a key, skips the deeper line, and
    returns the empty Map. *)
Lemma block_round_trip_fails :
  (spec_keys_ok (VMap [("a", VText "null")]) = true
   /\ parse (serialize (VMap [("a", VText "null")]) 0) = Ok (VMap [("a", VNull)])
   /\ ~ same_modulo_coercion (VMap [("a", VText "null")]) (VMap [("a", VNull)]))
  /\ (spec_keys_ok (VList []) = true
      /\ parse (serialize (VList []) 0) = Ok (VMap [])
      /\ ~ same_modulo_coercion (VList []) (VMap []))
  /\ (spec_keys_ok (VList [VMap [("a", VInt 1)]]) = true
      /\ serialize (VList [VMap [("a", VInt 1)]]) 0 = "- " ++ NL ++ "  a: 1"
      /\ parse (serialize (VList [VMap [("a", VInt 1)]]) 0) = Ok (VMap [])
      /\ ~ same_modulo_coercion (VList [VMap [("a", VInt 1)]]) (VMap [])).
Proof.
  repeat split; try reflexivity; intros H; inversion H; subst.
  match goal with
  | H : Forall2 _ _ _ |- _ => inversion H as [|? ? ? ? [_ Hv] _]; subst
  end.
  inversion Hv.
Qed.

End BlockExamples.

Section BlockFloatExamples.
Import FloatExamples.
#[local] Existing Instance two_floats.

Lemma block_round_trip_witness :
  parse
    (serialize
       (VMap [("server", VMap [("host", VText "localhost"); ("port", VInt 8080)]);
              ("pi", VFloat pi);
              ("offset", VInt (-5));
              ("tags", VList [VText "a b"; VNull; VText "42"; VFloat minus_five]);
              ("title", VText "x: y")]) 0)
  = Ok (VMap [("server", VMap [("host", VText "localhost"); ("port", VInt 8080)]);
              ("pi", VFloat pi);
              ("offset", VFloat minus_five);
              ("tags", VList [VText "a b"; VNull; VInt 42; VFloat minus_five]);
              ("title", VText "x: y")])
  /\ same_modulo_coercion
       (VMap [("server", VMap [("host", VText "localhost"); ("port", VInt 8080)]);
              ("pi", VFloat pi);
              ("offset", VInt (-5));
              ("tags", VList [VText "a b"; VNull; VText "42"; VFloat minus_five]);
              ("title", VText "x: y")])
       (VMap [("server", VMap [("host", VText "localhost"); ("port", VInt 8080)]);
              ("pi", VFloat pi);
              ("offset", VFloat minus_five);
              ("tags", VList [VText "a b"; VNull; VInt 42; VFloat minus_five]);
              ("title", VText "x: y")]).
Proof.
  destruct (block_round_trip
              (VMap [("server", VMap [("host", VText "localhost");
                                      ("port", VInt 8080)]);
                     ("pi", VFloat pi);
                     ("offset", VInt (-5));
                     ("tags", VList [VText "a b"; VNull; VText "42";
                                     VFloat minus_five]);
                     ("title", VText "x: y")]) eq_refl) as [Hparse Hsame].
  split; [exact Hparse|]. apply Hsame. intros [|]; reflexivity.
Defined.

End BlockFloatExamples.


(** * Further properties of the code *)

(** ** The loop of [_parse_lines] *)

Section ParserInvariants.
Context {PF : PyFloat}.

Lemma bind_Ok_inv :
  forall (A B : Type) (m : outcome A) (k : A -> outcome B) (b : B),
    bind m k = Ok b -> exists a, m = Ok a /\ k a = Ok b.
Proof.
  intros A B m k b H. destruct m as [a|e| |]; try discriminate H.
  exists a. split; [reflexivity|exact H].
Qed.

Ltac break_parse :=
  repeat match goal with
         | H : Raise _ = Ok _ |- _ => discriminate H
         | H : OutOfFuel = Ok _ |- _ => discriminate H
         | H : bind _ _ = Ok _ |- _ =>
             apply bind_Ok_inv in H; destruct H as [? [? H]]
         | H : (if ?c then _ else _) = Ok _ |- _ => destruct c eqn:?
         | H : match split1 ?c ?s with _ => _ end = Ok _ |- _ =>
             destruct (split1 c s) as [|? [|? [|? ?]]]
         | H : (let (_, _) := ?p in _) = Ok _ |- _ => destruct p eqn:?
         | H : match ?l with [] => _ | _ :: _ => _ end = Ok _ |- _ =>
             destruct l eqn:?
         end.

Lemma dict_mem_set_mono :
  forall (d : dict) k k' v,
    dict_mem k d = true -> dict_mem k (dict_set d k' v) = true.
Proof.
  unfold dict_mem.
  induction d as [|[k0 v0] d IH]; intros k k' v H; [discriminate|].
  cbn [dict_get dict_set] in *.
  destruct (String.eqb k0 k') eqn:E.
  - apply String.eqb_eq in E. subst k0. cbn [dict_get].
    destruct (String.eqb k' k); [reflexivity|exact H].
  - cbn [dict_get]. destruct (String.eqb k0 k); [reflexivity|].
    apply IH, H.
Qed.

(** What the loop returns is [finish] of a result that kept every key it
    had and of a list that starts with the items it had. *)
Lemma parse_loop_finish :
  forall fuel indent lines result items v,
    parse_loop fuel indent lines result items = Ok v ->
    exists result' more,
      v = finish result' (items ++ more)%list
      /\ (forall k, dict_mem k result = true -> dict_mem k result' = true).
Proof.
  induction fuel as [|fuel IH]; intros indent lines result items v H;
    [discriminate|].
  cbn [parse_loop] in H. destruct lines as [|line rest].
  - inversion H. exists result, []. rewrite app_nil_r. auto.
  - break_parse;
      try (inversion H; exists result, []; rewrite app_nil_r; split; auto; fail);
      try (destruct (IH _ _ _ _ _ H) as [result' [more [Hv Hk]]];
           first
             [ exists result', more; split; [exact Hv|];
               intros k Hin; apply Hk; try exact Hin;
               apply dict_mem_set_mono; exact Hin
             | eexists result', (_ :: more); split;
               [rewrite Hv, <- app_assoc; reflexivity | exact Hk] ]).
Qed.

Lemma _parse_value_scalar :
  forall s v, _parse_value s = Ok v -> is_container v = false.
Proof.
  intros s v H. unfold _parse_value in H.
  repeat match type of H with
         | (if ?c then _ else _) = _ => destruct c
         | match ?c with Some _ => _ | None => _ end = _ => destruct c
         end; inversion H; reflexivity.
Qed.

Lemma wf_scalar : forall v, is_container v = false -> wf_value v = true.
Proof. intros [| | | | | |] H; try reflexivity; discriminate H. Qed.

Lemma wf_dict_set :
  forall (d : dict) k v,
    wf_value (VMap d) = true -> wf_value v = true ->
    wf_value (VMap (dict_set d k v)) = true.
Proof.
  induction d as [|[k0 v0] d IH]; intros k v Hd Hv.
  - cbn. rewrite Hv. reflexivity.
  - cbn [wf_value keys_distinct forallb snd fst] in Hd.
    apply andb_prop in Hd. destruct Hd as [Hk Hall].
    apply andb_prop in Hk. destruct Hk as [Hk0 Hkd].
    apply andb_prop in Hall. destruct Hall as [Hv0 Hall].
    assert (Hrec : wf_value (VMap (dict_set d k v)) = true).
    { apply IH; [|exact Hv]. cbn [wf_value]. rewrite Hkd, Hall. reflexivity. }
    cbn [wf_value] in Hrec. apply andb_prop in Hrec. destruct Hrec as [R1 R2].
    cbn [dict_set]. destruct (String.eqb k0 k) eqn:E.
    + apply String.eqb_eq in E. subst k0.
      cbn [wf_value keys_distinct forallb snd fst].
      rewrite Hk0, Hkd, Hv, Hall. reflexivity.
    + apply String.eqb_neq in E.
      cbn [wf_value keys_distinct forallb snd fst].
      rewrite R1, R2, Hv0.
      assert (Hm : dict_mem k0 (dict_set d k v) = dict_mem k0 d).
      { unfold dict_mem. rewrite dict_get_set_other; [reflexivity|].
        intros Heq. apply E. symmetry. exact Heq. }
      rewrite Hm, Hk0. reflexivity.
Qed.

Lemma wf_list_snoc :
  forall l v,
    wf_value (VList l) = true -> wf_value v = true ->
    wf_value (VList (l ++ [v])%list) = true.
Proof.
  intros l v Hl Hv. cbn [wf_value] in *. rewrite forallb_app, Hl.
  cbn. rewrite Hv. reflexivity.
Qed.

Lemma wf_finish :
  forall result items,
    wf_value (VMap result) = true -> wf_value (VList items) = true ->
    wf_value (finish result items) = true.
Proof. intros result [|x items] Hr Hi; [exact Hr|exact Hi]. Qed.

Lemma parse_loop_wf :
  forall fuel indent lines result items v,
    wf_value (VMap result) = true -> wf_value (VList items) = true ->
    parse_loop fuel indent lines result items = Ok v ->
    wf_value v = true.
Proof.
  induction fuel as [|fuel IH]; intros indent lines result items v Hr Hi H;
    [discriminate|].
  cbn [parse_loop] in H. destruct lines as [|line rest].
  - inversion H. apply wf_finish; assumption.
  - break_parse;
      try (inversion H; apply wf_finish; assumption);
      try (eapply IH; [| |exact H]; try assumption;
           first
             [ apply wf_list_snoc; [assumption|];
               first [ apply wf_scalar; eapply _parse_value_scalar; eassumption
                     | cbn; erewrite wf_scalar;
                       [reflexivity|eapply _parse_value_scalar; eassumption] ]
             | apply wf_dict_set; [assumption|];
               first [ apply wf_scalar; eapply _parse_value_scalar; eassumption
                     | reflexivity
                     | eapply IH; [| |eassumption]; reflexivity ] ]).
Qed.

(** Lines that are passed over leave the loop's state as it is. *)
Lemma parse_loop_passed_over :
  forall fuel indent lines result items,
    (length lines < fuel)%nat ->
    Forall (passed_over indent) lines ->
    parse_loop fuel indent lines result items = Ok (finish result items).
Proof.
  induction fuel as [|fuel IH]; intros indent lines result items Hlen Hall;
    [lia|].
  destruct lines as [|line rest]; [reflexivity|].
  simpl in Hlen. inversion Hall as [|? ? Hline Hrest]; subst.
  cbn [parse_loop].
  destruct (String.eqb (strip line) "" || startswith "#" (strip line)) eqn:E.
  - apply IH; [lia|exact Hrest].
  - apply orb_false_elim in E. destruct E as [E1 E2].
    destruct Hline as [Hs|[Hs|[Hs|[Hi [Hd Hc]]]]].
    + rewrite Hs in E1. discriminate E1.
    + rewrite Hs in E2. discriminate E2.
    + assert (H1 : (indent_of line <? indent)%nat = false)
        by (apply Nat.ltb_ge; lia).
      assert (H2 : (indent <? indent_of line)%nat = true)
        by (apply Nat.ltb_lt; lia).
      rewrite H1, H2. apply IH; [lia|exact Hrest].
    + rewrite Hi, Nat.ltb_irrefl, Hd, Hc. apply IH; [lia|exact Hrest].
Qed.

End ParserInvariants.

Section ParserProperties.
Context {PF : PyFloat}.

(** X1. [parse] terminates on every text: it returns a value or raises
    ValueError, and nothing else. *)
Theorem parse_value_or_value_error :
  forall text,
    (exists v, parse text = Ok v) \/ parse text = Raise ValueError.
Proof.
  intros text. pose proof (parse_outcome text) as H.
  destruct (parse text) as [v|e| |]; simpl in H; try contradiction.
  - left. exists v. reflexivity.
  - right. destruct e; try contradiction. reflexivity.
Qed.

(** X2. What [parse] returns is a Map or a List, never a scalar, and each
    Map in it, at any depth, has pairwise distinct keys. *)
Theorem parse_result_well_formed :
  forall text v,
    parse text = Ok v -> is_container v = true /\ wf_value v = true.
Proof.
  intros text v H. unfold parse, _parse_lines in H. split.
  - destruct (parse_loop_finish _ _ _ _ _ _ H) as [result' [more [Hv _]]].
    rewrite Hv. destruct more; reflexivity.
  - eapply parse_loop_wf; [| |exact H]; reflexivity.
Qed.

(** X3. Once a scope has read a list item, then, whatever lines follow,
    the scope either returns a List that starts with the items read so far,
    so that the entries of keyed lines of the same scope are thrown away,
    or raises the [ValueError] of [int()] on a later token.  (The fuel is
    above the number of lines, as [parse] gives it.) *)
Theorem list_items_win :
  forall fuel indent lines result items,
    items <> [] ->
    (length lines < fuel)%nat ->
    (exists more,
        parse_loop fuel indent lines result items
        = Ok (VList (items ++ more)%list))
    \/ parse_loop fuel indent lines result items = Raise ValueError.
Proof.
  intros fuel indent lines result items Hne Hfuel.
  pose proof (parse_loop_outcome fuel indent lines result items Hfuel) as Hout.
  destruct (parse_loop fuel indent lines result items) as [v|e| |] eqn:E;
    simpl in Hout; try contradiction.
  - left.
    destruct (parse_loop_finish _ _ _ _ _ _ E) as [result' [more [Hv _]]].
    exists more. rewrite Hv. destruct items as [|x items]; [contradiction|].
    reflexivity.
  - right. destruct e; try contradiction. reflexivity.
Qed.

(** X4. A text in which every line is blank, a comment, indented, or
    without both a leading [- ] and a colon is read as the empty Map:
    [parse] raises nothing on text that is not in its format, it passes
    over every line. *)
Theorem parse_nothing_to_read :
  forall text,
    Forall (passed_over 0) (split nl (strip text)) ->
    parse text = Ok (VMap []).
Proof.
  intros text H. unfold parse, _parse_lines.
  rewrite parse_loop_passed_over; [reflexivity|lia|exact H].
Qed.

End ParserProperties.

Section ParserExamples.
Import Examples.
#[local] Existing Instance no_float_tokens.

Lemma parse_result_well_formed_witness :
  is_container (VMap [("a", VInt 2); ("b", VMap [("c", VText "x")])]) = true
  /\ wf_value (VMap [("a", VInt 2); ("b", VMap [("c", VText "x")])]) = true.
Proof.
  apply (parse_result_well_formed
           ("a: 1" ++ NL ++ "b:" ++ NL ++ "  c: x" ++ NL ++ "a: 2")).
  reflexivity.
Defined.

Lemma list_items_win_witness :
  exists more,
    parse_loop 3 0 ["key: 1"; "- second"] [] [VText "first"]
    = Ok (VList ([VText "first"] ++ more)%list).
Proof.
  destruct (list_items_win 3 0 ["key: 1"; "- second"] [] [VText "first"])
    as [H|H].
  - discriminate.
  - simpl. lia.
  - exact H.
  - vm_compute in H. discriminate H.
Defined.

Lemma parse_nothing_to_read_witness :
  parse ("# settings" ++ NL ++ "" ++ NL ++ "   a: 1" ++ NL ++ "plain words")
  = Ok (VMap []).
Proof.
  apply parse_nothing_to_read.
  change (split nl (strip ("# settings" ++ NL ++ "" ++ NL ++ "   a: 1"
                           ++ NL ++ "plain words")))
    with ["# settings"; ""; "   a: 1"; "plain words"].
  constructor; [right; left; reflexivity|].
  constructor; [left; reflexivity|].
  constructor; [right; right; left; vm_compute; repeat constructor|].
  constructor; [right; right; right; repeat split|].
  constructor.
Defined.

End ParserExamples.

(** ** Scalars through [_serialize_value] and [_parse_value] *)

Section ScalarProperties.
Context {PF : PyFloat}.

Lemma negative_token :
  forall p, exists r, str_of_int (Zneg p) = String "-" r.
Proof. intros p. eexists. reflexivity. Qed.

Lemma _parse_value_quote_head :
  forall q r,
    (q = dquote \/ q = "'"%char) ->
    _parse_value (String q r)
    = match float_of_string (String q r) with
      | Some f => Ok (VFloat f)
      | None =>
          if endswith (String q "") (String q r)
          then Ok (VText (slice_1_m1 (String q r)))
          else Ok (VText (String q r))
      end.
Proof.
  intros q r [E|E]; subst q; unfold dquote; unfold _parse_value, startswith;
    cbn [String.eqb Ascii.eqb Bool.eqb orb isdigit forallb_str andb];
    match goal with
    | |- context [is_digit ?c] => change (is_digit c) with false
    end;
    cbn [andb]; destruct (float_of_string _); try reflexivity;
    rewrite !prefix_cons, !prefix_nil;
    cbn [Ascii.eqb Bool.eqb andb orb]; rewrite ?orb_false_r; reflexivity.
Qed.

(** X5. An Integer survives [_serialize_value] then [_parse_value] exactly
    when it is not negative: the token of a negative one starts with [-],
    fails [isdigit()], and is read as a Float or a Text. *)
Theorem integer_comes_back_iff_nonnegative :
  forall z,
    _parse_value (_serialize_value (VInt z)) = Ok (VInt z) <-> (0 <= z)%Z.
Proof.
  intros z. split.
  - intros H. destruct z as [|p|p]; [lia|lia|exfalso].
    change (_serialize_value (VInt (Zneg p))) with (str_of_int (Zneg p)) in H.
    destruct (negative_token p) as [r E]. rewrite E in H.
    unfold _parse_value in H.
    cbn [String.eqb Ascii.eqb Bool.eqb orb isdigit forallb_str] in H.
    change (is_digit "-") with false in H. cbn [andb] in H.
    destruct (float_of_string _); [discriminate H|].
    destruct (_ || _); discriminate H.
  - intros Hz. destruct (int_token false z Hz) as [_ [_ [_ [_ Hp]]]].
    exact Hp.
Qed.

(** X6. A token in matching double or single quotes that [float()] rejects
    is read as the Text between the quotes, whatever that is: a digit
    string, [null], [true], text with further quotes; nothing inside is
    unescaped. *)
Theorem quoted_token_is_text :
  forall q s,
    (q = dquote \/ q = "'"%char) ->
    not_float (String q (s ++ String q "")) = true ->
    _parse_value (String q (s ++ String q "")) = Ok (VText s).
Proof.
  intros q s Hq Hf. rewrite (_parse_value_quote_head q _ Hq).
  unfold not_float in Hf. destruct (float_of_string _); [discriminate Hf|].
  change (String q (s ++ String q "")) with (String q s ++ String q "").
  rewrite endswith_snoc. unfold slice_1_m1.
  cbn [String.append drop]. rewrite drop_last_snoc. reflexivity.
Qed.

(** X7. A Text that has no space and no colon and is itself wrapped in
    matching quotes is written as it is and read back shorter: without its
    first character and, when there is more than one, its last. *)
Theorem wrapped_text_loses_quotes :
  forall s,
    contains " " s || contains ":" s = false ->
    wrapped_in_quotes s = true ->
    not_float s = true ->
    _parse_value (_serialize_value (VText s)) = Ok (VText (slice_1_m1 s))
    /\ (String.length (slice_1_m1 s) < String.length s)%nat.
Proof.
  intros s Hplain Hw Hf. cbn [_serialize_value py_str]. rewrite Hplain.
  assert (Hlen : forall t, (String.length (drop_last t) <= String.length t)%nat).
  { induction t as [|c t IH]; [apply le_n|].
    cbn [drop_last]. destruct t as [|c' t]; [cbn; lia|].
    cbn [String.length] in *. lia. }
  unfold wrapped_in_quotes, startswith in Hw. unfold not_float in Hf.
  destruct s as [|c r]; [discriminate Hw|].
  rewrite !prefix_cons, !prefix_nil, !andb_true_r in Hw.
  assert (Hq : c = dquote \/ c = "'"%char).
  { apply orb_true_iff in Hw. destruct Hw as [H|H];
      apply andb_true_iff in H; destruct H as [H _];
      apply Ascii.eqb_eq in H; [left|right]; symmetry; exact H. }
  split.
  - rewrite (_parse_value_quote_head c r Hq).
    destruct (float_of_string _); [discriminate Hf|].
    assert (He : endswith (String c "") (String c r) = true).
    { apply orb_true_iff in Hw. destruct Hw as [H|H];
        apply andb_true_iff in H; destruct H as [H1 H2];
        apply Ascii.eqb_eq in H1; subst c; exact H2. }
    rewrite He. reflexivity.
  - unfold slice_1_m1. cbn [drop String.length]. specialize (Hlen r). lia.
Qed.

End ScalarProperties.

Section ScalarExamples.
Import Examples.
#[local] Existing Instance no_float_tokens.

Lemma quoted_token_is_text_witness :
  _parse_value (String dquote ("42" ++ String dquote "")) = Ok (VText "42").
Proof.
  apply (quoted_token_is_text dquote "42"); [left; reflexivity|reflexivity].
Defined.

Lemma wrapped_text_loses_quotes_witness :
  _parse_value (_serialize_value (VText "'a'")) = Ok (VText (slice_1_m1 "'a'"))
  /\ (String.length (slice_1_m1 "'a'") < String.length "'a'")%nat.
Proof.
  apply (wrapped_text_loses_quotes "'a'"); reflexivity.
Defined.

End ScalarExamples.

(** ** Blocks through [serialize] and [parse] *)

Section BlockProperties.
Context {PF : PyFloat}.

Lemma nested_container : forall v, nested_ok v = true -> is_container v = true.
Proof. intros [| | | | | |] H; try discriminate H; reflexivity. Qed.

Lemma join_flat_map :
  forall (A : Type) (f g : A -> list string) (l : list A),
    (forall x, In x l ->
               f x <> [] /\ g x <> [] /\ join NL (f x) = join NL (g x)) ->
    join NL (flat_map f l) = join NL (flat_map g l).
Proof.
  intros A f g. induction l as [|x l IH]; intros H; [reflexivity|].
  destruct (H x (or_introl eq_refl)) as [Hf [Hg E]].
  assert (IH' : join NL (flat_map f l) = join NL (flat_map g l)).
  { apply IH. intros y Hy. apply H. right. exact Hy. }
  cbn [flat_map]. destruct l as [|y l].
  - cbn [flat_map]. rewrite !app_nil_r. exact E.
  - destruct (H y (or_intror (or_introl eq_refl))) as [Hfy [Hgy _]].
    rewrite !join_app; try assumption.
    + rewrite E, IH'. reflexivity.
    + cbn [flat_map]. intros C. apply app_eq_nil in C. destruct C. contradiction.
    + cbn [flat_map]. intros C. apply app_eq_nil in C. destruct C. contradiction.
Qed.

Lemma last_app_nonempty :
  forall (A : Type) (a b : list A) (d : A),
    b <> [] -> last (a ++ b) d = last b d.
Proof.
  intros A a b d Hb. induction a as [|x a IH]; [reflexivity|].
  cbn [List.app]. rewrite <- IH.
  destruct (a ++ b)%list eqn:E; [|reflexivity].
  apply app_eq_nil in E. destruct E. contradiction.
Qed.



(** *** Coercion happens once *)






End BlockProperties.

Section BlockTheorems.
Context {PF : PyFloat}.



(** X10. A non-empty List whose items are all Maps or Lists of the class
    [nested_ok] does not come back.  ([nested_ok]: a non-empty Map with
    distinct keys or a non-empty List; every key without colon, newline,
    leading [-] or [#], or white space at either end; every Map value a
    scalar or again such a Map or List; every List item a scalar; a scalar
    is Null, a Boolean, a non-negative Integer or a Text as [text_ok] asks,
    in particular without a newline.)  [serialize] writes each item as a
    marker line [- ] followed by the item one level deeper, and [parse]
    passes over every one of these lines and returns the empty Map. *)
Theorem list_of_containers_read_as_empty_map :
  forall l,
    l <> [] ->
    forallb nested_ok l = true ->
    parse (serialize (VList l) 0) = Ok (VMap []).
Proof.
  intros l Hne Hall. rewrite forallb_forall in Hall.
  set (g := fun item : Value => "- " :: ser_lines item 1).
  assert (Es : serialize (VList l) 0 = join NL (flat_map g l)).
  { cbn [serialize mul String.append]. apply join_flat_map.
    intros x Hx. rewrite (nested_container x (Hall x Hx)), replace1_same.
    destruct (serialize_lines x (Hall x Hx) 1) as [E Hsub].
    split; [discriminate|]. split; [discriminate|].
    change (0 + 1)%nat with 1%nat. rewrite E. unfold g.
    destruct (ser_lines x 1) as [|y ys]; [contradiction|reflexivity]. }
  assert (Hshape : Forall (fun x => x = "- " \/ line_ok 1 x) (flat_map g l)).
  { apply Forall_flat_map. apply Forall_forall. intros x Hx. unfold g.
    constructor; [left; reflexivity|].
    destruct (ser_lines_shaped x (Hall x Hx) 1) as [Hl _].
    eapply Forall_impl; [|exact Hl]. intros y Hy. right. exact Hy. }
  assert (Hlast : last_ok (last (flat_map g l) "") = true).
  { clear Es Hshape. induction l as [|x l IH]; [contradiction|].
    assert (Hx : nested_ok x = true) by (apply Hall; left; reflexivity).
    destruct (ser_lines_shaped x Hx 1) as [Hl _].
    destruct (serialize_lines x Hx 1) as [_ Hsub].
    cbn [flat_map]. destruct l as [|y l].
    - cbn [flat_map]. rewrite app_nil_r. unfold g.
      destruct (ser_lines x 1) as [|z zs] eqn:E; [contradiction|].
      change (last ("- " :: z :: zs) "") with (last (z :: zs) "").
      apply (Forall_last _ (fun l => last_ok l = true)); [|discriminate].
      eapply Forall_impl; [|exact Hl].
      intros a [_ [k [_ Hk]]]. apply (at_depth_last _ _ Hk).
    - rewrite last_app_nonempty; [|discriminate].
      apply IH; [discriminate|]. intros z Hz. apply Hall. right. exact Hz. }
  assert (Hg : flat_map g l <> []).
  { destruct l as [|x l]; [contradiction|discriminate]. }
  unfold parse, _parse_lines. rewrite Es.
  rewrite strip_ends_ok; [| |apply last_ok_join; assumption].
  - rewrite split_join; [|exact Hg|].
    + change (VMap []) with (finish [] []).
      apply parse_loop_passed_over; [lia|].
      eapply Forall_impl; [|exact Hshape].
      intros x [E|[_ [k [Hk Hat]]]].
      * subst x. right. right. right. repeat split.
      * right. right. left. rewrite (at_depth_indent _ _ Hat). lia.
    + eapply Forall_impl; [|exact Hshape].
      intros x [E|[Hnl _]]; [subst x; reflexivity|exact Hnl].
  - destruct l as [|x l]; [contradiction|].
    cbn [flat_map]. unfold g at 1. cbn [List.app]. apply head_ok_join.
    reflexivity.
Qed.

(** X11. A Map of the class [nested_ok] (see X10: readable keys, readable
    scalars, no Text with a newline) whose first value is a scalar, written
    at a depth above 0, that is as a document indented as a whole, keeps
    only its first entry: [parse] strips the text, which puts the first
    line alone at indent 0, and every later line is deeper than the scope
    and passed over. *)
Theorem indented_document_keeps_first_entry :
  forall indent key value others,
    (0 < indent)%nat ->
    nested_ok (VMap ((key, value) :: others)) = true ->
    is_container value = false ->
    parse (serialize (VMap ((key, value) :: others)) indent)
    = Ok (VMap [(key, coerce value)]).
Proof.
  intros d key value others Hd Hn Hc.
  destruct (ser_lines_shaped _ Hn d) as [Hlines _].
  destruct (serialize_lines _ Hn d) as [Es _].
  destruct (nested_ok_map _ Hn) as [_ [_ Hall]].
  cbn [forallb] in Hall. apply andb_true_iff in Hall. destruct Hall as [Hkv _].
  unfold entry_ok in Hkv. cbn [fst snd] in Hkv. rewrite Hc in Hkv.
  apply andb_true_iff in Hkv. destruct Hkv as [Hk Hv].
  pose proof (scalar_token false value Hv) as Htok.
  revert Es Hlines. cbn [ser_lines flat_map fst snd]. rewrite Hc.
  cbn [List.app].
  set (tok := _serialize_value value) in *.
  set (L := flat_map _ others). intros Es Hlines.
  inversion Hlines as [|? ? _ HL]; subst.
  set (body := key ++ ": " ++ tok).
  destruct (entry_line_ok 0 key tok _ Hk Htok) as [[b [Eb [Hbh Hbl]]] Hbnl].
  change (entry_line 0 key tok) with body in Eb, Hbnl.
  change (mul "  " 0 ++ b) with b in Eb. subst b.
  assert (Ej : join NL (entry_line d key tok :: L)
               = mul "  " d ++ join NL (body :: L)).
  { destruct L as [|x L]; [reflexivity|].
    rewrite !join_cons. unfold entry_line, body.
    rewrite !append_assoc. reflexivity. }
  assert (HLlast : Forall (fun l => last_ok l = true) (body :: L)).
  { constructor; [exact Hbl|]. eapply Forall_impl; [|exact HL].
    intros l [_ [k [_ Hat]]]. apply (at_depth_last _ _ Hat). }
  unfold parse, _parse_lines. rewrite Es, Ej.
  rewrite strip_indented;
    [|apply head_ok_join, Hbh
     |apply last_ok_join;
      [discriminate|apply (Forall_last _ _ _ _ HLlast); discriminate]].
  rewrite split_join; [|discriminate|].
  - cbn [length].
    change (parse_loop (S (S (length L))) 0 (body :: L) [] [])
      with (parse_loop (S (S (length L))) (2 * 0) (entry_line 0 key tok :: L) [] []).
    rewrite (parse_entry_line _ 0 key tok (coerce value) L [] [] Hk Htok).
    change (VMap [(key, coerce value)])
      with (finish (dict_set [] key (coerce value)) []).
    apply parse_loop_passed_over; [lia|].
    eapply Forall_impl; [|exact HL].
    intros l [_ [k [Hk' Hat]]]. right. right. left.
    rewrite (at_depth_indent _ _ Hat). cbn. lia.
  - constructor; [exact Hbnl|]. eapply Forall_impl; [|exact HL].
    intros l [Hnl _]. exact Hnl.
Qed.

Lemma split_first_unindented :
  forall text,
    head_ok text = true ->
    exists x xs, split nl text = x :: xs /\ indent_of x = 0%nat.
Proof.
  intros [|c t] H; [discriminate H|]. cbn [head_ok] in H.
  apply negb_true_iff in H. cbn [split].
  destruct (Ascii.eqb c nl) eqn:E.
  - apply Ascii.eqb_eq in E. subst c. discriminate H.
  - assert (Hi : forall x, indent_of (String c x) = 0%nat).
    { intros x. unfold indent_of. cbn [lstrip]. rewrite H. apply Nat.sub_diag. }
    destruct (split nl t) as [|x xs]; eexists; eexists;
      (split; [reflexivity|apply Hi]).
Qed.

(** X12. A key with nothing after its colon is bound to Null when its line
    is the only one, and is not bound at all when an unindented text
    follows: the text is then read as if the key line were not there. *)
Theorem bare_key_line_read :
  forall key,
    key_ok key = true ->
    parse (key ++ ":") = Ok (VMap [(key, VNull)])
    /\ forall text,
        strip text = text -> text <> "" ->
        parse (key ++ ":" ++ NL ++ text) = parse text.
Proof.
  intros key Hk.
  destruct (key_ok_facts key Hk) as [_ [_ [_ [Hknl Hstrip]]]].
  assert (Hh : forall r, head_ok (key ++ String ":" r) = true)
    by (intros r; apply key_body_head, Hstrip).
  assert (Hnl : contains nl (key ++ ":") = false).
  { rewrite contains_append, Hknl. reflexivity. }
  split.
  - unfold parse, _parse_lines.
    rewrite strip_ends_ok; [|apply Hh|apply last_ok_append; reflexivity].
    rewrite (split_no_sep _ _ Hnl). cbn [length].
    change (key ++ ":") with (head_line 0 key).
    change (parse_loop 2 0 [head_line 0 key] [] [])
      with (parse_loop 2 (2 * 0) [head_line 0 key] [] []).
    rewrite (parse_bare_key_line 1 0 key [] [] [] Hk). reflexivity.
  - intros text Ht Hne. destruct (strip_fixed text Ht Hne) as [Hth Htl].
    destruct (split_first_unindented text Hth) as [x [xs [Ex Hx]]].
    unfold parse, _parse_lines. rewrite Ht.
    rewrite strip_ends_ok;
      [|apply Hh|apply last_ok_append, (last_ok_append NL text Htl)].
    change (key ++ ":" ++ NL ++ text) with (key ++ ":" ++ String nl text).
    rewrite <- append_assoc, (split_append _ _ _ Hnl), Ex.
    cbn [length].
    change (key ++ ":") with (head_line 0 key).
    change (parse_loop (S (S (length xs))) 0 (head_line 0 key :: x :: xs) [] [])
      with (parse_loop (S (S (length xs))) (2 * 0)
              (head_line 0 key :: x :: xs) [] []).
    rewrite (parse_bare_key_line _ 0 key (x :: xs) [] [] Hk).
    rewrite Hx. reflexivity.
Qed.

End BlockTheorems.

Section BlockFurtherExamples.
Import Examples.
#[local] Existing Instance no_float_tokens.



Lemma list_of_containers_read_as_empty_map_witness :
  parse (serialize (VList [VMap [("name", VText "Ann"); ("age", VInt 30)];
                           VMap [("name", VText "Bob"); ("age", VInt 25)]]) 0)
  = Ok (VMap []).
Proof.
  apply list_of_containers_read_as_empty_map; [discriminate|reflexivity].
Defined.

Lemma indented_document_keeps_first_entry_witness :
  parse (serialize (VMap [("a", VText "1"); ("b", VInt 2);
                          ("c", VMap [("d", VNull)])]) 2)
  = Ok (VMap [("a", coerce (VText "1"))]).
Proof.
  apply indented_document_keeps_first_entry; [lia|reflexivity|reflexivity].
Defined.

Lemma bare_key_line_read_witness :
  parse ("a" ++ ":") = Ok (VMap [("a", VNull)])
  /\ parse ("a" ++ ":" ++ NL ++ "b: 1") = parse "b: 1".
Proof.
  destruct (bare_key_line_read "a" eq_refl) as [H1 H2].
  split; [exact H1|]. apply (H2 "b: 1"); [reflexivity|discriminate].
Defined.

End BlockFurtherExamples.

(** ** Elements and dictionaries *)

Section TreeProperties.
Context {PF : PyFloat}.

Lemma dict_mem_set_same :
  forall (d : dict) k v, dict_mem k (dict_set d k v) = true.
Proof.
  unfold dict_mem. induction d as [|[k0 v0] d IH]; intros k v.
  - cbn. rewrite String.eqb_refl. reflexivity.
  - cbn [dict_set]. destruct (String.eqb k0 k) eqn:E; cbn [dict_get].
    + rewrite String.eqb_refl. reflexivity.
    + rewrite E. apply IH.
Qed.

Lemma dict_mem_add_child :
  forall result c k,
    dict_mem k result = true -> dict_mem k (add_child result c) = true.
Proof.
  intros result c k H. unfold add_child.
  destruct (dict_get result (el_tag c)); apply dict_mem_set_mono, H.
Qed.

Lemma dict_mem_add_child_tag :
  forall result c, dict_mem (el_tag c) (add_child result c) = true.
Proof.
  intros result c. unfold add_child.
  destruct (dict_get result (el_tag c)); apply dict_mem_set_same.
Qed.

Lemma dict_mem_fold_children :
  forall children result k,
    dict_mem k result = true ->
    dict_mem k (fold_left add_child children result) = true.
Proof.
  induction children as [|c children IH]; intros result k H; [exact H|].
  cbn [fold_left]. apply IH, dict_mem_add_child, H.
Qed.

Lemma collapse_map :
  forall result k,
    dict_mem k result = true -> k <> "#text" -> collapse result = VMap result.
Proof.
  intros [|[k0 v0] [|kv result]] k H Hk; [discriminate H| |reflexivity].
  unfold collapse, dict_mem in *. cbn [dict_get length Nat.eqb andb] in *.
  destruct (String.eqb k0 k) eqn:E; [|discriminate H].
  apply String.eqb_eq in E. subst k0.
  destruct (String.eqb k "#text") eqn:E'; [|reflexivity].
  apply String.eqb_eq in E'. contradiction.
Qed.

Lemma fold_children_attributes :
  forall children result,
    Forall (fun c => reserved (el_tag c) = false) children ->
    dict_get (fold_left add_child children result) "@attributes"
    = dict_get result "@attributes".
Proof.
  induction children as [|c children IH]; simpl; intros result H;
    [reflexivity|].
  inversion H as [|? ? Hc Hrest]; subst.
  rewrite IH by exact Hrest.
  assert (Hne : el_tag c <> "@attributes").
  { intros E. rewrite E in Hc. discriminate. }
  unfold add_child. destruct (dict_get result (el_tag c));
    apply dict_get_set_other; exact Hne.
Qed.

Lemma nonreserved_not_text :
  forall t, reserved t = false -> t <> "#text".
Proof. intros t H E. subst t. discriminate H. Qed.

Lemma fold_children_distinct :
  forall children (result : dict),
    NoDup (map el_tag children) ->
    (forall c, In c children -> ~ In (el_tag c) (map fst result)) ->
    fold_left add_child children result
    = (result ++ map child_entry children)%list.
Proof.
  induction children as [|c children IH]; intros result Hnd Hnew.
  - cbn. rewrite app_nil_r. reflexivity.
  - cbn [map] in Hnd. inversion Hnd as [|? ? Hc Hnd']; subst.
    assert (Hcn : ~ In (el_tag c) (map fst result))
      by (apply Hnew; left; reflexivity).
    cbn [fold_left map]. unfold add_child at 2.
    rewrite (dict_get_notin _ _ Hcn), (dict_set_notin _ _ _ Hcn).
    rewrite IH; [rewrite <- app_assoc; reflexivity|exact Hnd'|].
    intros c' Hc' Hin. rewrite map_app, in_app_iff in Hin.
    destruct Hin as [Hin|[Hin|[]]].
    + apply (Hnew c'); [right; exact Hc'|exact Hin].
    + cbn in Hin. apply Hc. rewrite Hin. apply in_map, Hc'.
Qed.

Lemma fold_children_same_tag :
  forall cs g (base : dict) t,
    Forall (fun kv => reserved (fst kv) = true) base ->
    reserved t = false ->
    g <> [] ->
    Forall (fun c => is_list (_element_to_dict c) = false) g ->
    Forall (fun c => el_tag c = t /\ is_list (_element_to_dict c) = false) cs ->
    fold_left add_child cs (base ++ map group_entry [(t, g)])%list
    = (base ++ map group_entry [(t, g ++ cs)])%list.
Proof.
  induction cs as [|c cs IH]; intros g base t Hb Ht Hg Hgl Hcs.
  - rewrite app_nil_r. reflexivity.
  - inversion Hcs as [|? ? [Hc Hcl] Hcs']; subst.
    cbn [fold_left].
    pose proof (add_child_extend base [] g c) as Hstep.
    cbn [List.app map] in Hstep. rewrite app_nil_r in Hstep.
    cbn [List.app map]. rewrite Hstep.
    + assert (Hrec := IH (g ++ [c])%list base (el_tag c) Hb Ht).
      cbn [map] in Hrec. rewrite Hrec.
      * rewrite <- app_assoc. reflexivity.
      * intros E. apply app_eq_nil in E. destruct E. discriminate.
      * apply Forall_app. split; [exact Hgl|]. constructor; [exact Hcl|constructor].
      * exact Hcs'.
    + apply reserved_not_in; assumption.
    + exact Hg.
    + exact Hgl.
Qed.

End TreeProperties.

Section ElementToDict.
Context {PF : PyFloat}.

(** X13. What [_element_to_dict] gives an element whose children have no
    reserved tag: Null when it has no attribute, no text left after
    stripping and no child; the stripped text when it has only that; in
    every other case a Map, in which [@attributes] holds the attributes, if
    any, and [#text] the stripped text, if any. *)
Theorem element_data_kind :
  forall tag attrib text children,
    Forall (fun c => reserved (el_tag c) = false) children ->
    match attrib, kept_text text, children with
    | [], None, [] =>
        _element_to_dict (mkElement tag attrib text children) = VNull
    | [], Some s, [] =>
        _element_to_dict (mkElement tag attrib text children) = VText s
    | _, _, _ =>
        exists m,
          _element_to_dict (mkElement tag attrib text children) = VMap m
          /\ dict_get m "@attributes"
             = match attrib with [] => None | _ => Some (VMap attrib) end
          /\ dict_get m "#text" = option_map VText (kept_text text)
    end.
Proof.
  intros tag attrib text children Hres.
  rewrite _element_to_dict_unfold.
  assert (Hbase :
            dict_get (base_result attrib text) "@attributes"
            = match attrib with [] => None | _ => Some (VMap attrib) end
            /\ dict_get (base_result attrib text) "#text"
               = option_map VText (kept_text text)).
  { unfold base_result. destruct attrib; destruct (kept_text text);
      split; reflexivity. }
  destruct Hbase as [Ha Ht].
  assert (Hmap : forall k,
             dict_mem k (fold_left add_child children (base_result attrib text))
             = true ->
             k <> "#text" ->
             exists m,
               collapse (fold_left add_child children (base_result attrib text))
               = VMap m
               /\ dict_get m "@attributes"
                  = match attrib with [] => None | _ => Some (VMap attrib) end
               /\ dict_get m "#text" = option_map VText (kept_text text)).
  { intros k Hk Hne. eexists. split; [apply (collapse_map _ k Hk Hne)|].
    rewrite fold_children_attributes, fold_children_text by exact Hres.
    split; assumption. }
  destruct children as [|c children].
  - destruct attrib as [|kv attrib].
    + unfold base_result. destruct (kept_text text); reflexivity.
    + apply (Hmap "@attributes"); [|discriminate].
      unfold base_result. destruct (kept_text text); reflexivity.
  - inversion Hres as [|? ? Hc _]; subst.
    assert (Hgoal : exists m,
               collapse (fold_left add_child (c :: children)
                           (base_result attrib text)) = VMap m
               /\ dict_get m "@attributes"
                  = match attrib with [] => None | _ => Some (VMap attrib) end
               /\ dict_get m "#text" = option_map VText (kept_text text)).
    { apply (Hmap (el_tag c)); [|apply nonreserved_not_text, Hc].
      cbn [fold_left]. apply dict_mem_fold_children, dict_mem_add_child_tag. }
    destruct attrib; destruct (kept_text text); exact Hgoal.
Qed.

(** X14. Children whose tags are pairwise different and not reserved become
    one entry each, keyed by the tag, in document order, after the
    [@attributes] and [#text] entries. *)
Theorem children_with_distinct_tags :
  forall tag attrib text children,
    children <> [] ->
    NoDup (map el_tag children) ->
    Forall (fun c => reserved (el_tag c) = false) children ->
    _element_to_dict (mkElement tag attrib text children)
    = VMap (base_result attrib text ++ map child_entry children)%list.
Proof.
  intros tag attrib text children Hne Hnd Hres.
  rewrite _element_to_dict_unfold.
  destruct children as [|c children]; [contradiction|].
  inversion Hres as [|? ? Hc _]; subst.
  rewrite (collapse_map _ (el_tag c)).
  - rewrite fold_children_distinct; [reflexivity|exact Hnd|].
    intros c' Hc'. apply reserved_not_in; [apply base_result_reserved|].
    rewrite Forall_forall in Hres. apply Hres, Hc'.
  - cbn [fold_left]. apply dict_mem_fold_children, dict_mem_add_child_tag.
  - apply nonreserved_not_text, Hc.
Qed.

(** X15. Two or more children that all carry the same tag are folded into a
    single entry: the List of their data in document order.  (For the data
    of a child not to be a List itself, its own children must have no
    reserved tag.) *)
Theorem same_tag_children_become_list :
  forall tag attrib text t c1 c2 cs,
    reserved t = false ->
    Forall (fun c => el_tag c = t
                     /\ Forall (fun g => reserved (el_tag g) = false)
                          (el_children c))
           (c1 :: c2 :: cs) ->
    _element_to_dict (mkElement tag attrib text (c1 :: c2 :: cs))
    = VMap (base_result attrib text
            ++ [(t, VList (map _element_to_dict (c1 :: c2 :: cs)))])%list.
Proof.
  intros tag attrib text t c1 c2 cs Ht Hall.
  assert (Hall' : Forall (fun c => el_tag c = t
                                   /\ is_list (_element_to_dict c) = false)
                         (c1 :: c2 :: cs)).
  { eapply Forall_impl; [|exact Hall]. intros c [E Hg].
    split; [exact E|apply _element_to_dict_not_list, Hg]. }
  inversion Hall' as [|? ? [E1 L1] Hrest]; subst.
  rewrite _element_to_dict_unfold.
  pose proof (base_result_reserved attrib text) as Hb.
  rewrite (collapse_map _ (el_tag c1));
    [|apply (dict_mem_fold_children (c2 :: cs)), dict_mem_add_child_tag
     |apply nonreserved_not_text, Ht].
  cbn [fold_left].
  pose proof (add_child_new (base_result attrib text) [] c1) as Hfirst.
  cbn [List.app map] in Hfirst. rewrite app_nil_r in Hfirst.
  rewrite Hfirst by (apply reserved_not_in; assumption).
  pose proof (fold_children_same_tag (c2 :: cs) [c1] (base_result attrib text)
                (el_tag c1) Hb Ht) as Hfold.
  cbn [List.app map fold_left] in Hfold. cbn [fold_left].
  rewrite Hfold; [reflexivity|discriminate| |exact Hrest].
  constructor; [exact L1|constructor].
Qed.

End ElementToDict.

Section DictToElement.
Context {PF : PyFloat}.

Lemma put_child_shape :
  forall key e item e',
    put_child key e item = Ok e' ->
    exists child,
      _dict_to_element item key = Ok child /\ e' = append e child.
Proof.
  intros key e item e' H. unfold put_child in H.
  apply bind_Ok_inv in H. destruct H as [child [Hc H]].
  inversion H. exists child. split; [exact Hc|reflexivity].
Qed.

Lemma foldM_put_child_tag :
  forall l key e e',
    foldM (put_child key) l e = Ok e' -> el_tag e' = el_tag e.
Proof.
  induction l as [|item l IH]; intros key e e' H; simpl in H.
  - inversion H. reflexivity.
  - apply bind_Ok_inv in H. destruct H as [e1 [H1 H]].
    rewrite (IH _ _ _ H).
    destruct (put_child_shape _ _ _ _ H1) as [child [_ E]]. subst e1.
    destruct e. reflexivity.
Qed.

Lemma put_entry_tag :
  forall e kv e', put_entry e kv = Ok e' -> el_tag e' = el_tag e.
Proof.
  intros e [key value] e' H. unfold put_entry in H.
  destruct (String.eqb key "@attributes"); [inversion H; reflexivity|].
  destruct (String.eqb key "#text");
    [inversion H; destruct e; reflexivity|].
  destruct value;
    try (destruct (put_child_shape _ _ _ _ H) as [child [_ E]]; subst e';
         destruct e; reflexivity).
  apply (foldM_put_child_tag _ key _ _ H).
Qed.

Lemma foldM_put_entry_tag :
  forall m e e', foldM put_entry m e = Ok e' -> el_tag e' = el_tag e.
Proof.
  induction m as [|kv m IH]; intros e e' H; simpl in H.
  - inversion H. reflexivity.
  - apply bind_Ok_inv in H. destruct H as [e1 [H1 H]].
    rewrite (IH _ _ H). apply (put_entry_tag _ _ _ H1).
Qed.

Lemma _dict_to_element_list :
  forall l tag,
    _dict_to_element (VList l) tag
    = foldM (put_child "item") l (mkElement tag [] None []).
Proof. reflexivity. Qed.

(** The element built carries the tag that was asked for. *)
Lemma _dict_to_element_tag :
  forall data tag e, _dict_to_element data tag = Ok e -> el_tag e = tag.
Proof.
  intros data tag e H. destruct data as [|b|z|f|s|l|m];
    try (inversion H; reflexivity).
  - rewrite _dict_to_element_list in H.
    apply foldM_put_child_tag in H. exact H.
  - rewrite _dict_to_element_map in H.
    apply bind_Ok_inv in H. destruct H as [e0 [H0 H]].
    apply foldM_put_entry_tag in H. rewrite H.
    destruct (dict_get m "@attributes").
    + apply bind_Ok_inv in H0. destruct H0 as [a [_ H0]].
      inversion H0. reflexivity.
    + inversion H0. reflexivity.
Qed.

Lemma foldM_put_child_children :
  forall l key e e',
    foldM (put_child key) l e = Ok e' ->
    el_attrib e' = el_attrib e /\ el_text e' = el_text e
    /\ map el_tag (el_children e')
       = (map el_tag (el_children e) ++ map (fun _ => key) l)%list.
Proof.
  induction l as [|item l IH]; intros key e e' H; simpl in H.
  - inversion H. rewrite app_nil_r. auto.
  - apply bind_Ok_inv in H. destruct H as [e1 [H1 H]].
    destruct (IH _ _ _ H) as [Ha [Ht Hc]].
    destruct (put_child_shape _ _ _ _ H1) as [child [Hchild E]]. subst e1.
    apply _dict_to_element_tag in Hchild.
    destruct e as [t a x c]. cbn [append el_attrib el_text el_children] in *.
    rewrite Ha, Ht, Hc, map_app, <- app_assoc. cbn [map List.app].
    rewrite Hchild. auto.
Qed.

Lemma _dict_to_element_scalar :
  forall v key,
    is_container v = false ->
    _dict_to_element v key = Ok (scalar_child (key, v)).
Proof. intros [| | | | | |] key H; try discriminate H; reflexivity. Qed.

Lemma foldM_put_entry_scalars :
  forall m e,
    Forall (fun kv => reserved (fst kv) = false
                      /\ is_container (snd kv) = false) m ->
    foldM put_entry m e = Ok (fold_left append (map scalar_child m) e).
Proof.
  induction m as [|[key value] m IH]; intros e H; [reflexivity|].
  inversion H as [|? ? [Hk Hv] Hm]; subst. cbn [fst snd] in *.
  destruct (reserved_false key Hk) as [E1 E2].
  simpl foldM. unfold put_entry at 1. rewrite E1, E2.
  assert (Hput : put_child key e value = Ok (append e (scalar_child (key, value)))).
  { unfold put_child. rewrite (_dict_to_element_scalar value key Hv).
    reflexivity. }
  assert (Hstep : match value with
                  | VList l => foldM (put_child key) l e
                  | _ => put_child key e value
                  end = Ok (append e (scalar_child (key, value)))).
  { destruct value; try exact Hput; discriminate Hv. }
  rewrite Hstep. cbn [bind map fold_left]. apply IH, Hm.
Qed.

(** X16. [_dict_to_element] on a List gives an element with the tag asked
    for, no attribute, no text, and one child per item, each tagged
    [item]. *)
Theorem list_becomes_item_children :
  forall l tag e,
    _dict_to_element (VList l) tag = Ok e ->
    el_tag e = tag /\ el_attrib e = [] /\ el_text e = None
    /\ map el_tag (el_children e) = map (fun _ => "item") l.
Proof.
  intros l tag e H. split; [apply (_dict_to_element_tag _ _ _ H)|].
  rewrite _dict_to_element_list in H.
  apply foldM_put_child_children in H. exact H.
Qed.

(** X17. [_dict_to_element] on a Map whose keys are not reserved and whose
    values are scalars gives one child per entry, in the order of the
    entries: the child is tagged with the key and its text is [str] of the
    value, the empty text for Null; it has no attribute and no child. *)
Theorem flat_map_becomes_text_children :
  forall m tag,
    Forall (fun kv => reserved (fst kv) = false
                      /\ is_container (snd kv) = false) m ->
    _dict_to_element (VMap m) tag
    = Ok (mkElement tag [] None (map scalar_child m)).
Proof.
  intros m tag H. rewrite _dict_to_element_map.
  assert (Hnone : dict_get m "@attributes" = None).
  { apply dict_get_notin. intros Hin. apply in_map_iff in Hin.
    destruct Hin as [kv [E Hkv]]. rewrite Forall_forall in H.
    destruct (H kv Hkv) as [Hr _]. rewrite E in Hr. discriminate Hr. }
  rewrite Hnone. cbn [bind].
  rewrite (foldM_put_entry_scalars m _ H), fold_left_append. reflexivity.
Qed.

End DictToElement.

(** ** Conversions that go through two codecs *)

Section Conversions.
Context {PF : PyFloat} {Lib : Collaborators}.

(** X18. XML to XML.  For a document whose tree is foldable, the element
    handed to the XML writer is the tree that comes back from the round
    trip with its root renamed to [root_name]: the tag of the document's
    own root is not kept. *)
Theorem convert_xml_to_xml :
  forall data_str root_name root,
    ET_fromstring data_str = inl root ->
    foldable root = true ->
    convert "xml" "xml" data_str root_name
    = (xml_str <- lift (ET_tostring (restored_as root_name root)) ;;
       lift (minidom_toprettyxml xml_str)).
Proof.
  intros data_str root_name root Hdoc Hf.
  unfold convert, parse_input, xml_to_dict.
  cbn [String.eqb Ascii.eqb Bool.eqb]. rewrite Hdoc. cbn [lift bind].
  unfold render_output. cbn [String.eqb Ascii.eqb Bool.eqb].
  unfold dict_to_xml. rewrite (tree_comes_back root Hf root_name).
  reflexivity.
Qed.


(** X20. [root_name] matters only to XML: when neither format is [xml],
    [convert] gives the same result for every [root_name]. *)
Theorem root_name_only_for_xml :
  forall input_format output_format data_str root_name root_name',
    input_format <> "xml" -> output_format <> "xml" ->
    convert input_format output_format data_str root_name
    = convert input_format output_format data_str root_name'.
Proof.
  intros i o s r r' Hi Ho.
  apply String.eqb_neq in Hi. apply String.eqb_neq in Ho.
  unfold convert, parse_input, render_output. rewrite Hi, Ho.
  destruct (String.eqb i "json"); [|destruct (String.eqb i "csv");
                                      [|destruct (String.eqb i "yaml")]];
    reflexivity.
Qed.

(** X21. XML to CSV.  Whatever the document, the table handed to the CSV
    writer has one column, named [root_name], and one row, which holds the
    whole document. *)
Theorem convert_xml_to_csv_single_cell :
  forall data_str root_name root,
    ET_fromstring data_str = inl root ->
    convert "xml" "csv" data_str root_name
    = lift (csv_DictWriter [root_name]
              [VMap [(root_name, _element_to_dict root)]]).
Proof.
  intros data_str root_name root Hdoc.
  unfold convert, parse_input, xml_to_dict.
  cbn [String.eqb Ascii.eqb Bool.eqb]. rewrite Hdoc. cbn [lift bind].
  unfold render_output. cbn [String.eqb Ascii.eqb Bool.eqb].
  unfold dict_to_csv. cbn [truthy negb map fst]. reflexivity.
Qed.


(** X23. From the command line the unsupported-format errors of [convert]
    cannot occur: a suffix that [main] accepts names one of the four
    formats, after lower-casing and with [yml] read as [yaml], and [--to]
    is one of the four. *)
Theorem cli_formats_are_supported :
  forall suffix ext to data_str root_name,
    CLI.input_ext suffix = Some ext ->
    In to CLI.choices ->
    supported ext = true
    /\ not_unsupported (convert ext to data_str root_name).
Proof.
  intros suffix ext to s r Hext Hto.
  assert (He : supported ext = true).
  { unfold CLI.input_ext in Hext.
    set (e := CLI.lstrip_char "." (CLI.lower suffix)) in *.
    cbn [existsb] in Hext.
    destruct (String.eqb e "json") eqn:E1;
      [apply String.eqb_eq in E1; rewrite E1 in Hext; inversion Hext; reflexivity|].
    destruct (String.eqb e "csv") eqn:E2;
      [apply String.eqb_eq in E2; rewrite E2 in Hext; inversion Hext; reflexivity|].
    destruct (String.eqb e "xml") eqn:E3;
      [apply String.eqb_eq in E3; rewrite E3 in Hext; inversion Hext; reflexivity|].
    destruct (String.eqb e "yaml") eqn:E4;
      [apply String.eqb_eq in E4; rewrite E4 in Hext; inversion Hext; reflexivity|].
    destruct (String.eqb e "yml") eqn:E5; [|discriminate Hext].
    inversion Hext. reflexivity. }
  assert (Ht : supported to = true).
  { destruct Hto as [E|[E|[E|[E|[]]]]]; subst to; reflexivity. }
  split; [exact He|]. unfold convert.
  apply not_unsupported_bind.
  - apply parse_input_not_unsupported, He.
  - intros data. apply render_output_not_unsupported, Ht.
Qed.

End Conversions.

Section TreeFurtherExamples.
Import Examples.
#[local] Existing Instance no_float_tokens.

Lemma element_data_kind_witness :
  exists m,
    _element_to_dict
      (mkElement "a" [("id", VText "1")] (Some " hi ") [leaf "b"]) = VMap m
    /\ dict_get m "@attributes" = Some (VMap [("id", VText "1")])
    /\ dict_get m "#text" = option_map VText (kept_text (Some " hi ")).
Proof.
  apply (element_data_kind "a" [("id", VText "1")] (Some " hi ") [leaf "b"]).
  constructor; [reflexivity|constructor].
Defined.

Lemma children_with_distinct_tags_witness :
  _element_to_dict
    (mkElement "r" [] None [mkElement "b" [] (Some "x") []; leaf "a"])
  = VMap (base_result [] None
          ++ map child_entry [mkElement "b" [] (Some "x") []; leaf "a"])%list.
Proof.
  apply children_with_distinct_tags.
  - discriminate.
  - constructor; [intros [H|[]]; discriminate H|].
    constructor; [intros []|constructor].
  - constructor; [reflexivity|]. constructor; [reflexivity|constructor].
Defined.

Lemma same_tag_children_become_list_witness :
  _element_to_dict
    (mkElement "r" [] None
       [mkElement "t" [] (Some "x") []; leaf "t"; mkElement "t" [] (Some "y") []])
  = VMap (base_result [] None
          ++ [("t", VList (map _element_to_dict
                             [mkElement "t" [] (Some "x") []; leaf "t";
                              mkElement "t" [] (Some "y") []]))])%list.
Proof.
  apply same_tag_children_become_list; [reflexivity|].
  constructor; [split; [reflexivity|constructor]|].
  constructor; [split; [reflexivity|constructor]|].
  constructor; [split; [reflexivity|constructor]|].
  constructor.
Defined.

Lemma list_becomes_item_children_witness :
  el_tag (mkElement "r" [] None
            [mkElement "item" [] (Some "1") []; mkElement "item" [] (Some "") []])
  = "r"
  /\ el_attrib (mkElement "r" [] None
                  [mkElement "item" [] (Some "1") [];
                   mkElement "item" [] (Some "") []]) = []
  /\ el_text (mkElement "r" [] None
                [mkElement "item" [] (Some "1") [];
                 mkElement "item" [] (Some "") []]) = None
  /\ map el_tag
       (el_children (mkElement "r" [] None
                       [mkElement "item" [] (Some "1") [];
                        mkElement "item" [] (Some "") []]))
     = map (fun _ => "item") [VInt 1; VNull].
Proof.
  apply (list_becomes_item_children [VInt 1; VNull] "r"). reflexivity.
Defined.

Lemma flat_map_becomes_text_children_witness :
  _dict_to_element (VMap [("a", VInt 1); ("b", VBool true); ("c", VNull)]) "r"
  = Ok (mkElement "r" [] None
          (map scalar_child [("a", VInt 1); ("b", VBool true); ("c", VNull)])).
Proof.
  apply flat_map_becomes_text_children.
  constructor; [split; reflexivity|].
  constructor; [split; reflexivity|].
  constructor; [split; reflexivity|].
  constructor.
Defined.

End TreeFurtherExamples.

Section ConversionExamples.
Import Examples.
#[local] Existing Instance no_float_tokens.
#[local] Existing Instance table_lib.

Lemma convert_xml_to_xml_witness :
  convert "xml" "xml" doc_data "config"
  = (xml_str <- lift (ET_tostring (restored_as "config" tree_data)) ;;
     lift (minidom_toprettyxml xml_str)).
Proof.
  apply convert_xml_to_xml; reflexivity.
Defined.


Lemma root_name_only_for_xml_witness :
  convert "yaml" "json" "a: 1" "root" = convert "yaml" "json" "a: 1" "config".
Proof.
  apply root_name_only_for_xml; discriminate.
Defined.

Lemma convert_xml_to_csv_single_cell_witness :
  convert "xml" "csv" doc_data "root"
  = lift (csv_DictWriter ["root"] [VMap [("root", _element_to_dict tree_data)]]).
Proof.
  apply convert_xml_to_csv_single_cell. reflexivity.
Defined.


Lemma cli_formats_are_supported_witness :
  supported "yaml" = true
  /\ not_unsupported (convert "yaml" "csv" "a: 1" "root").
Proof.
  apply (cli_formats_are_supported ".YML" "yaml" "csv").
  - reflexivity.
  - right. left. reflexivity.
Defined.

End ConversionExamples.

(** ** White space around a document *)

Section OuterWhiteSpace.
Context {PF : PyFloat} {Lib : Collaborators}.

Lemma rstrip_spaces :
  forall post, forallb_str is_space post = true -> rstrip post = "".
Proof.
  induction post as [|c post IH]; intros H; [reflexivity|].
  cbn [forallb_str] in H. apply andb_true_iff in H. destruct H as [Hc Hp].
  cbn [rstrip]. rewrite (IH Hp), Hc. reflexivity.
Qed.

Lemma rstrip_append_spaces :
  forall s post,
    forallb_str is_space post = true -> rstrip (s ++ post) = rstrip s.
Proof.
  induction s as [|c s IH]; intros post H.
  - apply rstrip_spaces, H.
  - cbn [String.append rstrip]. rewrite (IH post H). reflexivity.
Qed.

Lemma rstrip_prepend :
  forall pre s, rstrip s <> "" -> rstrip (pre ++ s) = pre ++ rstrip s.
Proof.
  induction pre as [|c pre IH]; intros s H; [reflexivity|].
  cbn [String.append rstrip]. rewrite (IH s H).
  destruct (pre ++ rstrip s) eqn:E; [|reflexivity].
  destruct pre; [contradiction|discriminate E].
Qed.

Lemma lstrip_prepend_spaces :
  forall pre s, forallb_str is_space pre = true -> lstrip (pre ++ s) = lstrip s.
Proof.
  induction pre as [|c pre IH]; intros s H; [reflexivity|].
  cbn [forallb_str] in H. apply andb_true_iff in H. destruct H as [Hc Hp].
  cbn [String.append lstrip]. rewrite Hc. apply IH, Hp.
Qed.

Lemma strip_padded :
  forall pre s post,
    forallb_str is_space pre = true -> forallb_str is_space post = true ->
    strip (pre ++ s ++ post) = strip s.
Proof.
  intros pre s post Hpre Hpost. unfold strip.
  rewrite <- append_assoc, (rstrip_append_spaces _ post Hpost).
  destruct (rstrip s) eqn:E.
  - assert (Hs : rstrip (pre ++ s) = "").
    { clear Hpost. induction pre as [|c pre IH]; [exact E|].
      cbn [forallb_str] in Hpre. apply andb_true_iff in Hpre.
      destruct Hpre as [Hc Hp]. cbn [String.append rstrip].
      rewrite (IH Hp), Hc. reflexivity. }
    rewrite Hs. reflexivity.
  - rewrite rstrip_prepend by (rewrite E; discriminate).
    rewrite E. apply lstrip_prepend_spaces, Hpre.
Qed.

(** X24. White space around the whole document, blank lines before or
    after it and the indentation of its first line included, is ignored by
    the YAML reader and by the CSV reader. *)
Theorem outer_white_space_ignored :
  forall pre text post,
    forallb_str is_space pre = true -> forallb_str is_space post = true ->
    parse (pre ++ text ++ post) = parse text
    /\ csv_to_dict (pre ++ text ++ post) = csv_to_dict text.
Proof.
  intros pre text post Hpre Hpost. unfold parse, csv_to_dict.
  rewrite (strip_padded pre text post Hpre Hpost). split; reflexivity.
Qed.

End OuterWhiteSpace.

(** ** A list of records in block form *)

Section RecordLists.
Context {PF : PyFloat}.

Lemma parse_item_entry_line :
  forall fuel d key tok v rest result items,
    key_ok key = true ->
    token_ok false tok v ->
    parse_loop (S fuel) (2 * d) (item_line d (key ++ ": " ++ tok) :: rest)
      result items
    = parse_loop fuel (2 * d) rest result (items ++ [VMap [(key, v)]])%list.
Proof.
  intros fuel d key tok v rest result items Hk [Hh [Hl [Hnl [_ Hp]]]].
  destruct (key_ok_facts key Hk) as [Hcolon [_ [_ [_ Hstrip]]]].
  assert (Hvh : head_ok (key ++ ": " ++ tok) = true)
    by (apply key_body_head, Hstrip).
  assert (Hvl : last_ok (key ++ ": " ++ tok) = true).
  { apply last_ok_append. apply (last_ok_append ": " tok Hl). }
  assert (Hbh : head_ok ("- " ++ key ++ ": " ++ tok) = true) by reflexivity.
  assert (Hbl : last_ok ("- " ++ key ++ ": " ++ tok) = true)
    by (apply last_ok_append, Hvl).
  cbn [parse_loop]. unfold item_line.
  rewrite (strip_indented d _ Hbh Hbl), (indent_of_indented d _ Hbh).
  rewrite Nat.ltb_irrefl.
  cbn [String.append String.eqb orb]. unfold startswith.
  repeat (rewrite prefix_cons; cbn [Ascii.eqb Bool.eqb andb]).
  rewrite prefix_nil. cbn [drop orb].
  change (key ++ String ":" (String " " tok)) with (key ++ ": " ++ tok).
  rewrite (strip_ends_ok _ Hvh Hvl).
  rewrite contains_append, Hcolon.
  change (": " ++ tok) with (String ":" (String " " tok)).
  cbn [contains Ascii.eqb Bool.eqb orb].
  rewrite (split1_append ":" key _ Hcolon), Hstrip.
  rewrite (strip_space_token tok Hh Hl), Hp.
  reflexivity.
Qed.

Lemma parse_loop_skip_prefix :
  forall skipped fuel indent rest result items,
    Forall (passed_over indent) skipped ->
    parse_loop (length skipped + fuel) indent (skipped ++ rest)%list result items
    = parse_loop fuel indent rest result items.
Proof.
  induction skipped as [|line skipped IH];
    intros fuel indent rest result items Hall; [reflexivity|].
  inversion Hall as [|? ? Hline Hrest]; subst.
  cbn [length Nat.add List.app parse_loop].
  destruct (String.eqb (strip line) "" || startswith "#" (strip line)) eqn:E.
  - apply IH, Hrest.
  - apply orb_false_elim in E. destruct E as [E1 E2].
    destruct Hline as [Hs|[Hs|[Hs|[Hi [Hd Hc]]]]].
    + rewrite Hs in E1. discriminate E1.
    + rewrite Hs in E2. discriminate E2.
    + assert (H1 : (indent_of line <? indent)%nat = false)
        by (apply Nat.ltb_ge; lia).
      assert (H2 : (indent <? indent_of line)%nat = true)
        by (apply Nat.ltb_lt; lia).
      rewrite H1, H2. apply IH, Hrest.
    + rewrite Hi, Nat.ltb_irrefl, Hd, Hc. apply IH, Hrest.
Qed.

Lemma record_lines_facts :
  forall r,
    record_ok r ->
    exists k v fields,
      r = (k, v) :: fields
      /\ key_ok k = true
      /\ token_ok false (_serialize_value v) (coerce v)
      /\ Forall (passed_over 0)
           (map (fun kv => entry_line 1 (fst kv) (_serialize_value (snd kv)))
              fields)
      /\ Forall (fun l => contains nl l = false /\ last_ok l = true)
           (record_lines r).
Proof.
  intros [|[k v] fields] [Hne Hall]; [contradiction|].
  inversion Hall as [|? ? [Hk Hv] Hfields]; subst. cbn [fst snd] in *.
  pose proof (scalar_token false v Hv) as Htok.
  assert (Hlines :
            Forall (fun kv =>
                      at_depth 1 (entry_line 1 (fst kv) (_serialize_value (snd kv)))
                      /\ contains nl
                           (entry_line 1 (fst kv) (_serialize_value (snd kv)))
                         = false) fields).
  { eapply Forall_impl; [|exact Hfields]. intros [k' v'] [Hk' Hv'].
    apply (entry_line_ok 1 k' _ (coerce v') Hk' (scalar_token false v' Hv')). }
  exists k, v, fields.
  split; [reflexivity|]. split; [exact Hk|]. split; [exact Htok|]. split.
  - apply Forall_map. eapply Forall_impl; [|exact Hlines].
    intros kv [Hat _]. right. right. left.
    rewrite (at_depth_indent _ _ Hat). cbn. lia.
  - cbn [record_lines]. constructor.
    + destruct (entry_line_ok 0 k _ _ Hk Htok) as [Hat Hnl].
      split; [exact Hnl|].
      unfold item_line. apply last_ok_append, last_ok_append.
      apply (at_depth_last _ _ Hat).
    + apply Forall_map. eapply Forall_impl; [|exact Hlines].
      intros kv [Hat Hnl]. split; [exact Hnl|apply (at_depth_last _ _ Hat)].
Qed.

Lemma parse_records :
  forall records fuel acc,
    Forall record_ok records ->
    (length (flat_map record_lines records) < fuel)%nat ->
    parse_loop fuel 0 (flat_map record_lines records) [] acc
    = Ok (finish [] (acc ++ map first_field records)%list).
Proof.
  induction records as [|r records IH]; intros fuel acc Hall Hfuel.
  - destruct fuel; [simpl in Hfuel; lia|]. cbn. rewrite app_nil_r. reflexivity.
  - inversion Hall as [|? ? Hr Hrest]; subst.
    destruct (record_lines_facts r Hr) as [k [v [fields [E [Hk [Htok [Hskip _]]]]]]].
    subst r. revert Hfuel. cbn [flat_map record_lines List.app map first_field].
    set (deeper := map _ fields) in *.
    intros Hfuel. cbn [length] in Hfuel. rewrite length_app in Hfuel.
    replace fuel
      with (S (length deeper
               + (fuel - S (length deeper)))) by lia.
    change (parse_loop (S (length deeper + (fuel - S (length deeper)))) 0)
      with (parse_loop (S (length deeper + (fuel - S (length deeper)))) (2 * 0)).
    rewrite (parse_item_entry_line _ 0 k _ (coerce v) _ _ _ Hk Htok).
    change (2 * 0)%nat with 0%nat.
    rewrite (parse_loop_skip_prefix deeper _ 0 _ _ _ Hskip).
    rewrite IH; [|exact Hrest|lia].
    rewrite <- app_assoc. reflexivity.
Qed.

(** X25. A list of records in block form, each record with its first field
    on the marker line and its other fields one level deeper, is read as
    the List of one-entry Maps, one per record, that hold the first field
    only: the deeper lines are passed over. *)
Theorem record_list_keeps_first_fields :
  forall records,
    records <> [] ->
    Forall record_ok records ->
    parse (join NL (flat_map record_lines records))
    = Ok (VList (map first_field records)).
Proof.
  intros records Hne Hall.
  assert (Hlines : Forall (fun l => contains nl l = false /\ last_ok l = true)
                     (flat_map record_lines records)).
  { apply Forall_flat_map. eapply Forall_impl; [|exact Hall].
    intros r Hr.
    destruct (record_lines_facts r Hr) as [k [v [fields [_ [_ [_ [_ H]]]]]]].
    exact H. }
  destruct records as [|r records]; [contradiction|].
  inversion Hall as [|? ? Hr _]; subst.
  destruct (record_lines_facts r Hr) as [k [v [fields [E _]]]]. subst r.
  unfold parse, _parse_lines.
  set (L := flat_map record_lines (((k, v) :: fields) :: records)) in *.
  assert (HL : exists rest, L = item_line 0 (k ++ ": " ++ _serialize_value v) :: rest).
  { eexists. reflexivity. }
  destruct HL as [rest HL].
  assert (Hnonempty : L <> []) by (rewrite HL; discriminate).
  rewrite strip_ends_ok.
  - rewrite split_join; [|exact Hnonempty|].
    + unfold L. rewrite parse_records; [reflexivity|exact Hall|lia].
    + eapply Forall_impl; [|exact Hlines]. intros l [Hnl _]. exact Hnl.
  - rewrite HL. apply head_ok_join. reflexivity.
  - apply last_ok_join; [exact Hnonempty|].
    apply (Forall_last _ (fun l => last_ok l = true)); [|exact Hnonempty].
    eapply Forall_impl; [|exact Hlines]. intros l [_ Hl]. exact Hl.
Qed.

End RecordLists.

(** ** A flat record to an element and back *)

Section FlatRecord.
Context {PF : PyFloat}.

Lemma _element_to_dict_scalar_child :
  forall kv, child_entry (scalar_child kv) = (fst kv, text_back (snd kv)).
Proof.
  intros [k v]. unfold child_entry, scalar_child, text_back. cbn [fst snd el_tag].
  rewrite _element_to_dict_unfold. unfold base_result. cbn [fold_left List.app].
  destruct (kept_text (Some (scalar_text v))); reflexivity.
Qed.

(** X26. A non-empty Map with distinct keys, none reserved, and scalar
    values goes through [_dict_to_element] and [_element_to_dict] to a Map
    with the same keys in the same order, in which every value has lost its
    type: it is the stripped text of [str] of the value, or Null when that
    text is empty or blank. *)
Theorem flat_record_through_element :
  forall m tag,
    m <> [] ->
    NoDup (map fst m) ->
    Forall (fun kv => reserved (fst kv) = false
                      /\ is_container (snd kv) = false) m ->
    exists e,
      _dict_to_element (VMap m) tag = Ok e
      /\ _element_to_dict e
         = VMap (map (fun kv => (fst kv, text_back (snd kv))) m).
Proof.
  intros m tag Hne Hnd H.
  exists (mkElement tag [] None (map scalar_child m)). split.
  - rewrite _dict_to_element_map.
    assert (Hnone : dict_get m "@attributes" = None).
    { apply dict_get_notin. intros Hin. apply in_map_iff in Hin.
      destruct Hin as [kv [E Hkv]]. rewrite Forall_forall in H.
      destruct (H kv Hkv) as [Hr _]. rewrite E in Hr. discriminate Hr. }
    rewrite Hnone. cbn [bind].
    rewrite (foldM_put_entry_scalars m _ H), fold_left_append. reflexivity.
  - rewrite _element_to_dict_unfold.
    destruct m as [|[k v] m]; [contradiction|].
    inversion H as [|? ? [Hk _] _]; subst. cbn [fst] in Hk.
    rewrite (collapse_map _ k).
    + rewrite fold_children_distinct.
      * change (base_result [] None) with (@nil (string * Value)).
        cbn [List.app]. rewrite map_map. f_equal. apply map_ext.
        apply _element_to_dict_scalar_child.
      * rewrite map_map. exact Hnd.
      * intros c _ [].
    + apply (dict_mem_fold_children (map scalar_child m)).
      apply (dict_mem_add_child_tag _ (scalar_child (k, v))).
    + apply nonreserved_not_text, Hk.
Qed.

End FlatRecord.

Section FurtherExamples.
Import Examples.
#[local] Existing Instance no_float_tokens.
#[local] Existing Instance table_lib.

Lemma outer_white_space_ignored_witness :
  parse (NL ++ "  " ++ "a: 1" ++ " " ++ NL) = parse "a: 1"
  /\ csv_to_dict (NL ++ "  " ++ "a: 1" ++ " " ++ NL) = csv_to_dict "a: 1".
Proof.
  apply (outer_white_space_ignored (NL ++ "  ") "a: 1" (" " ++ NL));
    reflexivity.
Defined.

Lemma record_list_keeps_first_fields_witness :
  parse (join NL (flat_map record_lines
                    [[("name", VText "Ann"); ("age", VInt 30)];
                     [("name", VText "Bob"); ("age", VInt 25)]]))
  = Ok (VList (map first_field
                 [[("name", VText "Ann"); ("age", VInt 30)];
                  [("name", VText "Bob"); ("age", VInt 25)]])).
Proof.
  apply record_list_keeps_first_fields; [discriminate|].
  constructor.
  - split; [discriminate|].
    constructor; [split; reflexivity|].
    constructor; [split; reflexivity|constructor].
  - constructor; [|constructor].
    split; [discriminate|].
    constructor; [split; reflexivity|].
    constructor; [split; reflexivity|constructor].
Defined.

Lemma flat_record_through_element_witness :
  exists e,
    _dict_to_element (VMap [("n", VInt 7); ("ok", VBool true); ("x", VNull)]) "r"
    = Ok e
    /\ _element_to_dict e
       = VMap (map (fun kv => (fst kv, text_back (snd kv)))
                 [("n", VInt 7); ("ok", VBool true); ("x", VNull)]).
Proof.
  apply flat_record_through_element.
  - discriminate.
  - constructor; [intros [H|[H|[]]]; discriminate H|].
    constructor; [intros [H|[]]; discriminate H|].
    constructor; [intros []|constructor].
  - constructor; [split; reflexivity|].
    constructor; [split; reflexivity|].
    constructor; [split; reflexivity|constructor].
Defined.

End FurtherExamples.

(** ** The root element of an XML result *)

Section RootElement.
Context {PF : PyFloat} {Lib : Collaborators}.

(** X27. JSON to XML on an object with exactly one key.  The element
    handed to the XML writer is the one [_dict_to_element] builds from the
    value of that key, and it is tagged with the key: [root_name] is not
    used. *)
Theorem convert_json_to_xml_root :
  forall data_str root_name key value root,
    json_loads data_str = inl (VMap [(key, value)]) ->
    _dict_to_element value key = Ok root ->
    el_tag root = key
    /\ convert "json" "xml" data_str root_name
       = (xml_str <- lift (ET_tostring root) ;;
          lift (minidom_toprettyxml xml_str)).
Proof.
  intros data_str root_name key value root Hdoc Hroot.
  split; [apply (_dict_to_element_tag _ _ _ Hroot)|].
  unfold convert, parse_input, json_to_dict.
  cbn [String.eqb Ascii.eqb Bool.eqb]. rewrite Hdoc. cbn [lift bind].
  unfold render_output. cbn [String.eqb Ascii.eqb Bool.eqb].
  unfold dict_to_xml. rewrite Hroot. reflexivity.
Qed.

End RootElement.

Section RootElementExamples.
Import Examples RecordExamples.
#[local] Existing Instance no_float_tokens.
#[local] Existing Instance record_lib.

Lemma convert_json_to_xml_root_witness :
  el_tag (mkElement "user" [] None
            [mkElement "name" [] (Some "Ann") [];
             mkElement "age" [] (Some "30") []]) = "user"
  /\ convert "json" "xml" doc_user "config"
     = (xml_str <- lift (ET_tostring
                           (mkElement "user" [] None
                              [mkElement "name" [] (Some "Ann") [];
                               mkElement "age" [] (Some "30") []])) ;;
        lift (minidom_toprettyxml xml_str)).
Proof.
  apply (convert_json_to_xml_root doc_user "config" "user"
           (VMap [("name", VText "Ann"); ("age", VInt 30)])); reflexivity.
Defined.

End RootElementExamples.
